(** * Aggregation of OpenClaw session logs into the dashboard's metrics document

    A shallow embedding of [scripts/sync-openclaw-metrics.mjs].  The script
    lists the [.jsonl] files of the sessions directory, parses every line,
    folds the usage records into running totals, a per-day rollup and a
    per-model rollup, and writes one payload document.

    Conventions of the embedding.
    - A JavaScript string is the sequence of its code units; the code units
      are those of [Ascii.ascii], that is U+0000 to U+00FF.
    - A JavaScript number is a binary64 value: the kernel's [float].  That
      holds for the counter [calls] too, which [+= 1] moves through the
      doubles 0, 1, 2, ...: [count n] below, the whole number [n] as long
      as [n] is under 2^53.
    - [undefined] is [None] of type [value]; everything [JSON.parse] can
      return is a [json].
    - Code that can throw returns a [result].
    - The clock is an input: [now i] is what the [i]-th evaluation of
      [new Date().toISOString()] returns.
    - The builtins whose algorithms are outside the script ([JSON.parse],
      the string to number and number to string conversions,
      [String.prototype.localeCompare]) are the fields of [Builtins]. *)

From Stdlib Require Import String Ascii List ZArith Floats Bool Lia.
From Stdlib Require Import Sorted Permutation.
Import ListNotations.
Local Open Scope string_scope.
Local Open Scope list_scope.

(** ** Strings *)

(** [s.startsWith(p)] *)
Fixpoint startsWith (s p : string) {struct p} : bool :=
  match p with
  | EmptyString => true
  | String c p' =>
      match s with
      | EmptyString => false
      | String d s' => Ascii.eqb c d && startsWith s' p'
      end
  end.

(** [s.includes(sub)]: [sub] starts at some position of [s]. *)
Fixpoint includes (s sub : string) {struct s} : bool :=
  startsWith s sub
  || match s with
     | EmptyString => false
     | String _ s' => includes s' sub
     end.

(** [s.endsWith(suffix)]: some tail of [s] is [suffix]. *)
Fixpoint endsWith (s suffix : string) {struct s} : bool :=
  (s =? suffix)
  || match s with
     | EmptyString => false
     | String _ s' => endsWith s' suffix
     end.

(** [s.slice(0, 10)] *)
Definition slice_0_10 (s : string) : string := substring 0 10 s.

Definition newline : ascii := ascii_of_nat 10.

(** [s.split(sep)] for a separator of one code unit: never the empty list. *)
Fixpoint split (sep : ascii) (s : string) : list string :=
  match s with
  | EmptyString => [EmptyString]
  | String c s' =>
      if Ascii.eqb c sep then EmptyString :: split sep s'
      else match split sep s' with
           | cur :: rest => String c cur :: rest
           | [] => [String c EmptyString]
           end
  end.

(** White space and line terminators of ECMAScript below U+0100: TAB, LF, VT,
    FF, CR, SP and NBSP. *)
Definition isWhiteSpace (c : ascii) : bool :=
  let n := nat_of_ascii c in
  ((9 <=? n) && (n <=? 13) || (n =? 32) || (n =? 160))%nat.

Fixpoint trimStart (s : string) : string :=
  match s with
  | EmptyString => EmptyString
  | String c s' => if isWhiteSpace c then trimStart s' else s
  end.

Fixpoint trimEnd (s : string) : string :=
  match s with
  | EmptyString => EmptyString
  | String c s' =>
      match trimEnd s' with
      | EmptyString => if isWhiteSpace c then EmptyString else String c EmptyString
      | t => String c t
      end
  end.

(** [s.trim()] *)
Definition trim (s : string) : string := trimEnd (trimStart s).

(** ** Values *)

#[local] Set Warnings "-register-all".

(** What [JSON.parse] returns.  The members of an object are in the order
    [JSON.parse] created them, one entry per key. *)
Inductive json : Type :=
| JNull
| JBool (b : bool)
| JNum (x : float)
| JStr (s : string)
| JArr (items : list json)
| JObj (members : list (string * json)).

(** A JavaScript value of the script: [None] is [undefined]. *)
Definition value : Type := option json.

Definition undefined : value := None.

Inductive exn : Type :=
| TypeError
| IOError.

Inductive result (A : Type) : Type :=
| Ok (a : A)
| Throw (e : exn).

Arguments Ok {A} a.
Arguments Throw {A} e.

Definition bind {A B : Type} (m : result A) (k : A -> result B) : result B :=
  match m with
  | Ok a => k a
  | Throw e => Throw e
  end.

Notation "x <- m ;; k" := (bind m (fun x => k))
  (at level 61, m at next level, right associativity).

(** ToBoolean *)
Definition truthy (v : value) : bool :=
  match v with
  | None => false
  | Some JNull => false
  | Some (JBool b) => b
  | Some (JNum x) => negb (is_zero x || is_nan x)
  | Some (JStr s) => negb (s =? "")
  | Some (JArr _) => true
  | Some (JObj _) => true
  end.

(** [a || b] where evaluating [b] has no effect. *)
Definition or_else (a b : value) : value := if truthy a then a else b.

Definition lookup (k : string) (members : list (string * json)) : value :=
  match find (fun p => fst p =? k) members with
  | Some p => Some (snd p)
  | None => None
  end.

Definition has_key (k : string) (members : list (string * json)) : bool :=
  existsb (fun p => fst p =? k) members.

(** Reading property [k] of a value that is neither [null] nor [undefined].
    The script reads [message], [usage], [cost], [total], [timestamp],
    [model], [modelId], [input], [output], [cacheRead], [cacheWrite] and
    [totalTokens]: no prototype defines one of them, so only an object's own
    member answers. *)
Definition get (v : json) (k : string) : value :=
  match v with
  | JObj members => lookup k members
  | _ => undefined
  end.

(** [o.k]: a TypeError on [null] and [undefined]. *)
Definition prop (o : value) (k : string) : result value :=
  match o with
  | None => Throw TypeError
  | Some JNull => Throw TypeError
  | Some v => Ok (get v k)
  end.

(** [o?.k] *)
Definition optprop (o : value) (k : string) : value :=
  match o with
  | None => undefined
  | Some JNull => undefined
  | Some v => get v k
  end.

(** ** The provider classifier (lines 22-29) *)

Definition providerFromModel (model : string) : string :=
  if startsWith model "anthropic/" || includes model "claude" then "Anthropic"
  else if startsWith model "openai/" then "OpenAI"
  else if startsWith model "openai-codex/" then "OpenAI Codex"
  else if startsWith model "google/" then "Google"
  else if startsWith model "xai/" then "xAI"
  else "Other".

(** The call [providerFromModel(model)]: the default [''] stands in for
    [undefined] only, and a value that is no string has no callable
    [startsWith]. *)
Definition call_providerFromModel (model : value) : result string :=
  match model with
  | None => Ok (providerFromModel "")
  | Some (JStr s) => Ok (providerFromModel s)
  | Some _ => Throw TypeError
  end.

(** The rule list as section 4.2 of the specification words it, in its
    order: the Codex prefix before the plain OpenAI prefix. *)
Definition classifier_rules : list ((string -> bool) * string) :=
  [ (fun m => startsWith m "anthropic/" || includes m "claude", "Anthropic");
    (fun m => startsWith m "openai-codex/", "OpenAI Codex");
    (fun m => startsWith m "openai/", "OpenAI");
    (fun m => startsWith m "google/", "Google");
    (fun m => startsWith m "xai/", "xAI") ].

Fixpoint first_match (rules : list ((string -> bool) * string)) (m : string) : string :=
  match rules with
  | [] => "Other"
  | (test, label) :: rest => if test m then label else first_match rest m
  end.

Definition classify_spec (m : string) : string := first_match classifier_rules m.

Definition provider_labels : list string :=
  ["Anthropic"; "OpenAI Codex"; "OpenAI"; "Google"; "xAI"; "Other"].

(** ** The accumulators (lines 38-54, 76-83, 91-99) *)

Module Totals.
Record t : Type := mk {
  calls : float;
  inputTokens : float;
  outputTokens : float;
  cacheRead : float;
  cacheWrite : float;
  totalTokens : float;
  cost : float
}.
End Totals.

Module Daily.
Record t : Type := mk {
  date : string;
  calls : float;
  inputTokens : float;
  outputTokens : float;
  totalTokens : float;
  cost : float
}.
End Daily.

Module Model.
Record t : Type := mk {
  model : string;
  provider : string;
  calls : float;
  inputTokens : float;
  outputTokens : float;
  totalTokens : float;
  cost : float
}.
End Model.

(** A [Map] with string keys: the entries in insertion order. *)
Definition Map (V : Type) : Type := list (string * V).

Fixpoint Map_get {V : Type} (m : Map V) (k : string) : option V :=
  match m with
  | [] => None
  | (k', v) :: rest => if k' =? k then Some v else Map_get rest k
  end.

(** [m.set(k, v)]: a present key keeps its place, a new one goes last. *)
Fixpoint Map_set {V : Type} (m : Map V) (k : string) (v : V) : Map V :=
  match m with
  | [] => [(k, v)]
  | (k', v') :: rest =>
      if k' =? k then (k', v) :: rest else (k', v') :: Map_set rest k v
  end.

(** [Array.from(m.values())] *)
Definition Map_values {V : Type} (m : Map V) : list V := map snd m.

Definition Map_keys {V : Type} (m : Map V) : list string := map fst m.

(** The numeric fields one event adds to the accumulators. *)
Record Usage : Type := mkUsage {
  u_input : float;
  u_output : float;
  u_cacheRead : float;
  u_cacheWrite : float;
  u_totalTokens : float;
  u_cost : float
}.

Definition totals0 : Totals.t := Totals.mk 0 0 0 0 0 0 0.

(** Lines 68-74. *)
Definition add_totals (t : Totals.t) (u : Usage) : Totals.t :=
  Totals.mk (Totals.calls t + 1)
            (Totals.inputTokens t + u_input u)
            (Totals.outputTokens t + u_output u)
            (Totals.cacheRead t + u_cacheRead u)
            (Totals.cacheWrite t + u_cacheWrite u)
            (Totals.totalTokens t + u_totalTokens u)
            (Totals.cost t + u_cost u).

Definition day0 (date : string) : Daily.t := Daily.mk date 0 0 0 0 0.

(** Lines 84-88. *)
Definition add_day (d : Daily.t) (u : Usage) : Daily.t :=
  Daily.mk (Daily.date d)
           (Daily.calls d + 1)
           (Daily.inputTokens d + u_input u)
           (Daily.outputTokens d + u_output u)
           (Daily.totalTokens d + u_totalTokens u)
           (Daily.cost d + u_cost u).

Definition model0 (model provider : string) : Model.t :=
  Model.mk model provider 0 0 0 0 0.

(** Lines 100-104. *)
Definition add_model (m : Model.t) (u : Usage) : Model.t :=
  Model.mk (Model.model m) (Model.provider m)
           (Model.calls m + 1)
           (Model.inputTokens m + u_input u)
           (Model.outputTokens m + u_output u)
           (Model.totalTokens m + u_totalTokens u)
           (Model.cost m + u_cost u).

(** The state of the loop of lines 56-107; [ticks] counts the readings of
    the clock so far. *)
Record State : Type := mkState {
  totals : Totals.t;
  byDay : Map Daily.t;
  byModel : Map Model.t;
  ticks : nat
}.

Definition state0 : State := mkState totals0 [] [] 0.

(** The document of lines 109-115. *)
Record Payload : Type := mkPayload {
  generatedAt : string;
  source : string;
  p_totals : Totals.t;
  daily : list Daily.t;
  models : list Model.t
}.

(** ** Sorting *)

(** [SortCompare]: the comparator's number, a NaN read as [+0]; [true] when
    the number is positive, that is when [x] is to stand after [y]. *)
Definition sorts_after {A : Type} (comparefn : A -> A -> float) (x y : A) : bool :=
  (0 <? comparefn x y)%float.

(** [Array.prototype.sort(comparefn)].  ECMAScript fixes the result, not the
    algorithm: for a consistent comparator it is the one stable sorted
    arrangement, which this insertion sort computes. *)
Fixpoint insert {A : Type} (comparefn : A -> A -> float) (x : A) (l : list A) : list A :=
  match l with
  | [] => [x]
  | y :: rest =>
      if sorts_after comparefn x y then y :: insert comparefn x rest
      else x :: y :: rest
  end.

Fixpoint sort {A : Type} (comparefn : A -> A -> float) (l : list A) : list A :=
  match l with
  | [] => []
  | x :: rest => insert comparefn x (sort comparefn rest)
  end.

(** [(a, b) => b.cost - a.cost] *)
Definition by_cost_desc (a b : Model.t) : float :=
  (Model.cost b - Model.cost a)%float.

(** ** The builtins *)

(** The builtins the script calls and does not define. *)
Class Builtins : Type := {
  (** [JSON.parse]: [None] when it throws a SyntaxError. *)
  JSON_parse : string -> option json;
  (** StringToNumber, the conversion [Number] applies to a string. *)
  StringToNumber : string -> float;
  (** Number::toString, the conversion [String] applies to a number. *)
  NumberToString : float -> string;
  (** [a.localeCompare(b)]: negative, zero or positive. *)
  localeCompare : string -> string -> float
}.

(** ** The script *)

Section Script.

Context {js : Builtins}.

(** ToString of a value [JSON.parse] made.  An array joins its elements
    with commas, [null] elements as the empty string.  An object answers
    [[object Object]] through [Object.prototype.toString]; an own member
    named [toString] hides that method and, being no function, leaves the
    conversion with a TypeError. *)
Fixpoint ToString (v : json) : result string :=
  match v with
  | JNull => Ok "null"
  | JBool true => Ok "true"
  | JBool false => Ok "false"
  | JNum x => Ok (NumberToString x)
  | JStr s => Ok s
  | JArr items =>
      let piece (x : json) : result string :=
        match x with
        | JNull => Ok ""
        | _ => ToString x
        end in
      (fix join (l : list json) : result string :=
         match l with
         | [] => Ok ""
         | [x] => piece x
         | x :: rest => a <- piece x ;; b <- join rest ;; Ok (a ++ "," ++ b)%string
         end) items
  | JObj members =>
      if has_key "toString" members then Throw TypeError
      else Ok "[object Object]"
  end.

(** ToNumber of a value [JSON.parse] made.  An array or an object is first
    made a string (its [valueOf] returns the object itself); the string of
    an object, [[object Object]], is no numeric literal. *)
Definition ToNumber (v : json) : result float :=
  match v with
  | JNull => Ok 0%float
  | JBool true => Ok 1%float
  | JBool false => Ok 0%float
  | JNum x => Ok x
  | JStr s => Ok (StringToNumber s)
  | JArr _ => s <- ToString v ;; Ok (StringToNumber s)
  | JObj members =>
      if has_key "toString" members then Throw TypeError
      else Ok nan
  end.

(** [Number(v)] *)
Definition Number (v : value) : result float :=
  match v with
  | None => Ok nan
  | Some j => ToNumber j
  end.

(** [String(v)] *)
Definition String_ (v : value) : result string :=
  match v with
  | None => Ok "undefined"
  | Some j => ToString j
  end.

(** [Number(o.k || 0)], the coercion of lines 69-74. *)
Definition coerce (o : value) (k : string) : result float :=
  v <- prop o k ;; Number (or_else v (Some (JNum 0%float))).

(** The six numbers lines 69-74 read off [usage]; lines 85-88 and 101-104
    evaluate the same expressions again, to the same numbers. *)
Definition read_usage (usage : value) : result Usage :=
  input <- coerce usage "input" ;;
  output <- coerce usage "output" ;;
  cacheRead <- coerce usage "cacheRead" ;;
  cacheWrite <- coerce usage "cacheWrite" ;;
  totalTokens <- coerce usage "totalTokens" ;;
  cost <- prop usage "cost" ;;
  total <- coerce cost "total" ;;
  Ok (mkUsage input output cacheRead cacheWrite totalTokens total).

(** Lines 59-61: [msg?.usage] of [event?.message]. *)
Definition usage_of (event : json) : value :=
  optprop (optprop (Some event) "message") "usage".

(** Line 61: the event passes [if (!usage || !usage.cost) continue]. *)
Definition included (event : json) : bool :=
  let usage := usage_of event in
  truthy usage
  && match prop usage "cost" with
     | Ok cost => truthy cost
     | Throw _ => false
     end.

(** Line 63: [event.timestamp || msg.timestamp || new Date().toISOString()],
    with the number of clock readings after it. *)
Definition resolve_ts (now : nat -> string) (n : nat) (event : json)
  : result (value * nat) :=
  let msg := optprop (Some event) "message" in
  t1 <- prop (Some event) "timestamp" ;;
  if truthy t1 then Ok (t1, n)
  else
    t2 <- prop msg "timestamp" ;;
    if truthy t2 then Ok (t2, n)
    else Ok (Some (JStr (now n)), S n).

(** Line 65: [msg.model || msg.modelId || 'unknown']. *)
Definition resolve_model (event : json) : result value :=
  let msg := optprop (Some event) "message" in
  m1 <- prop msg "model" ;;
  if truthy m1 then Ok m1
  else
    m2 <- prop msg "modelId" ;;
    if truthy m2 then Ok m2
    else Ok (Some (JStr "unknown")).

(** Lines 76-89. *)
Definition update_day (m : Map Daily.t) (date : string) (u : Usage) : Map Daily.t :=
  let day := match Map_get m date with
             | Some d => d
             | None => day0 date
             end in
  Map_set m date (add_day day u).

(** Lines 91-105. *)
Definition update_model (m : Map Model.t) (model provider : string) (u : Usage)
  : Map Model.t :=
  let modelAgg := match Map_get m model with
                  | Some a => a
                  | None => model0 model provider
                  end in
  Map_set m model (add_model modelAgg u).

(** One turn of the inner loop, lines 58-106. *)
Definition process (now : nat -> string) (st : State) (event : json) : result State :=
  if negb (included event) then Ok st
  else
    let usage := usage_of event in
    r <- resolve_ts now (ticks st) event ;;
    let '(ts, n) := r in
    s <- String_ ts ;;
    let date := slice_0_10 s in
    model <- resolve_model event ;;
    provider <- call_providerFromModel model ;;
    match model with
    | Some (JStr model) =>
        u <- read_usage usage ;;
        Ok (mkState (add_totals (totals st) u)
                    (update_day (byDay st) date u)
                    (update_model (byModel st) model provider u)
                    n)
    | _ => Throw TypeError
    end.

Fixpoint process_all (now : nat -> string) (st : State) (events : list json)
  : result State :=
  match events with
  | [] => Ok st
  | event :: rest => st' <- process now st event ;; process_all now st' rest
  end.

(** Lines 7-20, on the lines of the file: the rows, in order. *)
Fixpoint read_lines (lines : list string) : list json :=
  match lines with
  | [] => []
  | line :: rest =>
      let trimmed := trim line in
      if trimmed =? "" then read_lines rest
      else match JSON_parse trimmed with
           | Some row => row :: read_lines rest
           | None => read_lines rest
           end
  end.

(** The arguments [JSON.parse] is called with, in order. *)
Fixpoint parse_attempts (lines : list string) : list string :=
  match lines with
  | [] => []
  | line :: rest =>
      let trimmed := trim line in
      if trimmed =? "" then parse_attempts rest
      else trimmed :: parse_attempts rest
  end.

(** [readJsonl(filePath)] on the text [fs.readFileSync(filePath, 'utf8')]
    returned. *)
Definition readJsonl (text : string) : list json :=
  read_lines (split newline text).

(** What the run finds around it.  A sessions path that exists is taken to
    be a directory that can be listed. *)
Record World : Type := mkWorld {
  (** [fs.readdirSync(sessionsDir)]; [None] when [fs.existsSync] says no. *)
  readdirSync : option (list string);
  (** [fs.readFileSync(path, 'utf8')] *)
  readFileSync : string -> result string;
  (** the clock *)
  now : nat -> string;
  (** the document at [public/metrics.json], if any *)
  published : option Payload
}.

Definition sessionsDir : string := "/home/naimur/.openclaw/agents/main/sessions".

(** [path.join(sessionsDir, f)] for an entry name [f] of the directory. *)
Definition path_join (dir f : string) : string := (dir ++ "/" ++ f)%string.

(** Lines 31-36. *)
Definition files (w : World) : list string :=
  match readdirSync w with
  | Some names =>
      map (fun f => path_join sessionsDir f)
          (filter (fun f => endsWith f ".jsonl") names)
  | None => []
  end.

(** The outer loop, lines 56-107. *)
Fixpoint aggregate (w : World) (st : State) (paths : list string) : result State :=
  match paths with
  | [] => Ok st
  | filePath :: rest =>
      text <- readFileSync w filePath ;;
      st' <- process_all (now w) st (readJsonl text) ;;
      aggregate w st' rest
  end.

(** Lines 109-115. *)
Definition payload (w : World) (st : State) : Payload :=
  mkPayload (now w (ticks st))
            "openclaw session jsonl usage records"
            (totals st)
            (sort (fun a b => localeCompare (Daily.date a) (Daily.date b))
                  (Map_values (byDay st)))
            (sort by_cost_desc (Map_values (byModel st))).

(** How a run ends; the write of line 118 is taken to succeed. *)
Inductive outcome : Type :=
| Exited          (** [process.exit(0)] at line 43: nothing written *)
| Raised (e : exn) (** an uncaught exception: nothing written *)
| Wrote (p : Payload). (** line 118 *)

(** The whole script. *)
Definition run (w : World) : outcome :=
  match files w with
  | [] => Exited
  | paths =>
      match aggregate w state0 paths with
      | Ok st => Wrote (payload w st)
      | Throw e => Raised e
      end
  end.

(** The documents the run wrote. *)
Definition emitted (o : outcome) : list Payload :=
  match o with
  | Wrote p => [p]
  | _ => []
  end.

(** The document at [public/metrics.json] after the run. *)
Definition published_after (w : World) : option Payload :=
  match run w with
  | Wrote p => Some p
  | _ => published w
  end.

End Script.

(** ** Vocabulary of the properties *)

(** The sum the script forms: from [0], adding the terms in the order the
    events are processed. *)
Definition fsum (terms : list float) : float :=
  fold_left PrimFloat.add terms 0%float.

(** The counter after [n] increments by one (lines 68, 84 and 100):
    [0], [0 + 1], [0 + 1 + 1], ... *)
Definition count (n : nat) : float :=
  Nat.iter n (fun x => (x + 1)%float) 0%float.

(** The whole number a double is, when it is one. *)
Definition whole_number (x : float) : option Z :=
  match Prim2SF x with
  | S754_zero _ => Some 0%Z
  | S754_finite s m e =>
      let v := if s then Zneg m else Zpos m in
      if (0 <=? e)%Z then Some (v * 2 ^ e)%Z
      else if (v mod 2 ^ (- e) =? 0)%Z then Some (v / 2 ^ (- e))%Z
      else None
  | _ => None
  end.

(** The double of the whole number [n], for [n] under 2^53: the digits of
    [n] moved to the left until they are 53. *)
Definition whole (n : positive) : spec_float :=
  let d := Zpos (digits2_pos n) in
  S754_finite false (Z.to_pos (Zpos n * 2 ^ (53 - d))) (d - 53)%Z.

(** Lines joined by line feeds, the inverse of [split newline]. *)
Definition unlines (lines : list string) : string :=
  String.concat (String newline EmptyString) lines.

(** [c] is one of the code units of [s]. *)
Fixpoint mentions (c : ascii) (s : string) : bool :=
  match s with
  | EmptyString => false
  | String d s' => Ascii.eqb d c || mentions c s'
  end.


(** An event that carries a [usage] object holding a [cost] object, read
    where the script reads them, under [message]. *)
Definition carries_usage_and_cost (event : json) : bool :=
  match usage_of event with
  | Some (JObj members) =>
      match lookup "cost" members with
      | Some (JObj _) => true
      | _ => false
      end
  | _ => false
  end.

(** An event that has a [usage] with a [cost] member, whatever the member
    holds. *)
Definition has_usage_and_cost (event : json) : bool :=
  match usage_of event with
  | Some usage =>
      match get usage "cost" with
      | Some _ => true
      | None => false
      end
  | None => false
  end.

(** A value that is no number. *)
Definition non_numeric (v : value) : Prop := forall x, v <> Some (JNum x).

(** The two payloads differ in [generatedAt] at most. *)
Definition same_but_generatedAt (p1 p2 : Payload) : Prop :=
  source p1 = source p2
  /\ p_totals p1 = p_totals p2
  /\ daily p1 = daily p2
  /\ models p1 = models p2.

(** The two worlds hold the same logs. *)
Definition same_logs (w1 w2 : World) : Prop :=
  readdirSync w1 = readdirSync w2
  /\ forall p, readFileSync w1 p = readFileSync w2 p.

(** The event has a truthy timestamp of its own. *)
Definition dated (event : json) : bool :=
  truthy (get event "timestamp")
  || truthy (optprop (optprop (Some event) "message") "timestamp").

(** [b] costs no more than [a]. *)
Definition cost_ge (a b : Model.t) : Prop :=
  (Model.cost b <=? Model.cost a)%float = true.

(** Every entry of the rollup names its key. *)
Definition keyed {V : Type} (name : V -> string) (m : Map V) : Prop :=
  Forall (fun kv => name (snd kv) = fst kv) m.


(** The keys in the order of their first occurrence. *)
Definition add_key (seen : list string) (k : string) : list string :=
  if existsb (fun k' => k' =? k) seen then seen else seen ++ [k].

Definition first_seen (keys : list string) : list string :=
  fold_left add_key keys [].

(** The models of the aggregated events, one per event, in order. *)
Definition models_seen (events : list json) : list string :=
  flat_map (fun e => if included e
                     then match resolve_model e with
                          | Ok (Some (JStr m)) => [m]
                          | _ => []
                          end
                     else []) events.

Section Vocabulary.

Context {js : Builtins}.

(** The rows of all the logs, in the order the run meets them. *)
Definition events_of (w : World) : list json :=
  flat_map (fun p => match readFileSync w p with
                     | Ok text => readJsonl text
                     | Throw _ => []
                     end) (files w).

(** The readings of the clock the loop of a completed run took. *)
Definition clock_reads (w : World) : nat :=
  match aggregate w state0 (files w) with
  | Ok st => ticks st
  | Throw _ => 0
  end.

(** A line [readJsonl] turns into a row: not blank, and parsed with success. *)
Definition well_formed (line : string) : bool :=
  negb (trim line =? "")
  && match JSON_parse (trim line) with
     | Some _ => true
     | None => false
     end.

(** The text without its blank and malformed lines. *)
Definition keep_well_formed (text : string) : string :=
  unlines (filter well_formed (split newline text)).

(** The world whose logs have lost their blank and malformed lines. *)
Definition scrub (w : World) : World :=
  mkWorld (readdirSync w)
          (fun p => text <- readFileSync w p ;; Ok (keep_well_formed text))
          (now w) (published w).

End Vocabulary.

(** ** The loop, entry by entry *)

(** What lines 63-74 work out for an aggregated event: its day, its model
    and its six numbers. *)
Record Entry : Type := mkEntry {
  e_date : string;
  e_model : string;
  e_usage : Usage
}.

Section Entries.

Context {js : Builtins}.

(** Lines 63-74 for an event that passed line 61, after [n] readings of the
    clock: the entry, and the number of readings then. *)
Definition entry_of (now : nat -> string) (n : nat) (event : json)
  : result (Entry * nat) :=
  r <- resolve_ts now n event ;;
  s <- String_ (fst r) ;;
  model <- resolve_model event ;;
  match model with
  | Some (JStr m) =>
      u <- read_usage (usage_of event) ;;
      Ok (mkEntry (slice_0_10 s) m u, snd r)
  | _ => Throw TypeError
  end.

(** The entries of the events that pass line 61, in order, and the number
    of readings of the clock at the end. *)
Fixpoint entries (now : nat -> string) (n : nat) (events : list json)
  : result (list Entry * nat) :=
  match events with
  | [] => Ok ([], n)
  | event :: rest =>
      if included event then
        x <- entry_of now n event ;;
        y <- entries now (snd x) rest ;;
        Ok (fst x :: fst y, snd y)
      else entries now n rest
  end.

End Entries.

(** Lines 76-89 and 91-105 over a list of entries: every entry is added to
    the row of its key, a row that starts from [zero]. *)
Definition rollup {V : Type} (zero : string -> V) (add : V -> Usage -> V)
  (key : Entry -> string) (es : list Entry) (m : Map V) : Map V :=
  fold_left (fun m e =>
               Map_set m (key e)
                       (add (match Map_get m (key e) with
                             | Some v => v
                             | None => zero (key e)
                             end) (e_usage e)))
            es m.

(** The accumulators after the entries [es] and [n] readings of the clock. *)
Definition state_after (st : State) (es : list Entry) (n : nat) : State :=
  mkState (fold_left add_totals (map e_usage es) (totals st))
          (rollup day0 add_day e_date es (byDay st))
          (rollup (fun m => model0 m (providerFromModel m)) add_model e_model es
                  (byModel st))
          n.

(** The numbers of the entries of day [d], and of those of model [m], in
    order. *)
Definition on_day (d : string) (es : list Entry) : list Usage :=
  map e_usage (filter (fun e => e_date e =? d) es).

Definition of_model (m : string) (es : list Entry) : list Usage :=
  map e_usage (filter (fun e => e_model e =? m) es).

(** The row of a day, and of a model, that the numbers [us] were added to,
    one after the other. *)
Definition day_row (d : string) (us : list Usage) : Daily.t :=
  Daily.mk d (count (length us))
           (fsum (map u_input us)) (fsum (map u_output us))
           (fsum (map u_totalTokens us)) (fsum (map u_cost us)).

Definition model_row (m : string) (us : list Usage) : Model.t :=
  Model.mk m (providerFromModel m) (count (length us))
           (fsum (map u_input us)) (fsum (map u_output us))
           (fsum (map u_totalTokens us)) (fsum (map u_cost us)).

(** An aggregated event that has no timestamp of its own. *)
Definition undated (event : json) : bool :=
  included event && negb (dated event).

Definition carriage_return : ascii := ascii_of_nat 13.

(** The text with a carriage return put before every line feed. *)
Fixpoint crlf (s : string) : string :=
  match s with
  | EmptyString => EmptyString
  | String c s' =>
      if Ascii.eqb c newline
      then String carriage_return (String newline (crlf s'))
      else String c (crlf s')
  end.

(** A value that is neither an array nor an object. *)
Definition scalar (v : value) : bool :=
  match v with
  | Some (JArr _) | Some (JObj _) => false
  | _ => true
  end.

(** An event whose timestamps and numbers are scalars and whose model is a
    string. *)
Definition plain (event : json) : bool :=
  let msg := optprop (Some event) "message" in
  let usage := usage_of event in
  scalar (optprop (Some event) "timestamp")
  && scalar (optprop msg "timestamp")
  && match resolve_model event with
     | Ok (Some (JStr _)) => true
     | _ => false
     end
  && forallb (fun k => scalar (optprop usage k))
             ["input"; "output"; "cacheRead"; "cacheWrite"; "totalTokens"]
  && scalar (optprop (optprop usage "cost") "total").

(** The sum a grouping by [key] forms for the key [k]: from [0], the [val]
    of every row of that key, in order. *)
Definition group_sum {A : Type} (key : A -> string) (val : A -> float)
  (k : string) (rows : list A) : float :=
  fsum (map val (filter (fun r => key r =? k) rows)).

(** Every number of the payload is finite.  [JSON.stringify] writes a
    finite number as a number, which the page reads back as it was (the
    negative zero as zero); it writes a NaN or an infinity as [null]. *)
Definition finite_numbers (p : Payload) : bool :=
  let t := p_totals p in
  forallb is_finite
          [Totals.calls t; Totals.inputTokens t; Totals.outputTokens t;
           Totals.cacheRead t; Totals.cacheWrite t; Totals.totalTokens t;
           Totals.cost t]
  && forallb (fun d => forallb is_finite
                               [Daily.calls d; Daily.inputTokens d;
                                Daily.outputTokens d; Daily.totalTokens d;
                                Daily.cost d])
             (daily p)
  && forallb (fun m => forallb is_finite
                               [Model.calls m; Model.inputTokens m;
                                Model.outputTokens m; Model.totalTokens m;
                                Model.cost m])
             (models p).

(** ** Sample logs

    Some log lines, the values they parse to, and what the builtins answer
    on them: [JSON_parse] and [StringToNumber] are tables, right on their
    entries, and [NumberToString] is right on NaN and on zero.  The samples
    apply the builtins to nothing else. *)

Module Sample.

Definition dq : string := String (ascii_of_nat 34) EmptyString.

(** A JSON string literal without escapes. *)
Definition q (s : string) : string := (dq ++ s ++ dq)%string.

Definition usage_json (input output totalTokens cost : string) : string :=
  ("{" ++ q "input" ++ ":" ++ input ++ "," ++ q "output" ++ ":" ++ output ++ ","
   ++ q "totalTokens" ++ ":" ++ totalTokens ++ ","
   ++ q "cost" ++ ":{" ++ q "total" ++ ":" ++ cost ++ "}}")%string.

Definition usage_value (input output totalTokens cost : float) : json :=
  JObj [("input", JNum input); ("output", JNum output);
        ("totalTokens", JNum totalTokens);
        ("cost", JObj [("total", JNum cost)])].

(** A call of [anthropic/claude-3] on 2026-02-20 that cost 1.5. *)
Definition line_claude : string :=
  ("{" ++ q "timestamp" ++ ":" ++ q "2026-02-20T10:00:00.000Z" ++ ","
   ++ q "message" ++ ":{" ++ q "model" ++ ":" ++ q "anthropic/claude-3" ++ ","
   ++ q "usage" ++ ":" ++ usage_json "100" "20" "120" "1.5" ++ "}}")%string.

Definition event_claude : json :=
  JObj [("timestamp", JStr "2026-02-20T10:00:00.000Z");
        ("message", JObj [("model", JStr "anthropic/claude-3");
                          ("usage", usage_value 100 20 120 1.5)])].

(** A call of [openai/gpt-4] on the same day that cost 2.25. *)
Definition line_gpt : string :=
  ("{" ++ q "timestamp" ++ ":" ++ q "2026-02-20T11:30:00.000Z" ++ ","
   ++ q "message" ++ ":{" ++ q "model" ++ ":" ++ q "openai/gpt-4" ++ ","
   ++ q "usage" ++ ":" ++ usage_json "300" "50" "350" "2.25" ++ "}}")%string.

Definition event_gpt : json :=
  JObj [("timestamp", JStr "2026-02-20T11:30:00.000Z");
        ("message", JObj [("model", JStr "openai/gpt-4");
                          ("usage", usage_value 300 50 350 2.25)])].

(** A call that names its model under [modelId] and has no timestamp. *)
Definition line_bare : string :=
  ("{" ++ q "message" ++ ":{" ++ q "modelId" ++ ":" ++ q "google/gemini" ++ ","
   ++ q "usage" ++ ":" ++ usage_json "7" "1" "8" "0.25" ++ "}}")%string.

Definition event_bare : json :=
  JObj [("message", JObj [("modelId", JStr "google/gemini");
                          ("usage", usage_value 7 1 8 0.25)])].

(** A call whose [cost] is a number, not an object. *)
Definition event_flat_cost : json :=
  JObj [("timestamp", JStr "2026-02-20T12:00:00.000Z");
        ("message", JObj [("model", JStr "xai/grok");
                          ("usage", JObj [("input", JNum 5); ("cost", JNum 2)])])].

(** A call whose [cost] is the number zero. *)
Definition event_zero_cost : json :=
  JObj [("timestamp", JStr "2026-02-20T12:30:00.000Z");
        ("message", JObj [("model", JStr "xai/grok");
                          ("usage", JObj [("input", JNum 5); ("cost", JNum 0)])])].

(** A call whose [input] is an object, not a number. *)
Definition event_object_input : json :=
  JObj [("timestamp", JStr "2026-02-20T13:00:00.000Z");
        ("message", JObj [("model", JStr "xai/grok");
                          ("usage", JObj [("input", JObj []);
                                          ("cost", JObj [("total", JNum 1)])])])].

(** A call whose [cost.total] is an object, not a number. *)
Definition line_object_total : string :=
  ("{" ++ q "timestamp" ++ ":" ++ q "2026-02-20T14:00:00.000Z" ++ ","
   ++ q "message" ++ ":{" ++ q "model" ++ ":" ++ q "xai/grok" ++ ","
   ++ q "usage" ++ ":{" ++ q "cost" ++ ":{" ++ q "total" ++ ":{}}}}}")%string.

Definition event_object_total : json :=
  JObj [("timestamp", JStr "2026-02-20T14:00:00.000Z");
        ("message", JObj [("model", JStr "xai/grok");
                          ("usage", JObj [("cost", JObj [("total", JObj [])])])])].

(** Two calls whose timestamps are the one-letter strings [a] and [B]. *)
Definition line_letter (ts : string) : string :=
  ("{" ++ q "timestamp" ++ ":" ++ q ts ++ ","
   ++ q "message" ++ ":{" ++ q "model" ++ ":" ++ q "openai/gpt-4" ++ ","
   ++ q "usage" ++ ":{" ++ q "cost" ++ ":{" ++ q "total" ++ ":1}}}}")%string.

Definition event_letter (ts : string) : json :=
  JObj [("timestamp", JStr ts);
        ("message", JObj [("model", JStr "openai/gpt-4");
                          ("usage", JObj [("cost", JObj [("total", JNum 1)])])])].

(** A line cut short by a crash in the middle of a write. *)
Definition line_torn : string := ("{" ++ q "timestamp" ++ ":" ++ dq ++ "2026-02")%string.

Fixpoint table {V : Type} (entries : list (string * V)) (default : V) (k : string) : V :=
  match entries with
  | [] => default
  | (k', v) :: rest => if k' =? k then v else table rest default k
  end.

(** The order of the code units, which is how [localeCompare] orders strings
    of digits and hyphens. *)
Definition compare_code_units (a b : string) : float :=
  match String.compare a b with
  | Lt => (-1)%float
  | Eq => 0%float
  | Gt => 1%float
  end.

Definition builtins : Builtins := {|
  JSON_parse :=
    table [(line_claude, Some event_claude); (line_gpt, Some event_gpt);
           (line_bare, Some event_bare);
           (line_object_total, Some event_object_total);
           (line_letter "a", Some (event_letter "a"));
           (line_letter "B", Some (event_letter "B"));
           (line_torn, None)] None;
  StringToNumber := table [("", 0%float)] nan;
  NumberToString := fun x => if is_nan x then "NaN" else "0";
  localeCompare := compare_code_units
|}.


Definition path (f : string) : string := path_join sessionsDir f.

(** A sessions directory with one log of [lines] and a file that is no log. *)
Definition world (lines : list string) (clock : nat -> string)
  (before : option Payload) : World :=
  mkWorld (Some ["notes.txt"; "a.jsonl"])
          (fun p => if p =? path "a.jsonl"
                    then Ok (unlines lines)
                    else Throw IOError)
          clock before.

(** A sessions directory that exists and holds no log. *)
Definition world_without_logs (before : option Payload) : World :=
  mkWorld (Some ["notes.txt"]) (fun _ => Throw IOError)
          (fun _ => "2026-02-21T08:00:00.000Z") before.

Definition clock_feb21 (i : nat) : string := "2026-02-21T08:00:00.000Z".
Definition clock_feb22 (i : nat) : string := "2026-02-22T08:00:00.000Z".

End Sample.

(** * The dashboard ([App], the two versions of it in [unnamed/part_000]) *)

(** ** The page that shows the payload (lines 232-426) *)

Module Dashboard.

(** Line 282: the colours of the pie. *)
Definition colors : list string :=
  ["#38bdf8"; "#a78bfa"; "#10b981"; "#fb7185"; "#f59e0b"; "#22d3ee"; "#f97316"].

(** Lines 308-314, [providerMix]: the costs of [data?.models ?? []] grouped
    by provider in a [Map], then its entries as [name] and [value]. *)
Definition providerMix (data : option Payload) : list (string * float) :=
  let rows := match data with
              | Some d => models d
              | None => []
              end in
  fold_left (fun grouped row =>
               Map_set grouped (Model.provider row)
                       (match Map_get grouped (Model.provider row) with
                        | Some v => v
                        | None => 0%float
                        end + Model.cost row)%float)
            rows [].

(** Line 375, [colors[i % colors.length]]: the fill of slice [i]; [None] is
    [undefined]. *)
Definition fill (i : nat) : option string :=
  nth_error colors (i mod length colors).

(** Line 398, [data.models.slice(0, 20)]: the rows of the table. *)
Definition table_rows (data : Payload) : list Model.t := firstn 20 (models data).

End Dashboard.

(** ** The page of rows entered by hand (lines 1-231) *)

Module Tracker.

(** Lines 16-25. *)
Module Metric.
Record t : Type := mk {
  id : string;
  date : string;
  provider : string;
  endpoint : string;
  calls : float;
  inputTokens : float;
  outputTokens : float;
  cost : float
}.
End Metric.

(** [Omit<Metric, 'id'>], the state of the form (lines 64-72). *)
Module Form.
Record t : Type := mk {
  date : string;
  provider : string;
  endpoint : string;
  calls : float;
  inputTokens : float;
  outputTokens : float;
  cost : float
}.
End Form.

(** The accumulator of line 83. *)
Module Sums.
Record t : Type := mk {
  calls : float;
  inputTokens : float;
  outputTokens : float;
  cost : float
}.
End Sums.

(** Lines 74-85, [totals]. *)
Definition totals (metrics : list Metric.t) : Sums.t :=
  fold_left (fun acc row =>
               Sums.mk (Sums.calls acc + Metric.calls row)
                       (Sums.inputTokens acc + Metric.inputTokens row)
                       (Sums.outputTokens acc + Metric.outputTokens row)
                       (Sums.cost acc + Metric.cost row))
            metrics (Sums.mk 0 0 0 0).

(** Lines 97-101, [providerMix]. *)
Definition providerMix (metrics : list Metric.t) : list (string * float) :=
  fold_left (fun grouped m =>
               Map_set grouped (Metric.provider m)
                       (match Map_get grouped (Metric.provider m) with
                        | Some v => v
                        | None => 0%float
                        end + Metric.cost m)%float)
            metrics [].

(** [{ id: crypto.randomUUID(), ...form }], [uuid] being what
    [crypto.randomUUID()] returned. *)
Definition row_of (uuid : string) (form : Form.t) : Metric.t :=
  Metric.mk uuid (Form.date form) (Form.provider form) (Form.endpoint form)
            (Form.calls form) (Form.inputTokens form) (Form.outputTokens form)
            (Form.cost form).

(** Lines 103-105: the update [addRow] hands to [setMetrics]. *)
Definition addRow (uuid : string) (form : Form.t) (prev : list Metric.t)
  : list Metric.t :=
  prev ++ [row_of uuid form].

(** Line 107: the update [removeRow(id)] hands to [setMetrics]. *)
Definition removeRow (id : string) (prev : list Metric.t) : list Metric.t :=
  filter (fun m => negb (Metric.id m =? id)) prev.

(** Lines 171-174, [Number(v) || 0]: what a number field of the form keeps
    of the text [v] typed into it. *)
Definition number_field {js : Builtins} (v : string) : float :=
  let x := StringToNumber v in
  if truthy (Some (JNum x)) then x else 0%float.

End Tracker.

(** ** More sample logs and rows *)

Module Cases.

(** A call that gives the number 5 for its model. *)
Definition line_numeric_model : string :=
  ("{" ++ Sample.q "timestamp" ++ ":" ++ Sample.q "2026-02-20T15:00:00.000Z" ++ ","
   ++ Sample.q "message" ++ ":{" ++ Sample.q "model" ++ ":5,"
   ++ Sample.q "usage" ++ ":{" ++ Sample.q "cost" ++ ":{"
   ++ Sample.q "total" ++ ":1}}}}")%string.

Definition event_numeric_model : json :=
  JObj [("timestamp", JStr "2026-02-20T15:00:00.000Z");
        ("message", JObj [("model", JNum 5);
                          ("usage", JObj [("cost", JObj [("total", JNum 1)])])])].

(** The builtins of the samples, with that line parsed too. *)
Definition builtins : Builtins := {|
  JSON_parse := fun s =>
    if s =? line_numeric_model then Some event_numeric_model
    else @JSON_parse Sample.builtins s;
  StringToNumber := @StringToNumber Sample.builtins;
  NumberToString := @NumberToString Sample.builtins;
  localeCompare := @localeCompare Sample.builtins
|}.

(** A sessions directory with two logs, [a.jsonl] of the lines [first] and
    [b.jsonl] of the lines [second]. *)
Definition two_logs (first second : list string) (clock : nat -> string)
  : World :=
  mkWorld (Some ["a.jsonl"; "b.jsonl"])
          (fun p => if p =? Sample.path "a.jsonl" then Ok (unlines first)
                    else if p =? Sample.path "b.jsonl" then Ok (unlines second)
                    else Throw IOError)
          clock None.

(** The same directory when [b.jsonl] cannot be read. *)
Definition second_log_unreadable (first : list string) (before : option Payload)
  : World :=
  mkWorld (Some ["a.jsonl"; "b.jsonl"])
          (fun p => if p =? Sample.path "a.jsonl" then Ok (unlines first)
                    else Throw IOError)
          Sample.clock_feb21 before.

(** Twenty-one models, each with the text and the value of what its one
    call cost. *)
Definition priced_models : list (string * (string * float)) :=
    [("m/01", ("1", 1%float));
     ("m/02", ("2", 2%float));
     ("m/03", ("3", 3%float));
     ("m/04", ("4", 4%float));
     ("m/05", ("5", 5%float));
     ("m/06", ("6", 6%float));
     ("m/07", ("7", 7%float));
     ("m/08", ("8", 8%float));
     ("m/09", ("9", 9%float));
     ("m/10", ("10", 10%float));
     ("m/11", ("11", 11%float));
     ("m/12", ("12", 12%float));
     ("m/13", ("13", 13%float));
     ("m/14", ("14", 14%float));
     ("m/15", ("15", 15%float));
     ("m/16", ("16", 16%float));
     ("m/17", ("17", 17%float));
     ("m/18", ("18", 18%float));
     ("m/19", ("19", 19%float));
     ("m/20", ("20", 20%float));
     ("m/21", ("21", 21%float))].

Definition line_priced (model cost : string) : string :=
  ("{" ++ Sample.q "timestamp" ++ ":" ++ Sample.q "2026-02-20T16:00:00.000Z" ++ ","
   ++ Sample.q "message" ++ ":{" ++ Sample.q "model" ++ ":" ++ Sample.q model ++ ","
   ++ Sample.q "usage" ++ ":{" ++ Sample.q "cost" ++ ":{"
   ++ Sample.q "total" ++ ":" ++ cost ++ "}}}}")%string.

Definition event_priced (model : string) (cost : float) : json :=
  JObj [("timestamp", JStr "2026-02-20T16:00:00.000Z");
        ("message", JObj [("model", JStr model);
                          ("usage", JObj [("cost", JObj [("total", JNum cost)])])])].

(** The builtins that parse the lines of those calls, and that convert the
    texts [5] and [-0] typed into a number field. *)
Definition pricing : Builtins := {|
  JSON_parse :=
    Sample.table
      (map (fun x => (line_priced (fst x) (fst (snd x)),
                      Some (event_priced (fst x) (snd (snd x)))))
           priced_models)
      None;
  StringToNumber := Sample.table [("", 0%float); ("5", 5%float); ("-0", (-0)%float)] nan;
  NumberToString := @NumberToString Sample.builtins;
  localeCompare := @localeCompare Sample.builtins
|}.

(** A log of the twenty-one calls, the cheapest first. *)
Definition priced_log : World :=
  Sample.world (map (fun x => line_priced (fst x) (fst (snd x))) priced_models)
               Sample.clock_feb21 None.

(** Two rows of the page of hand-entered rows, and a filled form. *)
Definition row_openai : Tracker.Metric.t :=
  Tracker.Metric.mk "id-1" "2026-02-20" "OpenAI" "/v1/chat/completions"
                    24 128400 44200 4.125.

Definition row_anthropic : Tracker.Metric.t :=
  Tracker.Metric.mk "id-2" "2026-02-21" "Anthropic" "/v1/messages"
                    38 168200 67500 9.75.

Definition form : Tracker.Form.t :=
  Tracker.Form.mk "2026-02-22" "OpenAI" "/v1/chat/completions" 1 10 5 0.5.

End Cases.

(** * Properties *)

(** ** The classifier *)

Lemma startsWith_cons (c d : ascii) (s p : string) :
  startsWith (String d s) (String c p) = Ascii.eqb c d && startsWith s p.
Proof. reflexivity. Qed.

Lemma codex_prefix_not_openai (m : string) :
  startsWith m "openai-codex/" = true -> startsWith m "openai/" = false.
Proof.
  intros H.
  do 7 (destruct m as [|? m]; [discriminate H|];
        rewrite startsWith_cons in H |- *;
        match type of H with
        | context [Ascii.eqb ?x ?y] =>
            destruct (Ascii.eqb_spec x y) as [<-|]; [|discriminate H]
        end;
        rewrite ?Ascii.eqb_refl, ?andb_true_l in H |- *).
  reflexivity.
Qed.

(** C4.  [providerFromModel] maps every string to one of the six labels, and
    to the label the rule list of the specification gives with the first
    matching rule, the Codex prefix tried before the plain OpenAI prefix. *)
Theorem providerFromModel_first_match (m : string) :
  providerFromModel m = classify_spec m
  /\ In (providerFromModel m) provider_labels
  /\ NoDup provider_labels.
Proof.
  split; [|split].
  - unfold providerFromModel, classify_spec, classifier_rules, first_match.
    destruct (startsWith m "anthropic/" || includes m "claude"); [reflexivity|].
    destruct (startsWith m "openai-codex/") eqn:Hc.
    + now rewrite (codex_prefix_not_openai m Hc).
    + reflexivity.
  - unfold providerFromModel, provider_labels.
    repeat match goal with
           | |- context [if ?b then _ else _] => destruct b
           end; simpl; tauto.
  - unfold provider_labels.
    repeat constructor; simpl; intuition discriminate.
Qed.

(** ** Maps *)

Lemma Map_get_set_same {V : Type} (m : Map V) (k : string) (v : V) :
  Map_get (Map_set m k v) k = Some v.
Proof.
  induction m as [|[k' v'] m IH]; simpl.
  - now rewrite String.eqb_refl.
  - destruct (k' =? k) eqn:E; simpl; rewrite E; [reflexivity|exact IH].
Qed.

Lemma Map_get_set_other {V : Type} (m : Map V) (k k' : string) (v : V) :
  k <> k' -> Map_get (Map_set m k v) k' = Map_get m k'.
Proof.
  intros Hne. induction m as [|[k0 v0] m IH]; simpl.
  - apply String.eqb_neq in Hne. now rewrite Hne.
  - destruct (k0 =? k) eqn:E; simpl.
    + apply String.eqb_eq in E. subst k0.
      apply String.eqb_neq in Hne. now rewrite Hne.
    + now rewrite IH.
Qed.

(** ** Which events count (lines 59-61) *)

Lemma optprop_Some (o : value) (k : string) (v : json) :
  optprop o k = Some v -> exists j, o = Some j /\ get j k = Some v.
Proof.
  destruct o as [j|]; [|discriminate].
  destruct j; simpl; try discriminate. intros H. eauto.
Qed.

Lemma get_Some_object (j : json) (k : string) (v : json) :
  get j k = Some v -> exists members, j = JObj members.
Proof. destruct j; simpl; try discriminate. eauto. Qed.

Lemma optprop_object (members : list (string * json)) (k : string) :
  optprop (Some (JObj members)) k = get (JObj members) k.
Proof. reflexivity. Qed.

Lemma prop_object (members : list (string * json)) (k : string) :
  prop (Some (JObj members)) k = Ok (get (JObj members) k).
Proof. reflexivity. Qed.

Lemma included_inv (event : json) :
  included event = true ->
  exists msg usage cost,
    get event "message" = Some msg
    /\ get msg "usage" = Some usage
    /\ get usage "cost" = Some cost
    /\ truthy (Some cost) = true.
Proof.
  unfold included, usage_of. intros H.
  apply andb_true_iff in H. destruct H as [Hu Hc].
  destruct (optprop (optprop (Some event) "message") "usage") as [usage|] eqn:E;
    [|discriminate Hu].
  apply optprop_Some in E. destruct E as (msg & Em & Eu).
  apply optprop_Some in Em. destruct Em as (ev & Eev & Em).
  injection Eev as <-.
  exists msg, usage.
  destruct usage; simpl in Hc; try discriminate Hc.
  destruct (lookup "cost" members) as [cost|] eqn:Ecost; [|discriminate Hc].
  exists cost. simpl. rewrite Ecost. auto.
Qed.

Lemma included_intro (event msg usage cost : json) :
  get event "message" = Some msg ->
  get msg "usage" = Some usage ->
  get usage "cost" = Some cost ->
  truthy (Some cost) = true ->
  included event = true.
Proof.
  intros Hm Hu Hc Ht.
  destruct (get_Some_object _ _ _ Hm) as [em ->].
  destruct (get_Some_object _ _ _ Hu) as [mm ->].
  destruct (get_Some_object _ _ _ Hc) as [um ->].
  unfold included, usage_of.
  rewrite optprop_object, Hm, optprop_object, Hu, prop_object, Hc.
  simpl. exact Ht.
Qed.

Section Properties.

Context {js : Builtins}.

Lemma process_excluded (now : nat -> string) (st : State) (event : json) :
  included event = false -> process now st event = Ok st.
Proof. unfold process. now intros ->. Qed.

(** The turn of the loop on an event that passes line 61. *)
Lemma process_included (now : nat -> string) (st : State) (event : json) :
  included event = true ->
  process now st event =
    (r <- resolve_ts now (ticks st) event ;;
     s <- String_ (fst r) ;;
     model <- resolve_model event ;;
     match model with
     | Some (JStr m) =>
         u <- read_usage (usage_of event) ;;
         Ok (mkState (add_totals (totals st) u)
                     (update_day (byDay st) (slice_0_10 s) u)
                     (update_model (byModel st) m (providerFromModel m) u)
                     (snd r))
     | _ => Throw TypeError
     end).
Proof.
  intros H. unfold process. rewrite H. simpl.
  destruct (resolve_ts now (ticks st) event) as [[ts n]|]; simpl; [|reflexivity].
  destruct (String_ ts); simpl; [|reflexivity].
  destruct (resolve_model event) as [model|]; simpl; [|reflexivity].
  destruct model as [[]|]; reflexivity.
Qed.

Lemma process_included_inv (now : nat -> string) (st st' : State) (event : json) :
  included event = true ->
  process now st event = Ok st' ->
  exists ts n s m u,
    resolve_ts now (ticks st) event = Ok (ts, n)
    /\ String_ ts = Ok s
    /\ resolve_model event = Ok (Some (JStr m))
    /\ read_usage (usage_of event) = Ok u
    /\ st' = mkState (add_totals (totals st) u)
                     (update_day (byDay st) (slice_0_10 s) u)
                     (update_model (byModel st) m (providerFromModel m) u)
                     n.
Proof.
  intros Hin. rewrite (process_included _ _ _ Hin).
  destruct (resolve_ts now (ticks st) event) as [[ts n]|]; simpl; [|discriminate].
  destruct (String_ ts) as [s|] eqn:Es; simpl; [|discriminate].
  destruct (resolve_model event) as [model|]; simpl; [|discriminate].
  destruct model as [[| | |m| |]|]; try discriminate.
  destruct (read_usage (usage_of event)) as [u|]; simpl; [|discriminate].
  intros [= <-]. exists ts, n, s, m, u. auto.
Qed.

(** C8.  An event is aggregated exactly when [event.message.usage] is there
    and its [cost] is truthy.  Without [event.message] the event is passed
    over whatever [event.usage] holds, and so is an event whose
    [message.usage.cost] is there and falsy; an event passed over leaves
    every accumulator as it was, and one that is aggregated counts as a
    call. *)
Theorem inclusion_test (event : json) :
  (included event = true <->
   exists msg usage cost,
     get event "message" = Some msg
     /\ get msg "usage" = Some usage
     /\ get usage "cost" = Some cost
     /\ truthy (Some cost) = true)
  /\ (forall top, get event "usage" = Some top ->
                  get event "message" = None -> included event = false)
  /\ (forall msg usage cost,
        get event "message" = Some msg ->
        get msg "usage" = Some usage ->
        get usage "cost" = Some cost ->
        truthy (Some cost) = false -> included event = false)
  /\ (forall now st, included event = false -> process now st event = Ok st)
  /\ (forall now st st',
        included event = true -> process now st event = Ok st' ->
        Totals.calls (totals st') = (Totals.calls (totals st) + 1)%float).
Proof.
  split; [|split; [|split; [|split]]].
  - split.
    + apply included_inv.
    + intros (msg & usage & cost & Hm & Hu & Hc & Ht).
      eapply included_intro; eassumption.
  - intros top _ Hm. destruct (included event) eqn:E; [|reflexivity].
    apply included_inv in E. destruct E as (msg & ? & ? & Hm' & _).
    congruence.
  - intros msg usage cost Hm Hu Hc Ht.
    destruct (included event) eqn:E; [|reflexivity].
    apply included_inv in E.
    destruct E as (msg' & usage' & cost' & Hm' & Hu' & Hc' & Ht').
    congruence.
  - intros. now apply process_excluded.
  - intros now st st' Hin Hp.
    destruct (process_included_inv _ _ _ _ Hin Hp) as (ts & n & s & m & u & _ & _ & _ & _ & ->).
    reflexivity.
Qed.

(** ** Model and date of an event (lines 63-66) *)

Lemma resolve_model_eq (event msg : json) :
  get event "message" = Some msg ->
  msg <> JNull ->
  resolve_model event =
    Ok (if truthy (get msg "model") then get msg "model"
        else if truthy (get msg "modelId") then get msg "modelId"
        else Some (JStr "unknown")).
Proof.
  intros Hm Hnull. unfold resolve_model.
  destruct (get_Some_object _ _ _ Hm) as [em ->].
  rewrite optprop_object, Hm.
  assert (Hp : forall k, prop (Some msg) k = Ok (get msg k))
    by (intros k; destruct msg; try reflexivity; contradiction).
  rewrite !Hp. simpl.
  destruct (truthy (get msg "model")); [reflexivity|].
  simpl. destruct (truthy (get msg "modelId")); reflexivity.
Qed.

Lemma resolve_ts_eq (now : nat -> string) (n : nat) (event msg : json) :
  get event "message" = Some msg ->
  msg <> JNull ->
  resolve_ts now n event =
    Ok (if truthy (get event "timestamp") then (get event "timestamp", n)
        else if truthy (get msg "timestamp") then (get msg "timestamp", n)
        else (Some (JStr (now n)), S n)).
Proof.
  intros Hm Hnull. unfold resolve_ts.
  destruct (get_Some_object _ _ _ Hm) as [em ->].
  rewrite optprop_object, Hm, prop_object.
  assert (Hp : forall k, prop (Some msg) k = Ok (get msg k))
    by (intros k; destruct msg; try reflexivity; contradiction).
  rewrite Hp. simpl.
  destruct (truthy (lookup "timestamp" em)); [reflexivity|].
  simpl. destruct (truthy (get msg "timestamp")); reflexivity.
Qed.

Lemma included_message (event : json) :
  included event = true ->
  exists msg, get event "message" = Some msg /\ msg <> JNull.
Proof.
  intros H. apply included_inv in H.
  destruct H as (msg & usage & _ & Hm & Hu & _).
  exists msg. split; [exact Hm|]. intros ->. discriminate Hu.
Qed.

Lemma slice_0_10_prefix (s : string) :
  startsWith s (slice_0_10 s) = true
  /\ String.length (slice_0_10 s) = Nat.min 10 (String.length s).
Proof.
  unfold slice_0_10. generalize 10 as k.
  induction s as [|c s IH]; intros [|k]; simpl; auto.
  destruct (IH k) as [IH1 IH2].
  now rewrite Ascii.eqb_refl, IH1, IH2.
Qed.

(** C9.  The model of an aggregated event is [message.model] when that is
    truthy, otherwise [message.modelId] when that is truthy, otherwise
    ["unknown"]; it is the key of the per-model rollup and what the
    classifier is applied to.  An event with a [modelId] and no [model] is
    grouped under its [modelId]. *)
Theorem model_resolution (event : json) :
  included event = true ->
  exists msg,
    get event "message" = Some msg
    /\ resolve_model event =
         Ok (if truthy (get msg "model") then get msg "model"
             else if truthy (get msg "modelId") then get msg "modelId"
             else Some (JStr "unknown"))
    /\ (forall id,
          get msg "model" = None -> get msg "modelId" = Some (JStr id) ->
          id <> "" -> resolve_model event = Ok (Some (JStr id)))
    /\ (forall now st st',
          process now st event = Ok st' ->
          exists m u,
            resolve_model event = Ok (Some (JStr m))
            /\ read_usage (usage_of event) = Ok u
            /\ byModel st' = update_model (byModel st) m (providerFromModel m) u
            /\ (exists agg, Map_get (byModel st') m = Some agg)
            /\ (Map_get (byModel st) m = None ->
                Map_get (byModel st') m
                = Some (add_model (model0 m (providerFromModel m)) u))).
Proof.
  intros Hin.
  destruct (included_message _ Hin) as (msg & Hm & Hnull).
  exists msg. split; [exact Hm|].
  pose proof (resolve_model_eq _ _ Hm Hnull) as Hr.
  split; [exact Hr|]. split.
  - intros id H1 H2 Hid. rewrite Hr, H1, H2. simpl.
    apply String.eqb_neq in Hid. now rewrite Hid.
  - intros now st st' Hp.
    destruct (process_included_inv _ _ _ _ Hin Hp)
      as (ts & n & s & m & u & _ & _ & Hmod & Hu & ->).
    exists m, u. simpl. repeat split; auto.
    + unfold update_model. rewrite Map_get_set_same. eauto.
    + intros Hnone. unfold update_model. now rewrite Map_get_set_same, Hnone.
Qed.

(** C10.  The day of an aggregated event is the first ten characters of the
    string form of its timestamp, which is [event.timestamp] when that is
    truthy, otherwise [message.timestamp] when that is truthy, otherwise a
    reading of the clock; the empty string is falsy and falls through. *)
Theorem date_resolution (now : nat -> string) (n : nat) (event : json) :
  included event = true ->
  exists msg,
    get event "message" = Some msg
    /\ resolve_ts now n event =
         Ok (if truthy (get event "timestamp") then (get event "timestamp", n)
             else if truthy (get msg "timestamp") then (get msg "timestamp", n)
             else (Some (JStr (now n)), S n))
    /\ truthy (Some (JStr "")) = false
    /\ (forall s, String_ (Some (JStr s)) = Ok s)
    /\ (forall st st',
          ticks st = n ->
          process now st event = Ok st' ->
          exists ts s u,
            resolve_ts now n event = Ok (ts, ticks st')
            /\ String_ ts = Ok s
            /\ read_usage (usage_of event) = Ok u
            /\ byDay st' = update_day (byDay st) (slice_0_10 s) u
            /\ (exists day, Map_get (byDay st') (slice_0_10 s) = Some day)
            /\ startsWith s (slice_0_10 s) = true
            /\ String.length (slice_0_10 s) = Nat.min 10 (String.length s)).
Proof.
  intros Hin.
  destruct (included_message _ Hin) as (msg & Hm & Hnull).
  exists msg. split; [exact Hm|].
  split; [exact (resolve_ts_eq now n _ _ Hm Hnull)|].
  split; [reflexivity|]. split; [reflexivity|].
  intros st st' Hn Hp.
  destruct (process_included_inv _ _ _ _ Hin Hp)
    as (ts & n' & s & m & u & Hts & Hs & _ & Hu & ->).
  subst n. exists ts, s, u. simpl.
  destruct (slice_0_10_prefix s) as [P1 P2].
  repeat split; auto.
  unfold update_day. rewrite Map_get_set_same. eauto.
Qed.

(** ** The early exit (lines 31-44) *)

Lemma files_nil_iff (w : World) :
  files w = [] <->
  readdirSync w = None
  \/ exists names, readdirSync w = Some names
                   /\ Forall (fun f => endsWith f ".jsonl" = false) names.
Proof.
  unfold files. destruct (readdirSync w) as [names|].
  - split.
    + intros H. right. exists names. split; [reflexivity|].
      apply map_eq_nil in H.
      induction names as [|f names IH]; constructor; simpl in H;
        destruct (endsWith f ".jsonl"); try discriminate; auto.
    + intros [H|(names' & [= <-] & H)]; [discriminate|].
      induction H as [|f names Hf _ IH]; simpl; [reflexivity|].
      now rewrite Hf.
  - split; auto.
Qed.

(** C1, amended.  The run exits early exactly when it finds no [.jsonl]
    file, because the sessions directory is absent or because none of its
    entries ends in [.jsonl]; it then writes nothing and the published
    document stays as it was.  With a [.jsonl] file found the run either
    writes exactly one document or is stopped by an exception, which leaves
    the published document as it was too. *)
Theorem early_exit_iff_no_log (w : World) :
  (run w = Exited <-> files w = [])
  /\ (files w = [] <->
      readdirSync w = None
      \/ exists names, readdirSync w = Some names
                       /\ Forall (fun f => endsWith f ".jsonl" = false) names)
  /\ (run w = Exited -> emitted (run w) = [] /\ published_after w = published w)
  /\ (files w <> [] ->
      (exists p, run w = Wrote p /\ emitted (run w) = [p]
                 /\ published_after w = Some p)
      \/ (exists e, run w = Raised e /\ emitted (run w) = []
                    /\ published_after w = published w)).
Proof.
  split; [|split; [apply files_nil_iff|split]].
  - unfold run. destruct (files w) as [|f fs].
    + tauto.
    + destruct (aggregate w state0 (f :: fs)); split; discriminate.
  - intros H. unfold published_after. now rewrite H.
  - intros Hne. unfold published_after, run.
    destruct (files w) as [|f fs]; [contradiction|].
    destruct (aggregate w state0 (f :: fs)) as [st|e]; simpl; eauto.
Qed.

(** ** The record reader (lines 7-20) *)

Lemma read_lines_flat_map (lines : list string) :
  read_lines lines =
    flat_map (fun line =>
                if trim line =? "" then []
                else match JSON_parse (trim line) with
                     | Some row => [row]
                     | None => []
                     end) lines.
Proof.
  induction lines as [|line lines IH]; simpl; [reflexivity|].
  destruct (trim line =? ""); [exact IH|].
  destruct (JSON_parse (trim line)); simpl; now rewrite IH.
Qed.

Lemma parse_attempts_filter (lines : list string) :
  parse_attempts lines = filter (fun t => negb (t =? "")) (map trim lines).
Proof.
  induction lines as [|line lines IH]; simpl; [reflexivity|].
  destruct (trim line =? ""); simpl; now rewrite IH.
Qed.

Lemma read_lines_attempts (lines : list string) :
  read_lines lines =
    flat_map (fun t => match JSON_parse t with
                       | Some row => [row]
                       | None => []
                       end) (parse_attempts lines).
Proof.
  induction lines as [|line lines IH]; simpl; [reflexivity|].
  destruct (trim line =? ""); [exact IH|]. simpl.
  destruct (JSON_parse (trim line)); simpl; now rewrite IH.
Qed.

Lemma read_lines_well_formed (lines : list string) :
  read_lines (filter well_formed lines) = read_lines lines
  /\ length (read_lines lines) = length (filter well_formed lines).
Proof.
  induction lines as [|line lines [IH1 IH2]]; simpl; [auto|].
  destruct (well_formed line) eqn:W; unfold well_formed in W;
    destruct (trim line =? "") eqn:E;
    destruct (JSON_parse (trim line)) eqn:P;
    simpl in *; try discriminate; rewrite ?E, ?P, ?IH1, ?IH2; auto.
Qed.

Lemma split_not_nil (sep : ascii) (s : string) : split sep s <> [].
Proof.
  destruct s as [|c s]; simpl; [discriminate|].
  destruct (Ascii.eqb c sep); [discriminate|].
  destruct (split sep s); discriminate.
Qed.

Lemma split_no_sep (sep : ascii) (s : string) :
  Forall (fun line => mentions sep line = false) (split sep s).
Proof.
  induction s as [|c s IH]; simpl.
  - repeat constructor.
  - destruct (Ascii.eqb c sep) eqn:E.
    + constructor; [reflexivity|exact IH].
    + destruct (split sep s) as [|cur rest].
      * repeat constructor. simpl. now rewrite E.
      * inversion IH; subst. constructor; [|assumption].
        simpl. now rewrite E.
Qed.

Lemma split_plain (sep : ascii) (s : string) :
  mentions sep s = false -> split sep s = [s].
Proof.
  induction s as [|c s IH]; simpl; [reflexivity|].
  intros H. apply orb_false_iff in H. destruct H as [E H].
  rewrite E, (IH H). reflexivity.
Qed.

Lemma split_append (sep : ascii) (s t : string) :
  mentions sep s = false ->
  split sep (s ++ String sep t) = s :: split sep t.
Proof.
  induction s as [|c s IH]; simpl.
  - intros _. now rewrite Ascii.eqb_refl.
  - intros H. apply orb_false_iff in H. destruct H as [E H].
    now rewrite E, (IH H).
Qed.

Lemma split_unlines (lines : list string) :
  lines <> [] ->
  Forall (fun line => mentions newline line = false) lines ->
  split newline (unlines lines) = lines.
Proof.
  intros Hne H. induction H as [|line lines Hl H IH]; [contradiction|].
  destruct lines as [|line' lines].
  - simpl. now apply split_plain.
  - change (unlines (line :: line' :: lines))
      with (line ++ String newline (unlines (line' :: lines)))%string.
    rewrite (split_append _ _ _ Hl), IH; [reflexivity|discriminate].
Qed.

Lemma Forall_filter {A : Type} (P : A -> Prop) (f : A -> bool) (l : list A) :
  Forall P l -> Forall P (filter f l).
Proof.
  induction 1 as [|x l Hx _ IH]; simpl; [constructor|].
  destruct (f x); [constructor|]; assumption.
Qed.

Lemma readJsonl_keep_well_formed (text : string) :
  readJsonl (keep_well_formed text) = readJsonl text.
Proof.
  unfold readJsonl, keep_well_formed.
  destruct (filter well_formed (split newline text)) as [|l ls] eqn:E.
  - rewrite <- (proj1 (read_lines_well_formed (split newline text))), E.
    reflexivity.
  - rewrite split_unlines.
    + rewrite <- E. apply read_lines_well_formed.
    + discriminate.
    + rewrite <- E. apply Forall_filter, split_no_sep.
Qed.

Lemma aggregate_scrub (w : World) (paths : list string) (st : State) :
  aggregate (scrub w) st paths = aggregate w st paths.
Proof.
  revert st. induction paths as [|p paths IH]; intros st; simpl; [reflexivity|].
  destruct (readFileSync w p) as [text|e]; simpl; [|reflexivity].
  rewrite readJsonl_keep_well_formed.
  destruct (process_all (now w) st (readJsonl text)); simpl; [apply IH|reflexivity].
Qed.

(** The lines of a text and the white space [trim] takes away. *)

Lemma concat_split (sep : ascii) (s : string) :
  String.concat (String sep "") (split sep s) = s.
Proof.
  induction s as [|c s IH]; [reflexivity|].
  cbn [split]. pose proof (split_not_nil sep s) as Hne.
  destruct (Ascii.eqb_spec c sep) as [->|Hc].
  - destruct (split sep s) as [|cur rest]; [contradiction|].
    cbn [String.concat]. cbn [String.concat] in IH. rewrite IH. reflexivity.
  - destruct (split sep s) as [|cur rest]; [contradiction|].
    rewrite <- IH. destruct rest; reflexivity.
Qed.

Lemma mentions_app (sep : ascii) (a b : string) :
  mentions sep (a ++ String sep b) = true.
Proof.
  induction a as [|c a IH]; simpl.
  - now rewrite Ascii.eqb_refl.
  - rewrite IH. apply orb_true_r.
Qed.

Lemma mentions_cut (sep : ascii) (s : string) :
  mentions sep s = true -> exists a b, s = (a ++ String sep b)%string.
Proof.
  induction s as [|c s IH]; simpl; [discriminate|].
  destruct (Ascii.eqb_spec c sep) as [->|Hc].
  - intros _. now exists "", s.
  - simpl. intros H. destruct (IH H) as (a & b & ->). now exists (String c a), b.
Qed.

Lemma mentions_false_iff (sep : ascii) (s : string) :
  mentions sep s = false <-> forall a b, s <> (a ++ String sep b)%string.
Proof.
  split.
  - intros H a b ->. rewrite mentions_app in H. discriminate.
  - intros H. destruct (mentions sep s) eqn:E; [|reflexivity].
    destruct (mentions_cut _ _ E) as (a & b & ->). now destruct (H a b).
Qed.

Lemma isWhiteSpace_spec (c : ascii) :
  isWhiteSpace c = true <-> In (nat_of_ascii c) [9; 10; 11; 12; 13; 32; 160].
Proof.
  unfold isWhiteSpace. generalize (nat_of_ascii c) as n. intros n.
  rewrite !orb_true_iff, andb_true_iff, !Nat.leb_le, !Nat.eqb_eq.
  simpl. lia.
Qed.

Lemma trimStart_cut (s : string) :
  exists pre, s = (pre ++ trimStart s)%string
              /\ forall c, In c (list_ascii_of_string pre) -> isWhiteSpace c = true.
Proof.
  induction s as [|c s IH]; cbn [trimStart].
  - exists "". split; [reflexivity|intros c []].
  - destruct (isWhiteSpace c) eqn:E.
    + destruct IH as (pre & Hs & Hpre). exists (String c pre). split.
      * simpl. now rewrite <- Hs.
      * intros d [<-|Hd]; [exact E|now apply Hpre].
    + exists "". split; [reflexivity|intros d []].
Qed.

Lemma trimEnd_cut (s : string) :
  exists post, s = (trimEnd s ++ post)%string
               /\ forall c, In c (list_ascii_of_string post) -> isWhiteSpace c = true.
Proof.
  induction s as [|c s IH]; cbn [trimEnd].
  - exists "". split; [reflexivity|intros c []].
  - destruct IH as (post & Hs & Hpost).
    destruct (trimEnd s) as [|d t] eqn:E.
    + destruct (isWhiteSpace c) eqn:Ec.
      * exists (String c post). split; [simpl in *; now rewrite <- Hs|].
        intros x [<-|Hx]; [exact Ec|now apply Hpost].
      * exists post. split; [simpl in *; now rewrite <- Hs|exact Hpost].
    + exists post. split; [simpl in *; now rewrite <- Hs|exact Hpost].
Qed.

Lemma trimStart_head (s : string) (c : ascii) (rest : string) :
  trimStart s = String c rest -> isWhiteSpace c = false.
Proof.
  induction s as [|d s IH]; cbn [trimStart]; [discriminate|].
  destruct (isWhiteSpace d) eqn:E; [exact IH|]. now intros [= <- _].
Qed.

Lemma trimEnd_head (s : string) (c : ascii) (rest : string) :
  trimEnd s = String c rest -> exists t, s = String c t.
Proof.
  destruct s as [|d s]; cbn [trimEnd]; [discriminate|].
  destruct (trimEnd s).
  - destruct (isWhiteSpace d); [discriminate|]. intros [= <- _]. now exists s.
  - intros [= <- _]. now exists s.
Qed.

Lemma trimEnd_last (s : string) :
  forall rest c, trimEnd s = (rest ++ String c "")%string -> isWhiteSpace c = false.
Proof.
  induction s as [|d s IH]; intros rest c; cbn [trimEnd].
  - destruct rest; discriminate.
  - destruct (trimEnd s) as [|x t] eqn:E.
    + destruct (isWhiteSpace d) eqn:Ed.
      * destruct rest; discriminate.
      * destruct rest as [|y [|z rest]]; simpl; try discriminate.
        now intros [= <-].
    + destruct rest as [|y rest]; simpl; [discriminate|].
      intros [= _ H]. now apply (IH rest c).
Qed.

Lemma trim_cut (line : string) :
  exists pre post,
    line = (pre ++ trim line ++ post)%string
    /\ (forall c, In c (list_ascii_of_string pre) -> isWhiteSpace c = true)
    /\ (forall c, In c (list_ascii_of_string post) -> isWhiteSpace c = true).
Proof.
  destruct (trimStart_cut line) as (pre & Hs & Hpre).
  destruct (trimEnd_cut (trimStart line)) as (post & He & Hpost).
  exists pre, post. split; [|split; assumption].
  unfold trim. now rewrite <- He.
Qed.

Lemma trim_head (line : string) (c : ascii) (rest : string) :
  trim line = String c rest -> isWhiteSpace c = false.
Proof.
  unfold trim. intros H. destruct (trimEnd_head _ _ _ H) as [t Ht].
  exact (trimStart_head _ _ _ Ht).
Qed.

Lemma list_ascii_app (a b : string) :
  list_ascii_of_string (a ++ b) = list_ascii_of_string a ++ list_ascii_of_string b.
Proof. induction a as [|c a IH]; simpl; [reflexivity|now rewrite IH]. Qed.

Lemma trim_blank (line : string) :
  trim line = "" <-> forall c, In c (list_ascii_of_string line) -> isWhiteSpace c = true.
Proof.
  split.
  - intros H. destruct (trim_cut line) as (pre & post & Hl & Hpre & Hpost).
    rewrite H in Hl. rewrite Hl. intros c Hc. simpl in Hc.
    rewrite list_ascii_app in Hc. apply in_app_or in Hc. destruct Hc; auto.
  - intros Hall. destruct (trim line) as [|c rest] eqn:E; [reflexivity|].
    pose proof (trim_head _ _ _ E) as Hc.
    destruct (trim_cut line) as (pre & post & Hl & _). rewrite E in Hl.
    exfalso. rewrite (Hall c) in Hc; [discriminate|].
    rewrite Hl, list_ascii_app. apply in_or_app. right. now left.
Qed.

(** C6.  [readJsonl] returns, in order, the values [JSON.parse] makes of the
    lines that are not blank once trimmed and that parse: a blank line is
    passed over without a call of [JSON.parse], a line that fails to parse is
    dropped, and a run on logs stripped of their blank and malformed lines
    ends as the run on the logs themselves does.  The lines are the pieces of
    the text between its line feeds (code unit 10): joined by line feeds
    they give the text back, and none holds a line feed.  Trimming takes the
    white space off both ends of a line and nothing else, white space being
    the code units 9 to 13, 32 and 160; a line is blank once trimmed when it
    is made of white space only. *)
Theorem readJsonl_rows (text : string) :
  readJsonl text =
    flat_map (fun line =>
                if trim line =? "" then []
                else match JSON_parse (trim line) with
                     | Some row => [row]
                     | None => []
                     end) (split newline text)
  /\ parse_attempts (split newline text) =
       filter (fun t => negb (t =? "")) (map trim (split newline text))
  /\ readJsonl text =
       flat_map (fun t => match JSON_parse t with
                          | Some row => [row]
                          | None => []
                          end) (parse_attempts (split newline text))
  /\ readJsonl text = read_lines (filter well_formed (split newline text))
  /\ length (readJsonl text) = length (filter well_formed (split newline text))
  /\ readJsonl (keep_well_formed text) = readJsonl text
  /\ (forall w, run (scrub w) = run w)
  /\ nat_of_ascii newline = 10
  /\ split newline text <> []
  /\ String.concat (String newline "") (split newline text) = text
  /\ (forall line, In line (split newline text) ->
                   forall a b, line <> (a ++ String newline b)%string)
  /\ (forall lines,
        lines <> [] ->
        (forall line, In line lines ->
                      forall a b, line <> (a ++ String newline b)%string) ->
        readJsonl (String.concat (String newline "") lines)
        = flat_map (fun line =>
                      if trim line =? "" then []
                      else match JSON_parse (trim line) with
                           | Some row => [row]
                           | None => []
                           end) lines)
  /\ (forall c, isWhiteSpace c = true
                <-> In (nat_of_ascii c) [9; 10; 11; 12; 13; 32; 160])
  /\ (forall line,
        exists pre post,
          line = (pre ++ trim line ++ post)%string
          /\ (forall c, In c (list_ascii_of_string pre) -> isWhiteSpace c = true)
          /\ (forall c, In c (list_ascii_of_string post) -> isWhiteSpace c = true))
  /\ (forall line c rest, trim line = String c rest -> isWhiteSpace c = false)
  /\ (forall line rest c,
        trim line = (rest ++ String c "")%string -> isWhiteSpace c = false)
  /\ (forall line,
        trim line = ""
        <-> forall c, In c (list_ascii_of_string line) -> isWhiteSpace c = true).
Proof.
  unfold readJsonl at 1 2 3 4.
  split; [apply read_lines_flat_map|].
  split; [apply parse_attempts_filter|].
  split; [apply read_lines_attempts|].
  split; [symmetry; apply read_lines_well_formed|].
  split; [apply read_lines_well_formed|].
  split; [apply readJsonl_keep_well_formed|].
  split.
  { intros w. unfold run. change (files (scrub w)) with (files w).
    destruct (files w) as [|f fs]; [reflexivity|].
    rewrite aggregate_scrub. reflexivity. }
  split; [reflexivity|].
  split; [apply split_not_nil|].
  split; [apply concat_split|].
  split.
  { intros line Hin. apply mentions_false_iff.
    pose proof (split_no_sep newline text) as Hall.
    rewrite Forall_forall in Hall. now apply Hall. }
  split.
  { intros lines Hne Hlines. unfold readJsonl.
    change (String.concat (String newline "") lines) with (unlines lines).
    rewrite split_unlines; [apply read_lines_flat_map|exact Hne|].
    apply Forall_forall. intros line Hin. apply mentions_false_iff.
    now apply Hlines. }
  split; [apply isWhiteSpace_spec|].
  split; [apply trim_cut|].
  split; [apply trim_head|].
  split; [intros line; apply trimEnd_last|].
  apply trim_blank.
Qed.

(** ** The counter (lines 47, 68) *)

Section Counting.

Local Open Scope Z_scope.

Lemma digits2_pos_bounds (p : positive) :
  2 ^ (Zpos (digits2_pos p) - 1) <= Zpos p < 2 ^ Zpos (digits2_pos p).
Proof.
  induction p as [p IH|p IH|]; simpl digits2_pos.
  - rewrite Pos2Z.inj_succ, Pos2Z.inj_xI.
    replace (Z.succ (Zpos (digits2_pos p)) - 1) with (Z.succ (Zpos (digits2_pos p) - 1)) by lia.
    rewrite !Z.pow_succ_r by lia.
    set (a := 2 ^ (Zpos (digits2_pos p) - 1)) in *.
    set (b := 2 ^ Zpos (digits2_pos p)) in *. clearbody a b. lia.
  - rewrite Pos2Z.inj_succ. change (Zpos p~0) with (2 * Zpos p).
    replace (Z.succ (Zpos (digits2_pos p)) - 1) with (Z.succ (Zpos (digits2_pos p) - 1)) by lia.
    rewrite !Z.pow_succ_r by lia.
    set (a := 2 ^ (Zpos (digits2_pos p) - 1)) in *.
    set (b := 2 ^ Zpos (digits2_pos p)) in *. clearbody a b. lia.
  - simpl. lia.
Qed.

Lemma digits2_pos_unique (p : positive) (d : Z) :
  2 ^ (d - 1) <= Zpos p < 2 ^ d -> Zpos (digits2_pos p) = d.
Proof.
  intros [Lo Hi]. pose proof (digits2_pos_bounds p) as [Lo' Hi'].
  set (d' := Zpos (digits2_pos p)) in *.
  assert (Hd : 0 < d).
  { destruct (Z.lt_trichotomy d 0) as [H|[H|H]]; [|subst; simpl in Hi; lia|exact H].
    rewrite Z.pow_neg_r in Hi by lia. lia. }
  destruct (Z.lt_trichotomy d' d) as [H|[H|H]]; [|exact H|].
  - assert (2 ^ d' <= 2 ^ (d - 1)) by (apply Z.pow_le_mono_r; lia). lia.
  - assert (2 ^ d <= 2 ^ (d' - 1)) by (apply Z.pow_le_mono_r; lia). lia.
Qed.

Lemma iter_xO_value (m d : positive) :
  Zpos (Pos.iter xO m d) = Zpos m * 2 ^ Zpos d.
Proof.
  induction d as [|d IH] using Pos.peano_ind.
  - simpl. lia.
  - rewrite Pos.iter_succ.
    change (Zpos (Pos.iter xO m d)~0) with (2 * Zpos (Pos.iter xO m d)).
    rewrite IH, Pos2Z.inj_succ, Z.pow_succ_r by lia. lia.
Qed.

Lemma shl_align_value (mx : positive) (ex ez : Z) :
  ez <= ex ->
  Zpos (fst (shl_align mx ex ez)) = Zpos mx * 2 ^ (ex - ez).
Proof.
  intros H. unfold shl_align.
  destruct (ez - ex) as [|d|d] eqn:E; simpl fst.
  - replace (ex - ez) with 0 by lia. lia.
  - lia.
  - rewrite iter_xO_value. f_equal. f_equal. lia.
Qed.

(** A shift to the right of a mantissa that ends in as many zeros loses
    nothing. *)
Lemma shr_1_exact (q : positive) :
  shr_1 (Build_shr_record (Zpos q * 2) false false)
  = Build_shr_record (Zpos q) false false.
Proof. rewrite Z.mul_comm. reflexivity. Qed.

Lemma iter_shr_1_exact (p : positive) :
  forall q : positive,
    iter_pos shr_1 p (Build_shr_record (Zpos q * 2 ^ Zpos p) false false)
    = Build_shr_record (Zpos q) false false.
Proof.
  induction p as [p IH|p IH|]; intros q; cbn [iter_pos].
  - replace (Zpos q * 2 ^ Zpos p~1)
      with (Zpos (Pos.iter xO (Pos.iter xO q p) p) * 2).
    + rewrite shr_1_exact, iter_xO_value, IH, iter_xO_value. apply IH.
    + rewrite !iter_xO_value. rewrite Pos2Z.inj_xI.
      rewrite Z.pow_add_r, Z.pow_mul_r by lia.
      change (2 ^ 2) with 4. change (2 ^ 1) with 2.
      replace (4 ^ Zpos p) with (2 ^ Zpos p * 2 ^ Zpos p); [ring|].
      rewrite <- Z.pow_mul_l. reflexivity.
  - replace (Zpos q * 2 ^ Zpos p~0)
      with (Zpos (Pos.iter xO q p) * 2 ^ Zpos p).
    + rewrite IH, iter_xO_value. apply IH.
    + rewrite iter_xO_value. change (Zpos p~0) with (2 * Zpos p).
      rewrite Z.pow_mul_r by lia. change (2 ^ 2) with 4.
      replace (4 ^ Zpos p) with (2 ^ Zpos p * 2 ^ Zpos p); [ring|].
      rewrite <- Z.pow_mul_l. reflexivity.
  - change (2 ^ 1) with 2. apply shr_1_exact.
Qed.

Lemma shr_exact (q : positive) (e k : Z) :
  0 <= k ->
  shr (Build_shr_record (Zpos q * 2 ^ k) false false) e k
  = (Build_shr_record (Zpos q) false false, e + k).
Proof.
  intros Hk. destruct k as [|p|p]; [| |lia]; unfold shr.
  - rewrite Z.pow_0_r, Z.mul_1_r, Z.add_0_r. reflexivity.
  - rewrite iter_shr_1_exact. reflexivity.
Qed.

Lemma digits2_pos_scaled (q : positive) (k : Z) (m : positive) :
  0 <= k -> Zpos m = Zpos q * 2 ^ k ->
  Zpos (digits2_pos m) = Zpos (digits2_pos q) + k.
Proof.
  intros Hk Hm. apply digits2_pos_unique. rewrite Hm.
  pose proof (digits2_pos_bounds q) as [Lo Hi].
  replace (Zpos (digits2_pos q) + k - 1) with (Zpos (digits2_pos q) - 1 + k) by lia.
  rewrite !Z.pow_add_r by lia.
  assert (0 < 2 ^ k) by (apply Z.pow_pos_nonneg; lia).
  split; [apply Z.mul_le_mono_nonneg_r | apply Z.mul_lt_mono_pos_r]; lia.
Qed.

(** Rounding a mantissa that is a 53-digit number followed by zeros is exact. *)
Lemma binary_round_aux_exact (q : positive) (e k : Z) :
  Zpos (digits2_pos q) = 53 -> 0 <= k -> -1074 <= e + k <= 971 ->
  binary_round_aux prec emax false (Zpos q * 2 ^ k) e loc_Exact
  = S754_finite false q (e + k).
Proof.
  intros Hq Hk He.
  assert (Hpos : 0 < 2 ^ k) by (apply Z.pow_pos_nonneg; lia).
  destruct (Zpos q * 2 ^ k) as [|m|m] eqn:Hm; [lia| |lia].
  pose proof (digits2_pos_scaled q k m Hk (eq_sym Hm)) as Hd.
  unfold binary_round_aux, shr_fexp.
  change (Zdigits2 (Zpos m)) with (Zpos (digits2_pos m)).
  rewrite Hd, Hq.
  replace (fexp prec emax (53 + k + e) - e) with k
    by (unfold fexp, emin, prec, emax; lia).
  change (shr_record_of_loc (Zpos m) loc_Exact)
    with (Build_shr_record (Zpos m) false false).
  rewrite <- Hm, shr_exact by exact Hk.
  cbn [shr_m loc_of_shr_record shr_r shr_s round_nearest_even].
  change (Zdigits2 (Zpos q)) with (Zpos (digits2_pos q)).
  rewrite Hq.
  replace (fexp prec emax (53 + (e + k)) - (e + k)) with 0
    by (unfold fexp, emin, prec, emax; lia).
  cbn [shr shr_record_of_loc shr_m].
  replace (e + k <=? emax - prec) with true; [reflexivity|].
  symmetry. apply Z.leb_le. unfold prec, emax. lia.
Qed.

Lemma binary_normalize_exact (q : positive) (e k : Z) :
  Zpos (digits2_pos q) = 53 -> 0 <= k -> -1074 <= e + k <= 971 ->
  binary_normalize prec emax (Zpos q * 2 ^ k) e false = S754_finite false q (e + k).
Proof.
  intros Hq Hk He.
  assert (Hpos : 0 < 2 ^ k) by (apply Z.pow_pos_nonneg; lia).
  pose proof (binary_round_aux_exact q e k Hq Hk He) as Hr.
  destruct (Zpos q * 2 ^ k) as [|m|m] eqn:Hm; [lia| |lia].
  unfold binary_normalize, binary_round.
  rewrite (digits2_pos_scaled q k m Hk (eq_sym Hm)), Hq.
  replace (fexp prec emax (53 + k + e)) with (e + k)
    by (unfold fexp, emin, prec, emax; lia).
  unfold shl_align.
  destruct (e + k - e) as [| |p] eqn:E; [exact Hr|exact Hr|lia].
Qed.

Lemma whole_mantissa (n : positive) :
  Zpos n < 2 ^ 53 ->
  let d := Zpos (digits2_pos n) in
  d <= 53
  /\ Zpos (Z.to_pos (Zpos n * 2 ^ (53 - d))) = Zpos n * 2 ^ (53 - d)
  /\ Zpos (digits2_pos (Z.to_pos (Zpos n * 2 ^ (53 - d)))) = 53.
Proof.
  intros Hn d. pose proof (digits2_pos_bounds n) as [Lo Hi]. fold d in Lo, Hi.
  assert (Hd : d <= 53).
  { destruct (Z_le_gt_dec d 53) as [H|H]; [exact H|].
    assert (2 ^ 53 <= 2 ^ (d - 1)) by (apply Z.pow_le_mono_r; lia). lia. }
  assert (Hpos : 0 < 2 ^ (53 - d)) by (apply Z.pow_pos_nonneg; lia).
  assert (Hv : Zpos (Z.to_pos (Zpos n * 2 ^ (53 - d))) = Zpos n * 2 ^ (53 - d))
    by (apply Z2Pos.id; lia).
  split; [exact Hd|]. split; [exact Hv|].
  rewrite (digits2_pos_scaled n (53 - d) _ ltac:(lia) Hv). fold d. lia.
Qed.

Lemma binary_normalize_whole (n : positive) :
  Zpos n < 2 ^ 53 ->
  binary_normalize prec emax (Zpos n) 0 false = whole n.
Proof.
  intros Hn. destruct (whole_mantissa n Hn) as (Hd & Hv & Hq).
  pose proof (digits2_pos_bounds n) as [Lo Hi].
  set (d := Zpos (digits2_pos n)) in *.
  assert (0 < d) by (unfold d; lia).
  unfold binary_normalize, binary_round. fold d.
  replace (fexp prec emax (d + 0)) with (d - 53)
    by (unfold fexp, emin, prec, emax; lia).
  pose proof (binary_round_aux_exact _ (d - 53) 0 Hq ltac:(lia) ltac:(lia)) as Hr.
  rewrite Z.pow_0_r, Z.mul_1_r, Z.add_0_r in Hr.
  unfold whole. fold d. rewrite <- Hr.
  unfold shl_align.
  destruct (d - 53 - 0) as [| |p] eqn:E; [|lia|].
  - replace (53 - d) with 0 by lia. rewrite Z.pow_0_r, Z.mul_1_r.
    replace (d - 53) with 0 by lia. reflexivity.
  - f_equal. rewrite Hv, iter_xO_value. f_equal. f_equal. lia.
Qed.

Lemma SFadd_whole_one (n : positive) :
  Zpos n + 1 < 2 ^ 53 ->
  SFadd prec emax (whole n) (Prim2SF 1) = whole (n + 1).
Proof.
  intros Hn.
  destruct (whole_mantissa n ltac:(lia)) as (Hd & Hv & Hq).
  destruct (whole_mantissa (n + 1) ltac:(lia)) as (Hd' & Hv' & Hq').
  pose proof (digits2_pos_bounds n) as [Lo Hi].
  pose proof (digits2_pos_bounds (n + 1)) as [Lo' Hi'].
  set (d := Zpos (digits2_pos n)) in *.
  set (d' := Zpos (digits2_pos (n + 1))) in *.
  assert (0 < d) by (unfold d; lia). assert (0 < d') by (unfold d'; lia).
  change (Prim2SF 1) with (S754_finite false 4503599627370496 (-52)).
  unfold whole at 1. fold d. unfold SFadd.
  replace (Z.min (d - 53) (-52)) with (-52) by lia.
  cbn [cond_Zopp].
  rewrite !shl_align_value by lia. rewrite Hv.
  replace (Zpos n * 2 ^ (53 - d) * 2 ^ (d - 53 - -52)
           + 4503599627370496 * 2 ^ (-52 - -52))
    with (Zpos (Z.to_pos (Zpos (n + 1) * 2 ^ (53 - d'))) * 2 ^ (d' - 1)).
  - rewrite binary_normalize_exact by (try exact Hq'; lia).
    unfold whole. fold d'. f_equal. lia.
  - rewrite Hv'. replace (-52 - -52) with 0 by lia.
    replace (d - 53 - -52) with (d - 1) by lia.
    rewrite <- !Z.mul_assoc, <- !Z.pow_add_r by lia.
    replace (53 - d' + (d' - 1)) with 52 by lia.
    replace (53 - d + (d - 1)) with 52 by lia.
    rewrite Pos2Z.inj_add. change (2 ^ 52) with 4503599627370496.
    change (2 ^ 0) with 1. lia.
Qed.

Lemma count_whole (n : nat) :
  Z.of_nat n < 2 ^ 53 ->
  Prim2SF (count n) = binary_normalize prec emax (Z.of_nat n) 0 false.
Proof.
  induction n as [|n IH]; intros Hn; [reflexivity|].
  change (count (S n)) with (count n + 1)%float.
  rewrite add_spec, IH by lia. unfold SF64add.
  destruct n as [|n]; [reflexivity|].
  replace (Z.of_nat (S (S n))) with (Z.of_nat (S n) + 1) in * by lia.
  destruct (Z.of_nat (S n)) as [|p|p] eqn:E; [lia| |lia].
  change (Zpos p + 1) with (Zpos (p + 1)) in *.
  rewrite !binary_normalize_whole by lia.
  apply SFadd_whole_one. lia.
Qed.

(** Counting in doubles: below 2^53 the counter is the number counted. *)
Lemma count_whole_number (n : nat) :
  Z.of_nat n < 2 ^ 53 -> whole_number (count n) = Some (Z.of_nat n).
Proof.
  intros Hn. unfold whole_number. rewrite count_whole by exact Hn.
  destruct (Z.of_nat n) as [|p|p] eqn:E; [reflexivity| |lia].
  rewrite binary_normalize_whole by exact Hn.
  destruct (whole_mantissa p Hn) as (Hd & Hv & _).
  unfold whole. set (d := Zpos (digits2_pos p)) in *. rewrite Hv.
  assert (Hpos : 0 < 2 ^ (53 - d)) by (apply Z.pow_pos_nonneg; lia).
  destruct (0 <=? d - 53) eqn:E0.
  - apply Z.leb_le in E0. replace (d - 53) with 0 by lia.
    replace (53 - d) with 0 by lia. rewrite !Z.pow_0_r. f_equal. lia.
  - replace (- (d - 53)) with (53 - d) by lia.
    rewrite Z.mod_mul, Z.div_mul by lia. reflexivity.
Qed.

Lemma count_succ_r (n : nat) (x : float) :
  Nat.iter n (fun y => (y + 1)%float) (x + 1)%float
  = (Nat.iter n (fun y => (y + 1)%float) x + 1)%float.
Proof. exact (eq_sym (Nat.iter_succ_r n float (fun y => (y + 1)%float) x)). Qed.

End Counting.

(** ** The totals (lines 46-54, 68-74) *)

Lemma fold_add_totals (us : list Usage) (t : Totals.t) :
  let t' := fold_left add_totals us t in
  Totals.calls t' = Nat.iter (length us) (fun x => (x + 1)%float) (Totals.calls t)
  /\ Totals.inputTokens t' = fold_left PrimFloat.add (map u_input us) (Totals.inputTokens t)
  /\ Totals.outputTokens t' = fold_left PrimFloat.add (map u_output us) (Totals.outputTokens t)
  /\ Totals.cacheRead t' = fold_left PrimFloat.add (map u_cacheRead us) (Totals.cacheRead t)
  /\ Totals.cacheWrite t' = fold_left PrimFloat.add (map u_cacheWrite us) (Totals.cacheWrite t)
  /\ Totals.totalTokens t' = fold_left PrimFloat.add (map u_totalTokens us) (Totals.totalTokens t)
  /\ Totals.cost t' = fold_left PrimFloat.add (map u_cost us) (Totals.cost t).
Proof.
  revert t. induction us as [|u us IH]; intros t; simpl.
  - repeat split.
  - destruct (IH (add_totals t u)) as (H0 & H1 & H2 & H3 & H4 & H5 & H6).
    simpl in *. repeat split; try assumption.
    rewrite H0. apply count_succ_r.
Qed.

Lemma process_all_totals (now : nat -> string) (events : list json) (st st' : State) :
  process_all now st events = Ok st' ->
  exists us,
    map (fun e => read_usage (usage_of e)) (filter included events) = map Ok us
    /\ totals st' = fold_left add_totals us (totals st)
    /\ process_all now st (filter included events) = Ok st'.
Proof.
  revert st. induction events as [|e events IH]; intros st; simpl.
  - intros [= <-]. exists []. auto.
  - destruct (process now st e) as [st1|] eqn:Hp; simpl; [|discriminate].
    intros Hrest. destruct (IH _ Hrest) as (us & Hus & Ht & Hf).
    destruct (included e) eqn:Hin.
    + destruct (process_included_inv _ _ _ _ Hin Hp)
        as (ts & n & s & m & u & _ & _ & _ & Hu & ->).
      exists (u :: us). simpl. rewrite Hu, Hus, Hp. simpl. auto.
    + rewrite (process_excluded _ _ _ Hin) in Hp. injection Hp as <-.
      exists us. auto.
Qed.

Lemma process_all_app (now : nat -> string) (l1 l2 : list json) (st : State) :
  process_all now st (l1 ++ l2)
  = (st1 <- process_all now st l1 ;; process_all now st1 l2).
Proof.
  revert st. induction l1 as [|e l1 IH]; intros st; simpl; [reflexivity|].
  destruct (process now st e); simpl; [apply IH|reflexivity].
Qed.

(** A run that writes has processed the rows of all the logs in one
    sequence. *)
Lemma run_process_all (w : World) (p : Payload) :
  run w = Wrote p ->
  exists st,
    process_all (now w) state0 (events_of w) = Ok st /\ p = payload w st.
Proof.
  unfold run, events_of. destruct (files w) as [|f fs]; [discriminate|].
  destruct (aggregate w state0 (f :: fs)) as [st|] eqn:Ha; [|discriminate].
  intros [= <-]. exists st. split; [|reflexivity].
  revert Ha. generalize (f :: fs) as paths. generalize state0 as st0.
  intros st0 paths. revert st0.
  induction paths as [|q paths IH]; intros st0; simpl; [auto|].
  destruct (readFileSync w q) as [text|]; simpl; [|discriminate].
  rewrite process_all_app.
  destruct (process_all (now w) st0 (readJsonl text)); simpl; [apply IH|discriminate].
Qed.

(** C3, amended.  After the events are processed each field of the totals is
    the sum, over the aggregated events in their order, of the number the
    event gives for that field, and [calls] has been moved up by one for
    every aggregated event, which makes it their number as long as that is
    under 2^53.  The aggregated events are those whose [message.usage] is
    truthy and holds a truthy [cost].
    An event with a [usage] object holding a [cost] object is aggregated, one
    without [usage] or without [cost] is not, and the events passed over
    leave no trace. *)
Theorem totals_are_sums (now : nat -> string) (events : list json) (st' : State) :
  process_all now state0 events = Ok st' ->
  (exists us,
     map (fun e => read_usage (usage_of e)) (filter included events) = map Ok us
     /\ Totals.calls (totals st') = count (length (filter included events))
     /\ ((Z.of_nat (length (filter included events)) < 2 ^ 53)%Z ->
         whole_number (Totals.calls (totals st'))
         = Some (Z.of_nat (length (filter included events))))
     /\ Totals.inputTokens (totals st') = fsum (map u_input us)
     /\ Totals.outputTokens (totals st') = fsum (map u_output us)
     /\ Totals.cacheRead (totals st') = fsum (map u_cacheRead us)
     /\ Totals.cacheWrite (totals st') = fsum (map u_cacheWrite us)
     /\ Totals.totalTokens (totals st') = fsum (map u_totalTokens us)
     /\ Totals.cost (totals st') = fsum (map u_cost us))
  /\ process_all now state0 (filter included events) = Ok st'
  /\ (forall e, included e = true <->
                exists usage cost,
                  usage_of e = Some usage /\ truthy (Some usage) = true
                  /\ get usage "cost" = Some cost /\ truthy (Some cost) = true)
  /\ (forall e, carries_usage_and_cost e = true -> included e = true)
  /\ (forall e, usage_of e = None -> included e = false)
  /\ (forall e usage, usage_of e = Some usage -> get usage "cost" = None ->
                      included e = false).
Proof.
  intros H. destruct (process_all_totals _ _ _ _ H) as (us & Hus & Ht & Hf).
  split; [|split; [exact Hf|split; [|split; [|split]]]].
  - exists us. split; [exact Hus|].
    assert (Hlen : length (filter included events) = length us).
    { rewrite <- (length_map (fun e => read_usage (usage_of e))), Hus.
      apply length_map. }
    destruct (fold_add_totals us (totals state0)) as (H0 & H1 & H2 & H3 & H4 & H5 & H6).
    rewrite <- Ht in *. unfold fsum. rewrite Hlen.
    change (Totals.calls (totals st') = count (length us)) in H0.
    simpl in H1, H2, H3, H4, H5, H6.
    repeat split; try assumption.
    intros Hn. rewrite H0. now apply count_whole_number.
  - intros e. unfold included. split.
    + intros Hin. apply andb_true_iff in Hin. destruct Hin as [Hu Hc].
      destruct (usage_of e) as [usage|]; [|discriminate Hu].
      exists usage. destruct usage; simpl in Hc; try discriminate Hc.
      destruct (lookup "cost" members) as [cost|] eqn:E; [|discriminate Hc].
      exists cost. simpl. rewrite E. auto.
    + intros (usage & cost & -> & Hu & Hc & Hcost).
      destruct (get_Some_object _ _ _ Hc) as [members ->].
      rewrite prop_object, Hc. simpl. exact Hcost.
  - intros e. unfold carries_usage_and_cost, included.
    destruct (usage_of e) as [[| | | | |members]|]; try discriminate.
    simpl. destruct (lookup "cost" members) as [[]|]; try discriminate.
    reflexivity.
  - intros e He. unfold included. now rewrite He.
  - intros e usage He Hc. unfold included. rewrite He.
    destruct usage; simpl in *; rewrite ?andb_false_r; try reflexivity.
    rewrite Hc. reflexivity.
Qed.

(** ** The coercion of the numeric fields (lines 69-74) *)

Lemma add_zero_r (acc : float) :
  Prim2SF acc = S754_zero true \/ (acc + 0)%float = acc.
Proof.
  destruct (Prim2SF acc) as [[|]|s| |s m e] eqn:E.
  - left; reflexivity.
  - right. apply Prim2SF_inj. rewrite add_spec, E. reflexivity.
  - right. apply Prim2SF_inj. rewrite add_spec, E. reflexivity.
  - right. apply Prim2SF_inj. rewrite add_spec, E. reflexivity.
  - right. apply Prim2SF_inj. rewrite add_spec, E. reflexivity.
Qed.

Lemma coerce_falsy (o : json) (k : string) :
  o <> JNull ->
  truthy (get o k) = false -> coerce (Some o) k = Ok 0%float.
Proof.
  intros Hnull H. unfold coerce.
  assert (Hp : prop (Some o) k = Ok (get o k))
    by (destruct o; try reflexivity; contradiction).
  rewrite Hp. simpl. unfold or_else. now rewrite H.
Qed.

Lemma coerce_truthy (o : json) (k : string) :
  o <> JNull ->
  truthy (get o k) = true -> coerce (Some o) k = Number (get o k).
Proof.
  intros Hnull H. unfold coerce.
  assert (Hp : prop (Some o) k = Ok (get o k))
    by (destruct o; try reflexivity; contradiction).
  rewrite Hp. simpl. unfold or_else. now rewrite H.
Qed.

Lemma add_nan (x y : float) :
  is_nan x = true ->
  is_nan (x + y)%float = true /\ is_nan (y + x)%float = true.
Proof.
  unfold is_nan. rewrite !FloatAxioms.eqb_spec, !add_spec.
  intros H. destruct (Prim2SF x) as [[]|[]| |[] ? ?] eqn:E;
    try (simpl in H; discriminate H).
  - destruct (Prim2SF y); auto.
  - exfalso. apply negb_true_iff in H. unfold SFeqb, SFcompare in H.
    rewrite Z.compare_refl, Pos.compare_cont_refl in H. discriminate H.
  - exfalso. apply negb_true_iff in H. unfold SFeqb, SFcompare in H.
    rewrite Z.compare_refl, Pos.compare_cont_refl in H. discriminate H.
Qed.

Lemma coerce_number (o : json) (k : string) (x : float) :
  get o k = Some (JNum x) ->
  truthy (Some (JNum x)) = true ->
  coerce (Some o) k = Ok x /\ is_nan x = false.
Proof.
  intros Hg Ht. split.
  - destruct (get_Some_object _ _ _ Hg) as [members ->].
    unfold coerce. rewrite prop_object, Hg. simpl bind.
    unfold or_else. rewrite Ht. reflexivity.
  - simpl in Ht. apply negb_true_iff, orb_false_iff in Ht. tauto.
Qed.

Lemma read_usage_inv (usage : value) (u : Usage) :
  read_usage usage = Ok u ->
  coerce usage "input" = Ok (u_input u)
  /\ coerce usage "output" = Ok (u_output u)
  /\ coerce usage "cacheRead" = Ok (u_cacheRead u)
  /\ coerce usage "cacheWrite" = Ok (u_cacheWrite u)
  /\ coerce usage "totalTokens" = Ok (u_totalTokens u)
  /\ exists cost, prop usage "cost" = Ok cost
                  /\ coerce cost "total" = Ok (u_cost u).
Proof.
  unfold read_usage.
  destruct (coerce usage "input"); simpl; [|discriminate].
  destruct (coerce usage "output"); simpl; [|discriminate].
  destruct (coerce usage "cacheRead"); simpl; [|discriminate].
  destruct (coerce usage "cacheWrite"); simpl; [|discriminate].
  destruct (coerce usage "totalTokens"); simpl; [|discriminate].
  destruct (prop usage "cost") as [cost|]; simpl; [|discriminate].
  destruct (coerce cost "total") eqn:Ec; simpl; [|discriminate].
  intros [= <-]. simpl.
  do 5 (split; [reflexivity|]). exists cost. auto.
Qed.

Lemma included_usage (event : json) :
  included event = true ->
  exists usage cost,
    usage_of event = Some usage
    /\ get usage "cost" = Some cost
    /\ usage <> JNull /\ cost <> JNull.
Proof.
  intros Hin. apply included_inv in Hin.
  destruct Hin as (msg & usage & cost & Hm & Hu & Hc & Ht).
  exists usage, cost. repeat split.
  - unfold usage_of.
    destruct (get_Some_object _ _ _ Hm) as [em ->].
    rewrite optprop_object, Hm.
    destruct (get_Some_object _ _ _ Hu) as [mm ->].
    now rewrite optprop_object.
  - exact Hc.
  - intros ->. discriminate Hc.
  - intros ->. discriminate Ht.
Qed.

Lemma read_usage_raises (usage : value) (k : string) (e : exn) :
  In k ["input"; "output"; "cacheRead"; "cacheWrite"; "totalTokens"] ->
  coerce usage k = Throw e ->
  exists e', read_usage usage = Throw e'.
Proof.
  intros Hk He. unfold read_usage.
  destruct (coerce usage "input") eqn:E1; cbn [bind]; [|eauto].
  destruct (coerce usage "output") eqn:E2; cbn [bind]; [|eauto].
  destruct (coerce usage "cacheRead") eqn:E3; cbn [bind]; [|eauto].
  destruct (coerce usage "cacheWrite") eqn:E4; cbn [bind]; [|eauto].
  destruct (coerce usage "totalTokens") eqn:E5; cbn [bind]; [|eauto].
  destruct Hk as [<-|[<-|[<-|[<-|[<-|[]]]]]]; congruence.
Qed.

Lemma read_usage_raises_total (usage : value) (cost : value) (e : exn) :
  prop usage "cost" = Ok cost ->
  coerce cost "total" = Throw e ->
  exists e', read_usage usage = Throw e'.
Proof.
  intros Hc He. unfold read_usage.
  destruct (coerce usage "input"); cbn [bind]; [|eauto].
  destruct (coerce usage "output"); cbn [bind]; [|eauto].
  destruct (coerce usage "cacheRead"); cbn [bind]; [|eauto].
  destruct (coerce usage "cacheWrite"); cbn [bind]; [|eauto].
  destruct (coerce usage "totalTokens"); cbn [bind]; [|eauto].
  rewrite Hc. cbn [bind]. rewrite He. cbn [bind]. eauto.
Qed.

(** An event whose numbers cannot be read is not aggregated: its turn of
    the loop raises. *)
Lemma process_raises (now : nat -> string) (st : State) (event : json) (e : exn) :
  included event = true ->
  read_usage (usage_of event) = Throw e ->
  exists e', process now st event = Throw e'.
Proof.
  intros Hin Hr. rewrite (process_included _ _ _ Hin).
  destruct (resolve_ts now (ticks st) event) as [r|]; cbn [bind]; [|eauto].
  destruct (String_ (fst r)) as [s|]; cbn [bind]; [|eauto].
  destruct (resolve_model event) as [[[| | |m| |]|]|]; cbn [bind]; eauto.
  rewrite Hr. cbn [bind]. eauto.
Qed.

(** C2, amended.  In an aggregated event a numeric sub-field that is missing
    or falsy ([null], [false], [0], the empty string) adds exactly zero, and
    adding zero leaves an accumulator as it is; a sub-field that is a truthy
    number adds that number, which is no NaN.  Any other truthy sub-field
    goes to [Number]: an object without a member named [toString] becomes
    NaN, and a sum that NaN is added to is NaN; an object with a member
    named [toString] makes [Number] raise a TypeError, and an event one of
    whose six sub-fields raises is not aggregated, its turn of the loop
    raises.  The six numbers read off an event that is aggregated are what
    the totals, the day and the model of the event each receive. *)
Theorem falsy_fields_add_zero (event : json) :
  included event = true ->
  exists usage cost,
    usage_of event = Some usage
    /\ get usage "cost" = Some cost
    /\ usage <> JNull /\ cost <> JNull
    /\ (forall o k, o <> JNull -> truthy (get o k) = false ->
                    coerce (Some o) k = Ok 0%float)
    /\ (forall o k x, get o k = Some (JNum x) -> truthy (Some (JNum x)) = true ->
                      coerce (Some o) k = Ok x /\ is_nan x = false)
    /\ (forall acc, Prim2SF acc = S754_zero true \/ (acc + 0)%float = acc)
    /\ (forall o k, o <> JNull -> truthy (get o k) = true ->
                    coerce (Some o) k = Number (get o k))
    /\ (forall members, has_key "toString" members = false ->
                        Number (Some (JObj members)) = Ok nan)
    /\ (forall members, has_key "toString" members = true ->
                        Number (Some (JObj members)) = Throw TypeError)
    /\ (forall x acc, is_nan x = true ->
                      is_nan (x + acc)%float = true
                      /\ is_nan (acc + x)%float = true)
    /\ (forall now st k e,
          In k ["input"; "output"; "cacheRead"; "cacheWrite"; "totalTokens"] ->
          coerce (Some usage) k = Throw e ->
          exists e', process now st event = Throw e')
    /\ (forall now st e,
          coerce (Some cost) "total" = Throw e ->
          exists e', process now st event = Throw e')
    /\ (forall now st st',
          process now st event = Ok st' ->
          exists u date m,
            coerce (Some usage) "input" = Ok (u_input u)
            /\ coerce (Some usage) "output" = Ok (u_output u)
            /\ coerce (Some usage) "cacheRead" = Ok (u_cacheRead u)
            /\ coerce (Some usage) "cacheWrite" = Ok (u_cacheWrite u)
            /\ coerce (Some usage) "totalTokens" = Ok (u_totalTokens u)
            /\ coerce (Some cost) "total" = Ok (u_cost u)
            /\ totals st' = add_totals (totals st) u
            /\ byDay st' = update_day (byDay st) date u
            /\ byModel st' = update_model (byModel st) m (providerFromModel m) u).
Proof.
  intros Hin.
  destruct (included_usage _ Hin) as (usage & cost & Hu & Hc & Hnu & Hnc).
  exists usage, cost.
  split; [exact Hu|]. split; [exact Hc|].
  split; [exact Hnu|]. split; [exact Hnc|].
  split; [apply coerce_falsy|].
  split; [apply coerce_number|].
  split; [apply add_zero_r|].
  split; [apply coerce_truthy|].
  split; [intros members Hm; simpl; now rewrite Hm|].
  split; [intros members Hm; simpl; now rewrite Hm|].
  split; [apply add_nan|].
  split.
  { intros now st k e Hk He.
    destruct (read_usage_raises _ _ _ Hk He) as [e' He'].
    apply (process_raises now st event e' Hin). now rewrite Hu. }
  split.
  { intros now st e He.
    assert (Hp : prop (Some usage) "cost" = Ok (Some cost)).
    { destruct (get_Some_object _ _ _ Hc) as [um ->]. now rewrite prop_object, Hc. }
    destruct (read_usage_raises_total _ _ _ Hp He) as [e' He'].
    apply (process_raises now st event e' Hin). now rewrite Hu. }
  intros now st st' Hp.
  destruct (process_included_inv _ _ _ _ Hin Hp)
    as (ts & n & s & m & u & _ & _ & _ & Hr & ->).
  rewrite Hu in Hr.
  destruct (read_usage_inv _ _ Hr) as (H1 & H2 & H3 & H4 & H5 & cost' & Hc' & H6).
  exists u, (slice_0_10 s), m. simpl.
  destruct (get_Some_object _ _ _ Hc) as [um ->].
  rewrite prop_object, Hc in Hc'. injection Hc' as <-.
  repeat split; assumption.
Qed.

(** ** Two runs over the same logs (lines 56-115) *)

Lemma process_ticks (now : nat -> string) (st st' : State) (event : json) :
  process now st event = Ok st' -> ticks st <= ticks st'.
Proof.
  destruct (included event) eqn:Hin.
  - intros Hp.
    destruct (process_included_inv _ _ _ _ Hin Hp)
      as (ts & n & s & m & u & Hts & _ & _ & _ & ->).
    simpl. destruct (included_message _ Hin) as (msg & Hm & Hnull).
    rewrite (resolve_ts_eq now (ticks st) _ _ Hm Hnull) in Hts.
    destruct (truthy (get event "timestamp")); [injection Hts as _ <-; lia|].
    destruct (truthy (get msg "timestamp")); injection Hts as _ <-; lia.
  - rewrite (process_excluded _ _ _ Hin). intros [= <-]. lia.
Qed.

Lemma process_all_ticks (now : nat -> string) (events : list json) (st st' : State) :
  process_all now st events = Ok st' -> ticks st <= ticks st'.
Proof.
  revert st. induction events as [|e events IH]; intros st; simpl.
  - intros [= <-]. lia.
  - destruct (process now st e) as [st1|] eqn:Hp; simpl; [|discriminate].
    intros H. apply process_ticks in Hp. apply IH in H. lia.
Qed.

Lemma process_clock (now1 now2 : nat -> string) (st st' : State) (event : json) :
  process now1 st event = Ok st' ->
  (forall i, ticks st <= i < ticks st' ->
             slice_0_10 (now1 i) = slice_0_10 (now2 i)) ->
  process now2 st event = Ok st'.
Proof.
  destruct (included event) eqn:Hin.
  - intros Hp Hclock. pose proof Hp as Hp'.
    rewrite (process_included now1 _ _ Hin) in Hp'.
    rewrite (process_included now2 _ _ Hin).
    destruct (included_message _ Hin) as (msg & Hm & Hnull).
    rewrite (resolve_ts_eq now1 (ticks st) _ _ Hm Hnull) in Hp'.
    rewrite (resolve_ts_eq now2 (ticks st) _ _ Hm Hnull).
    destruct (truthy (get event "timestamp")); [exact Hp'|].
    destruct (truthy (get msg "timestamp")); [exact Hp'|].
    simpl in Hp' |- *.
    destruct (resolve_model event) as [[[| | |m| |]|]|]; simpl in *;
      try discriminate Hp'.
    destruct (read_usage (usage_of event)) as [u|]; simpl in *;
      [|discriminate Hp'].
    injection Hp' as <-. simpl in Hclock.
    rewrite <- (Hclock (ticks st)) by lia. reflexivity.
  - rewrite !(process_excluded _ _ _ Hin). auto.
Qed.

Lemma process_all_clock (now1 now2 : nat -> string) (events : list json)
  (st st' : State) :
  process_all now1 st events = Ok st' ->
  (forall i, ticks st <= i < ticks st' ->
             slice_0_10 (now1 i) = slice_0_10 (now2 i)) ->
  process_all now2 st events = Ok st'.
Proof.
  revert st. induction events as [|e events IH]; intros st; simpl; [auto|].
  destruct (process now1 st e) as [st1|] eqn:Hp; simpl; [|discriminate].
  intros Hrest Hclock.
  pose proof (process_ticks _ _ _ _ Hp) as L1.
  pose proof (process_all_ticks _ _ _ _ Hrest) as L2.
  rewrite (process_clock now1 now2 _ _ _ Hp) by (intros; apply Hclock; lia).
  simpl. apply IH; [exact Hrest|]. intros; apply Hclock; lia.
Qed.

Lemma aggregate_ticks (w : World) (paths : list string) (st st' : State) :
  aggregate w st paths = Ok st' -> ticks st <= ticks st'.
Proof.
  revert st. induction paths as [|p paths IH]; intros st; simpl.
  - intros [= <-]. lia.
  - destruct (readFileSync w p) as [text|]; simpl; [|discriminate].
    destruct (process_all (now w) st (readJsonl text)) as [st1|] eqn:Hp; simpl;
      [|discriminate].
    intros H. apply process_all_ticks in Hp. apply IH in H. lia.
Qed.

Lemma aggregate_clock (w1 w2 : World) (paths : list string) (st st' : State) :
  (forall p, readFileSync w1 p = readFileSync w2 p) ->
  aggregate w1 st paths = Ok st' ->
  (forall i, ticks st <= i < ticks st' ->
             slice_0_10 (now w1 i) = slice_0_10 (now w2 i)) ->
  aggregate w2 st paths = Ok st'.
Proof.
  intros Hread. revert st.
  induction paths as [|p paths IH]; intros st; simpl; [auto|].
  rewrite <- Hread.
  destruct (readFileSync w1 p) as [text|]; simpl; [|discriminate].
  destruct (process_all (now w1) st (readJsonl text)) as [st1|] eqn:Hp; simpl;
    [|discriminate].
  intros Hrest Hclock.
  pose proof (process_all_ticks _ _ _ _ Hp) as L1.
  pose proof (aggregate_ticks _ _ _ _ Hrest) as L2.
  rewrite (process_all_clock _ (now w2) _ _ _ Hp) by (intros; apply Hclock; lia).
  simpl. apply IH; [exact Hrest|]. intros; apply Hclock; lia.
Qed.

Lemma process_dated (now : nat -> string) (st st' : State) (event : json) :
  (included event = true -> dated event = true) ->
  process now st event = Ok st' -> ticks st' = ticks st.
Proof.
  destruct (included event) eqn:Hin.
  - intros Hd Hp. specialize (Hd eq_refl).
    destruct (process_included_inv _ _ _ _ Hin Hp)
      as (ts & n & s & m & u & Hts & _ & _ & _ & ->).
    simpl. destruct (included_message _ Hin) as (msg & Hm & Hnull).
    rewrite (resolve_ts_eq now (ticks st) _ _ Hm Hnull) in Hts.
    unfold dated in Hd.
    destruct (get_Some_object _ _ _ Hm) as [em ->].
    rewrite optprop_object, Hm in Hd.
    assert (Ho : optprop (Some msg) "timestamp" = get msg "timestamp")
      by (destruct msg; try reflexivity; contradiction).
    rewrite Ho in Hd.
    destruct (truthy (get (JObj em) "timestamp")); [now injection Hts as _ <-|].
    destruct (truthy (get msg "timestamp")); [now injection Hts as _ <-|].
    discriminate Hd.
  - intros _. rewrite (process_excluded _ _ _ Hin). now intros [= <-].
Qed.

Lemma process_all_dated (now : nat -> string) (events : list json) (st st' : State) :
  Forall (fun e => included e = true -> dated e = true) events ->
  process_all now st events = Ok st' -> ticks st' = ticks st.
Proof.
  intros H. revert st. induction H as [|e events He _ IH]; intros st; simpl.
  - now intros [= <-].
  - destruct (process now st e) as [st1|] eqn:Hp; simpl; [|discriminate].
    intros Hrest. apply (process_dated _ _ _ _ He) in Hp. apply IH in Hrest.
    congruence.
Qed.

Lemma aggregate_dated (w : World) (paths : list string) (st st' : State) :
  (forall p text, In p paths -> readFileSync w p = Ok text ->
     Forall (fun e => included e = true -> dated e = true) (readJsonl text)) ->
  aggregate w st paths = Ok st' -> ticks st' = ticks st.
Proof.
  revert st. induction paths as [|p paths IH]; intros st Hd; simpl.
  - now intros [= <-].
  - destruct (readFileSync w p) as [text|] eqn:Ht; simpl; [|discriminate].
    destruct (process_all (now w) st (readJsonl text)) as [st1|] eqn:Hp; simpl;
      [|discriminate].
    intros Hrest.
    apply process_all_dated in Hp; [|apply (Hd p); [now left|exact Ht]].
    apply IH in Hrest; [congruence|].
    intros q t Hq. apply Hd. now right.
Qed.

(** C7, amended.  Two runs over the same logs that both read the clock alike,
    up to the first ten characters, for the events without a timestamp write
    payloads that differ in [generatedAt] at most; no such reading is taken
    when every aggregated event has a truthy timestamp of its own. *)
Theorem rerun_same_but_generatedAt (w1 w2 : World) (p1 : Payload) :
  same_logs w1 w2 ->
  run w1 = Wrote p1 ->
  ((forall i, i < clock_reads w1 ->
              slice_0_10 (now w1 i) = slice_0_10 (now w2 i)) ->
   exists p2, run w2 = Wrote p2 /\ same_but_generatedAt p1 p2)
  /\ ((forall p text, In p (files w1) -> readFileSync w1 p = Ok text ->
         Forall (fun e => included e = true -> dated e = true) (readJsonl text)) ->
      clock_reads w1 = 0
      /\ exists p2, run w2 = Wrote p2 /\ same_but_generatedAt p1 p2).
Proof.
  intros [Hdir Hread] Hrun.
  assert (Hfiles : files w2 = files w1) by (unfold files; now rewrite Hdir).
  assert (Hmain : (forall i, i < clock_reads w1 ->
                     slice_0_10 (now w1 i) = slice_0_10 (now w2 i)) ->
                  exists p2, run w2 = Wrote p2 /\ same_but_generatedAt p1 p2).
  { intros Hclock. unfold run, clock_reads in *. rewrite Hfiles.
    destruct (files w1) as [|f fs]; [discriminate Hrun|].
    destruct (aggregate w1 state0 (f :: fs)) as [st|] eqn:Ha; [|discriminate Hrun].
    rewrite (aggregate_clock w1 w2 _ _ _ Hread Ha)
      by (intros i Hi; apply Hclock; lia).
    injection Hrun as <-. eexists. split; [reflexivity|].
    unfold same_but_generatedAt. simpl. auto. }
  split; [exact Hmain|].
  intros Hd.
  assert (H0 : clock_reads w1 = 0).
  { unfold clock_reads.
    destruct (aggregate w1 state0 (files w1)) as [st|] eqn:Ha; [|reflexivity].
    apply (aggregate_dated _ _ _ _ Hd Ha). }
  split; [exact H0|]. apply Hmain. intros i Hi. lia.
Qed.

(** ** Binary64 numbers: the sign of a difference, and the order

    [b.cost - a.cost] is positive exactly when [a.cost < b.cost], as long as
    neither cost is NaN: a difference of two binary64 numbers is rounded,
    and no rounding turns a number that is not zero into zero or changes
    its sign. *)

Section Binary64.

Local Open Scope Z_scope.

Lemma shl_align_exponent (mx : positive) (ex ez lo : Z) :
  lo <= ex -> lo <= ez -> lo <= snd (shl_align mx ex ez).
Proof.
  intros H1 H2. unfold shl_align. destruct (ez - ex); simpl; lia.
Qed.

(** Right shifts keep a mantissa positive as long as it has bits left. *)
Lemma shr_1_m (mrs : shr_record) :
  0 <= shr_m mrs -> shr_m (shr_1 mrs) = shr_m mrs / 2.
Proof.
  destruct mrs as [m r s]. simpl shr_m. intros H.
  rewrite <- Z.div2_div.
  destruct m as [|[p|p|]|p]; try reflexivity. lia.
Qed.

Lemma iter_shr_1_lower (p : positive) :
  forall (mrs : shr_record) (k : Z),
    0 <= k -> 2 ^ (Zpos p + k) <= shr_m mrs ->
    2 ^ k <= shr_m (iter_pos shr_1 p mrs).
Proof.
  assert (Hstep : forall mrs k, 0 <= k -> 2 ^ (1 + k) <= shr_m mrs ->
                                2 ^ k <= shr_m (shr_1 mrs)).
  { intros mrs k Hk H.
    assert (0 < 2 ^ k) by (apply Z.pow_pos_nonneg; lia).
    replace (1 + k) with (Z.succ k) in H by lia.
    rewrite Z.pow_succ_r in H by lia.
    rewrite shr_1_m by lia.
    apply Z.div_le_lower_bound; lia. }
  induction p as [p IH|p IH|]; intros mrs k Hk H; simpl iter_pos.
  - apply IH; [lia|]. apply IH; [lia|]. apply Hstep; [lia|].
    replace (1 + (Zpos p + (Zpos p + k))) with (Zpos p~1 + k) by lia. exact H.
  - apply IH; [lia|]. apply IH; [lia|].
    replace (Zpos p + (Zpos p + k)) with (Zpos p~0 + k) by lia. exact H.
  - apply Hstep; [lia|exact H].
Qed.

Lemma shr_record_of_loc_m (m : Z) (l : location) :
  shr_m (shr_record_of_loc m l) = m.
Proof. destruct l as [|[]]; reflexivity. Qed.

Lemma shr_fexp_positive (m : positive) (e : Z) (l : location) :
  emin <= e ->
  0 < shr_m (fst (shr_fexp prec emax (Zpos m) e l))
  /\ emin <= snd (shr_fexp prec emax (Zpos m) e l).
Proof.
  intros He. unfold shr_fexp, shr, fexp, SpecFloat.emin, prec, emax in *.
  simpl Zdigits2.
  pose proof (digits2_pos_bounds m) as [Hlo _].
  set (d := Zpos (digits2_pos m)) in *.
  destruct (Z.max (d + e - 53) (3 - 1024 - 53) - e) as [|n|n] eqn:En; simpl fst; simpl snd.
  - rewrite shr_record_of_loc_m. lia.
  - split; [|lia].
    assert (Hn : Zpos n + 0 <= d - 1) by lia.
    assert (H1 : 2 ^ 0 <= shr_m (iter_pos shr_1 n (shr_record_of_loc (Zpos m) l))).
    { apply iter_shr_1_lower; [lia|].
      rewrite shr_record_of_loc_m.
      apply Z.le_trans with (2 ^ (d - 1)); [|exact Hlo].
      apply Z.pow_le_mono_r; lia. }
    simpl in H1. lia.
  - rewrite shr_record_of_loc_m. lia.
Qed.

Lemma round_nearest_even_ge (m : Z) (l : location) :
  m <= round_nearest_even m l.
Proof.
  destruct l as [|[]]; simpl; try lia. destruct (Z.even m); lia.
Qed.

Lemma binary_round_aux_positive (m : positive) (e : Z) (l : location) :
  emin <= e ->
  SFltb (S754_zero false) (binary_round_aux prec emax false (Zpos m) e l) = true.
Proof.
  intros He. unfold binary_round_aux.
  pose proof (shr_fexp_positive m e l He) as [H1 H2].
  destruct (shr_fexp prec emax (Zpos m) e l) as [mrs' e']. simpl fst in *; simpl snd in *.
  pose proof (round_nearest_even_ge (shr_m mrs') (loc_of_shr_record mrs')) as Hr.
  destruct (round_nearest_even (shr_m mrs') (loc_of_shr_record mrs')) as [|m2|m2];
    try lia.
  pose proof (shr_fexp_positive m2 e' loc_Exact H2) as [H3 _].
  destruct (shr_fexp prec emax (Zpos m2) e' loc_Exact) as [mrs'' e''].
  simpl fst in *.
  destruct (shr_m mrs'') as [|m3|m3]; try lia.
  destruct (e'' <=? emax - prec); reflexivity.
Qed.

Lemma binary_round_aux_negative (m e : Z) (l : location) :
  SFltb (S754_zero false) (binary_round_aux prec emax true m e l) = false.
Proof.
  unfold binary_round_aux.
  destruct (shr_fexp prec emax m e l) as [mrs' e'].
  destruct (shr_fexp prec emax _ e' loc_Exact) as [mrs'' e''].
  destruct (shr_m mrs''); try reflexivity.
  destruct (e'' <=? emax - prec); reflexivity.
Qed.

Lemma binary_normalize_sign (D e : Z) :
  emin <= e ->
  SFltb (S754_zero false) (binary_normalize prec emax D e false) = (0 <? D).
Proof.
  intros He. destruct D as [|m|m]; simpl binary_normalize.
  - reflexivity.
  - unfold binary_round.
    pose proof (shl_align_exponent m e (fexp prec emax (Zpos (digits2_pos m) + e)) emin He) as Hx.
    destruct (shl_align m e (fexp prec emax (Zpos (digits2_pos m) + e))) as [mz ez].
    simpl snd in Hx.
    apply binary_round_aux_positive. apply Hx.
    unfold fexp. lia.
  - unfold binary_round.
    destruct (shl_align m e (fexp prec emax (Zpos (digits2_pos m) + e))) as [mz ez].
    apply binary_round_aux_negative.
Qed.


Lemma bounded_canonical (m : positive) (e : Z) :
  bounded prec emax m e = true ->
  emin <= e
  /\ Zpos (digits2_pos m) <= 53
  /\ (emin < e -> Zpos (digits2_pos m) = 53).
Proof.
  unfold bounded, canonical_mantissa, fexp, SpecFloat.emin, prec, emax.
  intros H. apply andb_true_iff in H. destruct H as [H _].
  apply Z.eqb_eq in H. lia.
Qed.

(** On canonical mantissas the order of the values is the order of the
    exponents, then of the mantissas. *)
Lemma scaled_compare (m1 m2 : positive) (e1 e2 : Z) :
  bounded prec emax m1 e1 = true ->
  bounded prec emax m2 e2 = true ->
  (Zpos m1 * 2 ^ (e1 - Z.min e1 e2) ?= Zpos m2 * 2 ^ (e2 - Z.min e1 e2))
  = match e1 ?= e2 with
    | Lt => Lt
    | Gt => Gt
    | Eq => Pos.compare m1 m2
    end.
Proof.
  intros B1 B2.
  destruct (bounded_canonical _ _ B1) as (L1 & D1 & N1).
  destruct (bounded_canonical _ _ B2) as (L2 & D2 & N2).
  pose proof (digits2_pos_bounds m1) as [Lo1 Hi1].
  pose proof (digits2_pos_bounds m2) as [Lo2 Hi2].
  assert (P53 : forall d, d <= 53 -> 2 ^ d <= 2 ^ 53)
    by (intros d Hd; apply Z.pow_le_mono_r; lia).
  assert (Two : forall k, 0 < k -> 2 <= 2 ^ k).
  { intros k Hk. change 2 with (2 ^ 1) at 1. apply Z.pow_le_mono_r; lia. }
  destruct (Z.compare_spec e1 e2) as [E|E|E].
  - subst e2. rewrite Z.min_id, Z.sub_diag. simpl Z.pow.
    rewrite !Z.mul_1_r. reflexivity.
  - rewrite Z.min_l, Z.sub_diag by lia. simpl Z.pow. rewrite Z.mul_1_r.
    apply Z.compare_lt_iff.
    specialize (N2 ltac:(lia)). rewrite N2 in Lo2.
    specialize (P53 _ D1). specialize (Two (e2 - e1) ltac:(lia)).
    change (2 ^ (53 - 1)) with 4503599627370496 in Lo2.
    change (2 ^ 53) with 9007199254740992 in P53.
    set (a := 2 ^ Zpos (digits2_pos m1)) in *. clearbody a.
    set (b := 2 ^ (e2 - e1)) in *. clearbody b. nia.
  - rewrite Z.min_r, Z.sub_diag by lia. simpl Z.pow. rewrite Z.mul_1_r.
    apply Z.compare_gt_iff.
    specialize (N1 ltac:(lia)). rewrite N1 in Lo1.
    specialize (P53 _ D2). specialize (Two (e1 - e2) ltac:(lia)).
    change (2 ^ (53 - 1)) with 4503599627370496 in Lo1.
    change (2 ^ 53) with 9007199254740992 in P53.
    set (a := 2 ^ Zpos (digits2_pos m2)) in *. clearbody a.
    set (b := 2 ^ (e1 - e2)) in *. clearbody b. nia.
Qed.

(** The sign of a difference of two numbers is their order. *)
Lemma SFsub_sign (x y : spec_float) :
  valid_binary x = true ->
  valid_binary y = true ->
  x <> S754_nan -> y <> S754_nan ->
  SFltb (S754_zero false) (SF64sub y x) = SFltb x y.
Proof.
  intros Vx Vy Nx Ny.
  destruct x as [sx|sx| |sx mx ex]; [| |contradiction|];
    (destruct y as [sy|sy| |sy my ey]; [| |contradiction|]);
    try (destruct sx, sy; reflexivity);
    try (destruct sx; reflexivity);
    try (destruct sy; reflexivity).
  simpl in Vx, Vy.
  destruct (bounded_canonical _ _ Vx) as (Lx & _).
  destruct (bounded_canonical _ _ Vy) as (Ly & _).
  unfold SF64sub, SFsub.
  rewrite binary_normalize_sign by lia.
  rewrite !shl_align_value by lia.
  pose proof (scaled_compare mx my ex ey Vx Vy) as Hc.
  rewrite (Z.min_comm ey ex).
  set (X := Zpos mx * 2 ^ (ex - Z.min ex ey)) in *.
  set (Y := Zpos my * 2 ^ (ey - Z.min ex ey)) in *.
  assert (HX : 0 < X) by (apply Z.mul_pos_pos; [lia|apply Z.pow_pos_nonneg; lia]).
  assert (HY : 0 < Y) by (apply Z.mul_pos_pos; [lia|apply Z.pow_pos_nonneg; lia]).
  clearbody X Y.
  unfold SFltb, SFcompare.
  change (Pos.compare_cont Eq mx my) with (Pos.compare mx my).
  assert (Hopp : match ex ?= ey with
                 | Lt => Gt
                 | Gt => Lt
                 | Eq => CompOpp (Pos.compare mx my)
                 end = CompOpp (X ?= Y))
    by (rewrite Hc; destruct (ex ?= ey); reflexivity).
  destruct sx, sy; simpl cond_Zopp; cbv iota.
  - rewrite Hopp.
    destruct (Z.compare_spec X Y); simpl;
      first [apply Z.ltb_lt; lia | apply Z.ltb_ge; lia].
  - apply Z.ltb_lt. lia.
  - apply Z.ltb_ge. lia.
  - rewrite <- Hc.
    destruct (Z.compare_spec X Y); simpl;
      first [apply Z.ltb_lt; lia | apply Z.ltb_ge; lia].
Qed.


Ltac compare_cases :=
  change (Pos.compare_cont Eq) with Pos.compare;
  repeat match goal with
         | |- context [Z.compare ?a ?b] => destruct (Z.compare_spec a b)
         | |- context [Pos.compare ?a ?b] => destruct (Pos.compare_spec a b)
         end;
  simpl; intros; subst; try discriminate; try reflexivity; try lia.

Lemma SFleb_trans (x y z : spec_float) :
  SFleb x y = true -> SFleb y z = true -> SFleb x z = true.
Proof.
  unfold SFleb, SFcompare.
  destruct x as [[]|[]| |[] mx ex], y as [[]|[]| |[] my ey],
           z as [[]|[]| |[] mz ez];
    try (simpl; intros; (discriminate || reflexivity)); compare_cases.
Qed.

Lemma SFltb_false_leb (x y : spec_float) :
  x <> S754_nan -> y <> S754_nan -> SFltb x y = false -> SFleb y x = true.
Proof.
  unfold SFleb, SFltb, SFcompare.
  destruct x as [[]|[]| |[] mx ex], y as [[]|[]| |[] my ey];
    try (simpl; intros; (discriminate || reflexivity || contradiction));
    intros _ _; compare_cases.
Qed.

Lemma SFltb_leb (x y : spec_float) : SFltb x y = true -> SFleb x y = true.
Proof.
  unfold SFleb, SFltb. destruct (SFcompare x y) as [[]|]; auto.
Qed.

Lemma SFeqb_not_ltb (x y c : spec_float) :
  SFeqb x c = true -> SFeqb y c = true -> SFltb x y = false.
Proof.
  unfold SFeqb, SFltb, SFcompare.
  destruct x as [[]|[]| |[] mx ex], y as [[]|[]| |[] my ey],
           c as [[]|[]| |[] mc ec];
    try (simpl; intros; (discriminate || reflexivity)); compare_cases.
Qed.


End Binary64.

(** The same facts on the numbers of the script. *)

Lemma not_nan_spec (x : float) : is_nan x = false -> Prim2SF x <> S754_nan.
Proof.
  unfold is_nan. rewrite FloatAxioms.eqb_spec. intros H E. rewrite E in H. discriminate H.
Qed.

Lemma float_sub_sign (x y : float) :
  is_nan x = false -> is_nan y = false ->
  (0 <? y - x)%float = (x <? y)%float.
Proof.
  intros Hx Hy. rewrite !FloatAxioms.ltb_spec, FloatAxioms.sub_spec.
  change (Prim2SF 0) with (S754_zero false).
  apply SFsub_sign; auto using Prim2SF_valid, not_nan_spec.
Qed.

Lemma float_leb_trans (x y z : float) :
  (x <=? y)%float = true -> (y <=? z)%float = true -> (x <=? z)%float = true.
Proof. rewrite !FloatAxioms.leb_spec. apply SFleb_trans. Qed.

Lemma float_ltb_false_leb (x y : float) :
  is_nan x = false -> is_nan y = false ->
  (x <? y)%float = false -> (y <=? x)%float = true.
Proof.
  intros Hx Hy. rewrite FloatAxioms.ltb_spec, FloatAxioms.leb_spec.
  apply SFltb_false_leb; auto using not_nan_spec.
Qed.

Lemma float_ltb_leb (x y : float) :
  (x <? y)%float = true -> (x <=? y)%float = true.
Proof. rewrite FloatAxioms.ltb_spec, FloatAxioms.leb_spec. apply SFltb_leb. Qed.



Lemma float_eqb_not_ltb (x y c : float) :
  (x =? c)%float = true -> (y =? c)%float = true -> (x <? y)%float = false.
Proof. rewrite !FloatAxioms.eqb_spec, FloatAxioms.ltb_spec. apply SFeqb_not_ltb. Qed.


(** ** The code unit order of strings is transitive *)



(** ** Sorting (lines 113-114) *)

Section SortFacts.

Variable A : Type.
Variable comparefn : A -> A -> float.

Lemma insert_perm (x : A) (l : list A) :
  Permutation (insert comparefn x l) (x :: l).
Proof.
  induction l as [|y l IH]; simpl; [reflexivity|].
  destruct (sorts_after comparefn x y); [|reflexivity].
  rewrite IH. apply perm_swap.
Qed.

Lemma sort_perm (l : list A) : Permutation (sort comparefn l) l.
Proof.
  induction l as [|x l IH]; simpl; [reflexivity|].
  rewrite insert_perm. now constructor.
Qed.

(** The elements the comparator is consistent on, and the order it then
    decides. *)
Variable P : A -> Prop.
Variable le : A -> A -> Prop.

Hypothesis sorts_after_le :
  forall x y, P x -> P y -> sorts_after comparefn x y = true -> le y x.
Hypothesis stays_before_le :
  forall x y, P x -> P y -> sorts_after comparefn x y = false -> le x y.
Hypothesis le_trans : forall x y z, le x y -> le y z -> le x z.

Lemma insert_sorted (x : A) (l : list A) :
  P x -> Forall P l -> StronglySorted le l ->
  StronglySorted le (insert comparefn x l).
Proof.
  intros Px Pl Hs. induction Hs as [|y l Hs IH Hy]; simpl.
  - repeat constructor.
  - inversion Pl as [|? ? Py Pl']; subst.
    destruct (sorts_after comparefn x y) eqn:E.
    + constructor; [now apply IH|].
      rewrite insert_perm.
      constructor; [now apply sorts_after_le|exact Hy].
    + constructor; [now constructor|].
      assert (Hxy : le x y) by now apply stays_before_le.
      constructor; [exact Hxy|].
      eapply Forall_impl; [|exact Hy]. intros z Hz. now apply (le_trans x y z).
Qed.

Lemma sort_sorted (l : list A) :
  Forall P l -> StronglySorted le (sort comparefn l).
Proof.
  induction 1 as [|x l Px Pl IH]; simpl; [constructor|].
  apply insert_sorted; [exact Px| |exact IH].
  now rewrite sort_perm.
Qed.

(** Stability: elements of one class, none of which sorts after another,
    keep their order. *)
Variable same : A -> bool.

Hypothesis same_tie :
  forall x y, P x -> P y -> same x = true -> same y = true ->
              sorts_after comparefn x y = false.

Lemma insert_filter (x : A) (l : list A) :
  P x -> Forall P l ->
  filter same (insert comparefn x l) = filter same (x :: l).
Proof.
  intros Px Pl. induction Pl as [|y l Py Pl IH]; simpl; [reflexivity|].
  destruct (sorts_after comparefn x y) eqn:E; [|reflexivity].
  simpl. rewrite IH. simpl.
  destruct (same x) eqn:Sx, (same y) eqn:Sy; try reflexivity.
  rewrite (same_tie x y Px Py Sx Sy) in E. discriminate E.
Qed.

Lemma sort_filter (l : list A) :
  Forall P l -> filter same (sort comparefn l) = filter same l.
Proof.
  induction 1 as [|x l Px Pl IH]; simpl; [reflexivity|].
  rewrite insert_filter; [simpl; now rewrite IH|exact Px|].
  now rewrite sort_perm.
Qed.

End SortFacts.

(** ** The order of discovery (lines 91-105) *)

Lemma Map_keys_set {V : Type} (m : Map V) (k : string) (v : V) :
  Map_keys (Map_set m k v) = add_key (Map_keys m) k.
Proof.
  unfold add_key, Map_keys. induction m as [|[k' v'] m IH]; simpl; [reflexivity|].
  destruct (k' =? k) eqn:E; simpl; [reflexivity|].
  rewrite IH. destruct (existsb (fun k'0 => k'0 =? k) (map fst m)); reflexivity.
Qed.

Lemma keyed_values {V : Type} (name : V -> string) (m : Map V) :
  keyed name m -> map name (Map_values m) = Map_keys m.
Proof.
  unfold Map_values, Map_keys. induction 1 as [|[k v] m H _ IH]; simpl;
    [reflexivity|]. simpl in H. now rewrite H, IH.
Qed.

Lemma Map_get_keyed {V : Type} (name : V -> string) (m : Map V) (k : string) (v : V) :
  keyed name m -> Map_get m k = Some v -> name v = k.
Proof.
  induction 1 as [|[k' v'] m H _ IH]; simpl; [discriminate|].
  destruct (k' =? k) eqn:E; [|exact IH].
  apply String.eqb_eq in E. intros [= <-]. simpl in H. congruence.
Qed.

Lemma Map_set_keyed {V : Type} (name : V -> string) (m : Map V) (k : string) (v : V) :
  keyed name m -> name v = k -> keyed name (Map_set m k v).
Proof.
  intros Hm Hv. induction Hm as [|[k' v'] m H Hm IH]; simpl.
  - repeat constructor. exact Hv.
  - destruct (k' =? k) eqn:E.
    + apply String.eqb_eq in E. subst k'. constructor; [exact Hv|exact Hm].
    + constructor; [exact H|exact IH].
Qed.


Lemma update_model_keyed (m : Map Model.t) (model provider : string) (u : Usage) :
  keyed Model.model m -> keyed Model.model (update_model m model provider u).
Proof.
  intros Hm. unfold update_model. apply Map_set_keyed; [exact Hm|].
  destruct (Map_get m model) as [a|] eqn:E; simpl; [|reflexivity].
  now apply (Map_get_keyed Model.model m).
Qed.

Lemma update_day_keyed (m : Map Daily.t) (date : string) (u : Usage) :
  keyed Daily.date m -> keyed Daily.date (update_day m date u).
Proof.
  intros Hm. unfold update_day. apply Map_set_keyed; [exact Hm|].
  destruct (Map_get m date) as [d|] eqn:E; simpl; [|reflexivity].
  now apply (Map_get_keyed Daily.date m).
Qed.





(** ** The order of the payload (lines 109-115) *)


Lemma sorts_after_by_cost (a b : Model.t) :
  is_nan (Model.cost a) = false -> is_nan (Model.cost b) = false ->
  sorts_after by_cost_desc a b = (Model.cost a <? Model.cost b)%float.
Proof. intros Ha Hb. unfold sorts_after, by_cost_desc. now apply float_sub_sign. Qed.

Lemma models_sorted (l : list Model.t) :
  Forall (fun m => is_nan (Model.cost m) = false) l ->
  StronglySorted cost_ge (sort by_cost_desc l)
  /\ forall c, filter (fun m => (Model.cost m =? c)%float) (sort by_cost_desc l)
               = filter (fun m => (Model.cost m =? c)%float) l.
Proof.
  intros Hl. split.
  - apply sort_sorted with (P := fun m => is_nan (Model.cost m) = false);
      [| | |exact Hl]; unfold cost_ge.
    + intros x y Hx Hy. rewrite sorts_after_by_cost by assumption.
      apply float_ltb_leb.
    + intros x y Hx Hy. rewrite sorts_after_by_cost by assumption.
      now apply float_ltb_false_leb.
    + intros x y z Hxy Hyz. now apply (float_leb_trans _ (Model.cost y)).
  - intros c.
    apply sort_filter with (P := fun m => is_nan (Model.cost m) = false);
      [|exact Hl].
    intros x y Hx Hy Sx Sy. rewrite sorts_after_by_cost by assumption.
    now apply (float_eqb_not_ltb _ _ c).
Qed.







End Properties.

(** * The properties on the sample logs *)

(** The scenario of the specification: two calls on 2026-02-20, of
    [anthropic/claude-3] for 1.5 and of [openai/gpt-4] for 2.25, in a log
    that also holds a blank line and a torn one. *)
Example scenario_of_the_specification :
  @run Sample.builtins
    (Sample.world [Sample.line_claude; ""; Sample.line_torn; Sample.line_gpt]
                  Sample.clock_feb21 None)
  = Wrote
      (mkPayload "2026-02-21T08:00:00.000Z"
         "openclaw session jsonl usage records"
         (Totals.mk 2 400 70 0 0 470 3.75)
         [Daily.mk "2026-02-20" 2 400 70 470 3.75]
         [Model.mk "openai/gpt-4" "OpenAI" 1 300 50 350 2.25;
          Model.mk "anthropic/claude-3" "Anthropic" 1 100 20 120 1.5]).
Proof. reflexivity. Qed.

Example readJsonl_sample :
  @readJsonl Sample.builtins
    (unlines [Sample.line_claude; "   "; Sample.line_torn; Sample.line_gpt; ""])
  = [Sample.event_claude; Sample.event_gpt].
Proof. reflexivity. Qed.

Example absent_directory_keeps_the_document (before : option Payload) :
  @run Sample.builtins
    (mkWorld None (fun _ => Throw IOError) Sample.clock_feb21 before) = Exited
  /\ @published_after Sample.builtins
       (mkWorld None (fun _ => Throw IOError) Sample.clock_feb21 before) = before.
Proof. split; reflexivity. Qed.

Example non_string_model_raises :
  @process Sample.builtins Sample.clock_feb21 state0
    (JObj [("message", JObj [("model", JNum 5);
                             ("usage", JObj [("cost", JObj [])])])])
  = Throw TypeError.
Proof. reflexivity. Qed.

(** An object that has a member named [toString] is no number and no NaN:
    [Number] raises, and so does the turn of the loop. *)
Example toString_member_raises :
  @Number Sample.builtins (Some (JObj [("toString", JNum 1)])) = Throw TypeError
  /\ @process Sample.builtins Sample.clock_feb21 state0
       (JObj [("message",
               JObj [("model", JStr "xai/grok");
                     ("usage", JObj [("input", JObj [("toString", JNum 1)]);
                                     ("cost", JObj [("total", JNum 1)])])])])
     = Throw TypeError.
Proof. split; reflexivity. Qed.

(** C1 as the specification states it fails on a sessions directory that
    exists and holds no [.jsonl] file: the run exits early and writes
    nothing. *)
Lemma existing_directory_without_logs_exits :
  readdirSync (Sample.world_without_logs None) = Some ["notes.txt"]
  /\ @run Sample.builtins (Sample.world_without_logs None) = Exited
  /\ emitted (@run Sample.builtins (Sample.world_without_logs None)) = []
  /\ ~ (@run Sample.builtins (Sample.world_without_logs None) = Exited
        <-> readdirSync (Sample.world_without_logs None) = None).
Proof.
  repeat split. intros [H _]. specialize (H eq_refl). discriminate H.
Qed.

(** C2 as the specification states it fails on an [input] that is an object:
    it is no number, and it adds NaN, not zero. *)
Lemma object_field_adds_nan :
  included Sample.event_object_input = true
  /\ (exists usage,
        usage_of Sample.event_object_input = Some usage
        /\ non_numeric (get usage "input")
        /\ @coerce Sample.builtins (Some usage) "input" = Ok nan
        /\ @coerce Sample.builtins (Some usage) "input" <> Ok 0%float)
  /\ (exists st',
        @process Sample.builtins Sample.clock_feb21 state0 Sample.event_object_input
        = Ok st'
        /\ is_nan (Totals.inputTokens (totals st')) = true).
Proof.
  split; [reflexivity|]. split.
  - eexists. split; [reflexivity|]. split; [|split].
    + intros x. discriminate.
    + reflexivity.
    + intros H.
      apply (f_equal (fun r => match r with
                               | Ok x => is_nan x
                               | Throw _ => false
                               end)) in H.
      vm_compute in H. discriminate H.
  - eexists. split; reflexivity.
Qed.

(** C2, amended, on the sample call without [cacheRead]. *)
Lemma falsy_fields_add_zero_sample :
  included Sample.event_bare = true
  /\ @coerce Sample.builtins (usage_of Sample.event_bare) "cacheRead" = Ok 0%float.
Proof.
  split; [reflexivity|].
  destruct (@falsy_fields_add_zero Sample.builtins Sample.event_bare eq_refl)
    as (usage & cost & Hu & _ & Hnull & _ & Hk & _).
  rewrite Hu. apply Hk; [exact Hnull|].
  injection Hu as <-. reflexivity.
Defined.

(** C3 as the specification states it fails whichever way its words are
    read.  An event whose [cost] is a non-zero number carries no [cost]
    object, and it is counted; an event whose [cost] is zero has a [usage]
    and a [cost], and it is not counted. *)
Lemma number_cost_is_counted :
  (exists st',
     @process_all Sample.builtins Sample.clock_feb21 state0 [Sample.event_flat_cost]
     = Ok st'
     /\ Totals.calls (totals st') = 1%float
     /\ length (filter carries_usage_and_cost [Sample.event_flat_cost]) = 0)
  /\ (exists st',
        @process_all Sample.builtins Sample.clock_feb21 state0 [Sample.event_zero_cost]
        = Ok st'
        /\ Totals.calls (totals st') = 0%float
        /\ length (filter has_usage_and_cost [Sample.event_zero_cost]) = 1).
Proof. split; eexists; repeat split. Qed.

(** C3, amended, on the two sample calls of 2026-02-20 and a [null] row. *)
Lemma totals_are_sums_sample :
  exists st',
    @process_all Sample.builtins Sample.clock_feb21 state0
      [Sample.event_claude; JNull; Sample.event_gpt] = Ok st'
    /\ Totals.calls (totals st') = 2%float
    /\ whole_number (Totals.calls (totals st')) = Some 2%Z
    /\ Totals.cost (totals st') = 3.75%float.
Proof.
  eexists. split; [reflexivity|].
  destruct (@totals_are_sums Sample.builtins Sample.clock_feb21
              [Sample.event_claude; JNull; Sample.event_gpt] _ eq_refl)
    as ((us & Hus & Hcalls & Hwhole & _) & _).
  split; [exact Hcalls|]. split; [apply Hwhole; reflexivity|reflexivity].
Defined.

(** C7 as the specification states it fails on a log with an event that has
    no timestamp: run on two days, it is counted under two dates. *)
Lemma undated_event_follows_the_clock :
  same_logs (Sample.world [Sample.line_bare] Sample.clock_feb21 None)
            (Sample.world [Sample.line_bare] Sample.clock_feb22 None)
  /\ exists p1 p2,
       @run Sample.builtins (Sample.world [Sample.line_bare] Sample.clock_feb21 None)
       = Wrote p1
       /\ @run Sample.builtins (Sample.world [Sample.line_bare] Sample.clock_feb22 None)
          = Wrote p2
       /\ map Daily.date (daily p1) = ["2026-02-21"]
       /\ map Daily.date (daily p2) = ["2026-02-22"]
       /\ ~ same_but_generatedAt p1 p2.
Proof.
  split; [split; reflexivity|].
  eexists. eexists. split; [reflexivity|]. split; [reflexivity|].
  split; [reflexivity|]. split; [reflexivity|].
  intros (_ & _ & H & _). discriminate H.
Qed.

(** C7, amended, on a log of dated calls run on two days. *)
Lemma rerun_same_but_generatedAt_sample :
  exists p1 p2,
    @run Sample.builtins
      (Sample.world [Sample.line_claude; Sample.line_torn; Sample.line_gpt]
                    Sample.clock_feb21 None) = Wrote p1
    /\ @run Sample.builtins
         (Sample.world [Sample.line_claude; Sample.line_torn; Sample.line_gpt]
                       Sample.clock_feb22 None) = Wrote p2
    /\ same_but_generatedAt p1 p2.
Proof.
  eexists.
  destruct (@rerun_same_but_generatedAt Sample.builtins
              (Sample.world [Sample.line_claude; Sample.line_torn; Sample.line_gpt]
                            Sample.clock_feb21 None)
              (Sample.world [Sample.line_claude; Sample.line_torn; Sample.line_gpt]
                            Sample.clock_feb22 None)
              _ (conj eq_refl (fun _ => eq_refl)) eq_refl) as [H _].
  destruct H as (p2 & Hrun & Hsame).
  - intros i Hi. vm_compute in Hi. lia.
  - exists p2. split; [reflexivity|]. split; assumption.
Defined.

(** C9 on the sample call that names its model under [modelId]. *)
Lemma model_resolution_sample :
  included Sample.event_bare = true
  /\ resolve_model Sample.event_bare = Ok (Some (JStr "google/gemini")).
Proof.
  split; [reflexivity|].
  destruct (@model_resolution Sample.builtins Sample.event_bare eq_refl)
    as (msg & Hm & _ & Hid & _).
  injection Hm as <-.
  apply Hid; [reflexivity|reflexivity|discriminate].
Defined.

(** C10 on the sample call without a timestamp. *)
Lemma date_resolution_sample :
  included Sample.event_bare = true
  /\ resolve_ts Sample.clock_feb21 0 Sample.event_bare
     = Ok (Some (JStr "2026-02-21T08:00:00.000Z"), 1).
Proof.
  split; [reflexivity|].
  destruct (@date_resolution Sample.builtins Sample.clock_feb21 0
              Sample.event_bare eq_refl) as (msg & Hm & Hts & _).
  injection Hm as <-. exact Hts.
Defined.



(** * Further properties *)

(** ** The listing (lines 31-36) *)

Lemma endsWith_refl (s : string) : endsWith s s = true.
Proof. destruct s; cbn [endsWith]; now rewrite String.eqb_refl. Qed.

Lemma endsWith_spec (s suffix : string) :
  endsWith s suffix = true <-> exists stem, s = (stem ++ suffix)%string.
Proof.
  split.
  - induction s as [|c s IH]; cbn [endsWith].
    + rewrite orb_false_r. intros H. apply String.eqb_eq in H. now exists "".
    + intros H. apply orb_prop in H. destruct H as [H|H].
      * apply String.eqb_eq in H. now exists "".
      * destruct (IH H) as [stem ->]. now exists (String c stem).
  - intros [stem ->]. induction stem as [|c stem IH].
    + apply endsWith_refl.
    + cbn [append endsWith]. rewrite IH. apply orb_true_r.
Qed.

Lemma append_inj_l (a b c : string) : (a ++ b)%string = (a ++ c)%string -> b = c.
Proof. induction a as [|x a IH]; simpl; [auto|]. intros [= H]. now apply IH. Qed.

Lemma NoDup_map_injective {A B : Type} (f : A -> B) (l : list A) :
  (forall x y, f x = f y -> x = y) -> NoDup l -> NoDup (map f l).
Proof.
  intros Hf. induction 1 as [|x l Hx _ IH]; simpl; constructor; [|exact IH].
  intros Hin. apply in_map_iff in Hin. destruct Hin as (y & Hy & Hin).
  apply Hf in Hy. now subst.
Qed.

Section Listing.

Context {js : Builtins}.

Lemma aggregate_ext (w1 w2 : World) (paths : list string) :
  readFileSync w1 = readFileSync w2 -> now w1 = now w2 ->
  forall st, aggregate w1 st paths = aggregate w2 st paths.
Proof.
  intros Hr Hn. induction paths as [|q paths IH]; intros st; [reflexivity|].
  cbn [aggregate]. rewrite Hr, Hn.
  destruct (readFileSync w2 q) as [text|]; [|reflexivity]. cbn [bind].
  destruct (process_all (now w2) st (readJsonl text)); [|reflexivity].
  cbn [bind]. apply IH.
Qed.

(** Filtering keeps the order of what it keeps. *)
Lemma filter_order {A : Type} (keep : A -> bool) (l : list A) :
  forall i j x y,
    i < j ->
    nth_error (filter keep l) i = Some x ->
    nth_error (filter keep l) j = Some y ->
    exists i' j', i' < j' /\ nth_error l i' = Some x /\ nth_error l j' = Some y.
Proof.
  induction l as [|a l IH]; intros i j x y Hij Hx Hy.
  - destruct i; discriminate Hx.
  - cbn [filter] in Hx, Hy. destruct (keep a).
    + destruct j as [|j]; [lia|]. cbn [nth_error] in Hy. destruct i as [|i].
      * injection Hx as <-. apply nth_error_In, filter_In in Hy.
        destruct Hy as [Hy _]. apply In_nth_error in Hy. destruct Hy as [j' Hj'].
        exists 0, (S j'). split; [lia|]. split; [reflexivity|exact Hj'].
      * cbn [nth_error] in Hx.
        destruct (IH i j x y ltac:(lia) Hx Hy) as (i' & j' & H & Hi' & Hj').
        exists (S i'), (S j'). split; [lia|]. split; assumption.
    + destruct (IH i j x y Hij Hx Hy) as (i' & j' & H & Hi' & Hj').
      exists (S i'), (S j'). split; [lia|]. split; assumption.
Qed.

(** X1.  The logs of a run are the entries of the sessions directory whose
    names end in [.jsonl], each under the path of the directory and read
    once, in the order of the listing: of two logs the one read first is
    listed first.  An entry with another name has no part in the run. *)
Theorem files_listed (w : World) (names : list string) :
  readdirSync w = Some names ->
  (forall p, In p (files w)
             <-> exists stem, In (stem ++ ".jsonl")%string names
                              /\ p = (sessionsDir ++ "/" ++ stem ++ ".jsonl")%string)
  /\ (NoDup names -> NoDup (files w))
  /\ length (files w) <= length names
  /\ (forall f, endsWith f ".jsonl" = false ->
                run (mkWorld (Some (filter (fun g => negb (g =? f)) names))
                             (readFileSync w) (now w) (published w))
                = run w)
  /\ files w
     = map (fun f => (sessionsDir ++ "/" ++ f)%string)
           (filter (fun f => endsWith f ".jsonl") names)
  /\ (forall i j p q,
        i < j ->
        nth_error (files w) i = Some p ->
        nth_error (files w) j = Some q ->
        exists i' j' f g,
          i' < j'
          /\ nth_error names i' = Some f /\ nth_error names j' = Some g
          /\ p = (sessionsDir ++ "/" ++ f)%string
          /\ q = (sessionsDir ++ "/" ++ g)%string).
Proof.
  intros Hn. split; [|split; [|split; [|split; [|split]]]].
  5: { unfold files. now rewrite Hn. }
  5: { unfold files. rewrite Hn. intros i j p q Hij Hp Hq.
       rewrite nth_error_map in Hp, Hq.
       destruct (nth_error (filter (fun f => endsWith f ".jsonl") names) i)
         as [f|] eqn:Hf; [|discriminate Hp].
       destruct (nth_error (filter (fun f => endsWith f ".jsonl") names) j)
         as [g|] eqn:Hg; [|discriminate Hq].
       injection Hp as <-. injection Hq as <-.
       destruct (filter_order _ _ _ _ _ _ Hij Hf Hg) as (i' & j' & H & Hi' & Hj').
       exists i', j', f, g. repeat split; assumption. }
  - unfold files. rewrite Hn. intros p. rewrite in_map_iff. split.
    + intros (f & <- & Hf). apply filter_In in Hf. destruct Hf as [Hf He].
      apply endsWith_spec in He. destruct He as [stem ->]. now exists stem.
    + intros (stem & Hin & ->). exists (stem ++ ".jsonl")%string.
      split; [reflexivity|]. apply filter_In. split; [exact Hin|].
      apply endsWith_spec. now exists stem.
  - unfold files. rewrite Hn. intros Hnd. apply NoDup_map_injective.
    + intros x y H. unfold path_join in H. apply append_inj_l in H.
      now injection H.
    + now apply NoDup_filter.
  - unfold files. rewrite Hn, length_map. apply filter_length_le.
  - intros f Hf.
    set (w' := mkWorld (Some (filter (fun g => negb (g =? f)) names))
                       (readFileSync w) (now w) (published w)).
    assert (Hfiles : files w' = files w).
    { unfold files. rewrite Hn. cbn [w' readdirSync]. f_equal.
      clear Hn w'. induction names as [|g names IH]; [reflexivity|].
      cbn [filter]. destruct (String.eqb_spec g f) as [->|Hne]; cbn [negb].
      - rewrite Hf. exact IH.
      - cbn [filter]. destruct (endsWith g ".jsonl"); [now f_equal|exact IH]. }
    unfold run. rewrite Hfiles. destruct (files w) as [|q paths]; [reflexivity|].
    rewrite (aggregate_ext w' w (q :: paths) eq_refl eq_refl).
    destruct (aggregate w state0 (q :: paths)); reflexivity.
Qed.

End Listing.

(** ** The reader (lines 7-20) *)

Section Reader.
Context {js : Builtins}.

Lemma split_app (sep : ascii) (a b : string) :
  split sep (a ++ String sep b) = split sep a ++ split sep b.
Proof.
  induction a as [|c a IH]; simpl.
  - rewrite Ascii.eqb_refl. reflexivity.
  - destruct (Ascii.eqb c sep); [now rewrite IH|].
    rewrite IH. pose proof (split_not_nil sep a) as Hne.
    destruct (split sep a); [contradiction|reflexivity].
Qed.

Lemma read_lines_app (l1 l2 : list string) :
  read_lines (l1 ++ l2) = read_lines l1 ++ read_lines l2.
Proof. rewrite !read_lines_flat_map. apply flat_map_app. Qed.

(** X2.  Reading two texts joined by a line feed gives the rows of the first
    followed by the rows of the second: what is appended to a log leaves
    the rows read before it as they were.  A line feed at the end of the
    text changes nothing, and the empty text has no row. *)
Theorem readJsonl_app (a b : string) :
  readJsonl (a ++ String newline b) = readJsonl a ++ readJsonl b
  /\ readJsonl (a ++ String newline "") = readJsonl a
  /\ readJsonl "" = [].
Proof.
  assert (H : forall x y, readJsonl (x ++ String newline y) = readJsonl x ++ readJsonl y).
  { intros x y. unfold readJsonl. now rewrite split_app, read_lines_app. }
  split; [apply H|]. split; [|reflexivity].
  rewrite H. apply app_nil_r.
Qed.

Lemma trimStart_app_ws (l : string) (c : ascii) :
  isWhiteSpace c = true ->
  trimStart (l ++ String c "")
  = match trimStart l with
    | EmptyString => EmptyString
    | t => (t ++ String c "")%string
    end.
Proof.
  intros Hc. induction l as [|d l IH]; simpl.
  - now rewrite Hc.
  - destruct (isWhiteSpace d); [exact IH|reflexivity].
Qed.

Lemma trimEnd_app_ws (x : string) (c : ascii) :
  isWhiteSpace c = true -> trimEnd (x ++ String c "") = trimEnd x.
Proof.
  intros Hc. induction x as [|d x IH]; simpl.
  - now rewrite Hc.
  - now rewrite IH.
Qed.

Lemma trim_app_ws (l : string) (c : ascii) :
  isWhiteSpace c = true -> trim (l ++ String c "") = trim l.
Proof.
  intros Hc. unfold trim. rewrite trimStart_app_ws by exact Hc.
  destruct (trimStart l) as [|d t] eqn:E; [reflexivity|].
  apply trimEnd_app_ws, Hc.
Qed.

Lemma read_lines_trim (l1 l2 : list string) :
  Forall2 (fun a b => trim a = trim b) l1 l2 -> read_lines l1 = read_lines l2.
Proof.
  induction 1 as [|a b l1 l2 Hab _ IH]; [reflexivity|].
  simpl. now rewrite Hab, IH.
Qed.

Lemma split_crlf (s : string) :
  Forall2 (fun a b => a = b \/ a = (b ++ String carriage_return "")%string)
          (split newline (crlf s)) (split newline s).
Proof.
  induction s as [|c s IH]; simpl.
  - constructor; [now left|constructor].
  - destruct (Ascii.eqb c newline) eqn:Ec.
    + simpl. constructor; [now right|exact IH].
    + simpl. rewrite Ec.
      destruct IH as [|a b l1 l2 Hab Hrest]; [constructor; [now left|constructor]|].
      constructor; [|exact Hrest].
      destruct Hab as [->| ->]; [now left|now right].
Qed.

(** X3.  A log with carriage returns before its line feeds reads as the
    log without them: [trim] takes the carriage return off every line
    before [JSON.parse] sees it. *)
Theorem readJsonl_crlf (text : string) :
  readJsonl (crlf text) = readJsonl text.
Proof.
  unfold readJsonl. apply read_lines_trim.
  eapply Forall2_impl; [|apply split_crlf].
  intros a b [->| ->]; [reflexivity|]. now apply trim_app_ws.
Qed.

Lemma readJsonl_unlines (t : string) (ts : list string) :
  readJsonl (unlines (t :: ts)) = readJsonl t ++ readJsonl (unlines ts).
Proof.
  destruct ts as [|t' ts].
  - simpl. symmetry. apply app_nil_r.
  - change (unlines (t :: t' :: ts)) with (t ++ String newline (unlines (t' :: ts)))%string.
    apply readJsonl_app.
Qed.

(** X4.  The outer loop treats the logs as one log: when every file can be
    read, it ends as the inner loop does on the rows of the texts joined by
    line feeds, in the order of the listing. *)
Theorem logs_as_one_log (w : World) (paths texts : list string) (st : State) :
  Forall2 (fun p t => readFileSync w p = Ok t) paths texts ->
  aggregate w st paths = process_all (now w) st (readJsonl (unlines texts)).
Proof.
  intros H. revert st. induction H as [|p t paths texts Hp _ IH]; intros st.
  - reflexivity.
  - cbn [aggregate]. rewrite Hp. cbn [bind].
    rewrite readJsonl_unlines, process_all_app.
    destruct (process_all (now w) st (readJsonl t)); cbn [bind]; [apply IH|reflexivity].
Qed.

End Reader.

(** ** The loop as a fold of its entries (lines 56-107) *)

Section Loop.

Context {js : Builtins}.

Lemma process_entry (now : nat -> string) (st : State) (event : json) :
  included event = true ->
  process now st event
  = (x <- entry_of now (ticks st) event ;; Ok (state_after st [fst x] (snd x))).
Proof.
  intros Hin. rewrite (process_included _ _ _ Hin). unfold entry_of.
  destruct (resolve_ts now (ticks st) event) as [r|]; [|reflexivity].
  cbn [bind]. destruct (String_ (fst r)) as [s|]; [|reflexivity].
  cbn [bind]. destruct (resolve_model event) as [[[| | |m| |]|]|]; try reflexivity.
  cbn [bind]. destruct (read_usage (usage_of event)) as [u|]; reflexivity.
Qed.

Lemma state_after_nil (st : State) : state_after st [] (ticks st) = st.
Proof. destruct st; reflexivity. Qed.

Lemma state_after_cons (st : State) (e : Entry) (es : list Entry) (n1 n2 : nat) :
  state_after (state_after st [e] n1) es n2 = state_after st (e :: es) n2.
Proof. reflexivity. Qed.

(** The loop is the fold of its entries. *)
Lemma process_all_entries (now : nat -> string) (events : list json) :
  forall st,
    process_all now st events
    = (x <- entries now (ticks st) events ;; Ok (state_after st (fst x) (snd x))).
Proof.
  induction events as [|event rest IH]; intros st.
  - cbn [process_all entries bind fst snd]. now rewrite state_after_nil.
  - cbn [process_all entries]. destruct (included event) eqn:Hin.
    + rewrite (process_entry _ _ _ Hin).
      destruct (entry_of now (ticks st) event) as [[e n]|]; [|reflexivity].
      cbn [bind fst snd]. rewrite IH. cbn [state_after ticks].
      destruct (entries now n rest) as [[es n']|]; [|reflexivity].
      cbn [bind fst snd]. now rewrite state_after_cons.
    + rewrite (process_excluded _ _ _ Hin). cbn [bind]. apply IH.
Qed.

Lemma entries_length (now : nat -> string) (events : list json) :
  forall n es n',
    entries now n events = Ok (es, n') ->
    length es = length (filter included events).
Proof.
  induction events as [|event rest IH]; intros n es n'; cbn [entries filter].
  - now intros [= <- _].
  - destruct (included event); [|apply IH].
    destruct (entry_of now n event) as [[e n1]|]; [|discriminate].
    cbn [bind fst snd].
    destruct (entries now n1 rest) as [[es1 n2]|] eqn:E; [|discriminate].
    cbn [bind fst snd]. intros [= <- _]. simpl. f_equal. eapply IH, E.
Qed.

Lemma entry_of_model (now : nat -> string) (n : nat) (event : json) (x : Entry * nat) :
  entry_of now n event = Ok x ->
  resolve_model event = Ok (Some (JStr (e_model (fst x)))).
Proof.
  unfold entry_of.
  destruct (resolve_ts now n event) as [r|]; [|discriminate]. cbn [bind].
  destruct (String_ (fst r)) as [s|]; [|discriminate]. cbn [bind].
  destruct (resolve_model event) as [[[| | |m| |]|]|]; try discriminate.
  cbn [bind]. destruct (read_usage (usage_of event)) as [u|]; [|discriminate].
  now intros [= <-].
Qed.

Lemma entries_models (now : nat -> string) (events : list json) :
  forall n es n',
    entries now n events = Ok (es, n') -> map e_model es = models_seen events.
Proof.
  induction events as [|event rest IH]; intros n es n'; cbn [entries].
  - now intros [= <- _].
  - unfold models_seen. cbn [flat_map]. fold (models_seen rest).
    destruct (included event); [|apply IH].
    destruct (entry_of now n event) as [[e n1]|] eqn:Ee; [|discriminate].
    cbn [bind fst snd].
    destruct (entries now n1 rest) as [[es1 n2]|] eqn:E; [|discriminate].
    cbn [bind fst snd]. intros [= <- _].
    rewrite (entry_of_model _ _ _ _ Ee). simpl. f_equal. eapply IH, E.
Qed.

Lemma entries_dates (now : nat -> string) (events : list json) :
  forall n es n' d,
    entries now n events = Ok (es, n') ->
    In d (map e_date es) -> String.length d <= 10.
Proof.
  induction events as [|event rest IH]; intros n es n' d; cbn [entries].
  - intros [= <- _] [].
  - destruct (included event); [|apply IH].
    destruct (entry_of now n event) as [[e n1]|] eqn:Ee; [|discriminate].
    cbn [bind fst snd].
    destruct (entries now n1 rest) as [[es1 n2]|] eqn:E; [|discriminate].
    cbn [bind fst snd]. intros [= <- _] [<-|Hin]; [|eapply IH; eassumption].
    revert Ee. unfold entry_of.
    destruct (resolve_ts now n event) as [r|]; [|discriminate]. cbn [bind].
    destruct (String_ (fst r)) as [s|]; [|discriminate]. cbn [bind].
    destruct (resolve_model event) as [[[| | |m| |]|]|]; try discriminate.
    cbn [bind]. destruct (read_usage (usage_of event)) as [u|]; [|discriminate].
    intros [= <- _]. cbn [e_date].
    destruct (slice_0_10_prefix s) as [_ ->]. lia.
Qed.

Lemma entry_of_ticks (now : nat -> string) (n : nat) (event : json) (x : Entry * nat) :
  included event = true ->
  entry_of now n event = Ok x ->
  snd x = if dated event then n else S n.
Proof.
  intros Hin. unfold entry_of.
  destruct (included_message _ Hin) as (msg & Hm & Hnull).
  rewrite (resolve_ts_eq now n _ _ Hm Hnull). cbn [bind].
  match goal with |- context [String_ (fst ?r)] => set (r0 := r) end.
  destruct (String_ (fst r0)) as [s|]; [|discriminate]. cbn [bind].
  destruct (resolve_model event) as [[[| | |m| |]|]|]; try discriminate.
  cbn [bind]. destruct (read_usage (usage_of event)) as [u|]; [|discriminate].
  intros [= <-]. cbn [snd]. subst r0. unfold dated.
  destruct (get_Some_object _ _ _ Hm) as [em ->].
  rewrite optprop_object, Hm.
  assert (Ho : optprop (Some msg) "timestamp" = get msg "timestamp")
    by (destruct msg; try reflexivity; contradiction).
  rewrite Ho.
  destruct (truthy (get (JObj em) "timestamp")); [reflexivity|].
  destruct (truthy (get msg "timestamp")); reflexivity.
Qed.

Lemma entries_ticks (now : nat -> string) (events : list json) :
  forall n es n',
    entries now n events = Ok (es, n') ->
    n' = n + length (filter undated events).
Proof.
  induction events as [|event rest IH]; intros n es n'; cbn [entries filter].
  - intros [= _ <-]. simpl. lia.
  - unfold undated at 1. destruct (included event) eqn:Hin; [|apply IH].
    destruct (entry_of now n event) as [[e n1]|] eqn:Ee; [|discriminate].
    cbn [bind fst snd].
    destruct (entries now n1 rest) as [[es1 n2]|] eqn:E; [|discriminate].
    cbn [bind fst snd]. intros [= _ <-].
    apply (entry_of_ticks _ _ _ _ Hin) in Ee. cbn [snd] in Ee.
    apply IH in E. cbn [andb].
    destruct (dated event); cbn [negb length] in *; lia.
Qed.

Lemma aggregate_process_all (w : World) (paths : list string) :
  forall st st',
    aggregate w st paths = Ok st' ->
    process_all (now w) st
      (flat_map (fun p => match readFileSync w p with
                          | Ok text => readJsonl text
                          | Throw _ => []
                          end) paths) = Ok st'.
Proof.
  induction paths as [|q paths IH]; intros st st'; simpl; [auto|].
  destruct (readFileSync w q) as [text|]; simpl; [|discriminate].
  rewrite process_all_app.
  destruct (process_all (now w) st (readJsonl text)); simpl; [apply IH|discriminate].
Qed.

End Loop.

Section Rollup.

Context {V : Type} (zero : string -> V) (add : V -> Usage -> V)
        (key : Entry -> string).

Lemma rollup_cons (e : Entry) (es : list Entry) (m : Map V) :
  rollup zero add key (e :: es) m
  = rollup zero add key es
      (Map_set m (key e)
               (add (match Map_get m (key e) with
                     | Some v => v
                     | None => zero (key e)
                     end) (e_usage e))).
Proof. reflexivity. Qed.

Lemma rollup_get (es : list Entry) :
  forall (m : Map V) (k : string),
    Map_get (rollup zero add key es m) k
    = match filter (fun e => key e =? k) es with
      | [] => Map_get m k
      | l => Some (fold_left add (map e_usage l)
                             (match Map_get m k with
                              | Some v => v
                              | None => zero k
                              end))
      end.
Proof.
  induction es as [|e es IH]; intros m k; [reflexivity|].
  rewrite rollup_cons, IH. cbn [filter]. destruct (String.eqb_spec (key e) k) as [->|Hne].
  - rewrite Map_get_set_same. cbn [map fold_left].
    destruct (filter (fun e0 => key e0 =? k) es); reflexivity.
  - now rewrite Map_get_set_other.
Qed.

Lemma rollup_keys (es : list Entry) :
  forall m : Map V,
    Map_keys (rollup zero add key es m)
    = fold_left add_key (map key es) (Map_keys m).
Proof.
  induction es as [|e es IH]; intros m; [reflexivity|].
  rewrite rollup_cons, IH, Map_keys_set. reflexivity.
Qed.

End Rollup.

Lemma add_key_NoDup (seen : list string) (k : string) :
  NoDup seen -> NoDup (add_key seen k).
Proof.
  intros H. unfold add_key.
  destruct (existsb (fun k' => k' =? k) seen) eqn:E; [exact H|].
  apply NoDup_app; [exact H|constructor; [intros []|constructor]|].
  intros x Hx [->|[]].
  assert (existsb (fun k' => k' =? x) seen = true); [|congruence].
  apply existsb_exists. exists x. split; [exact Hx|apply String.eqb_refl].
Qed.

Lemma add_key_In (seen : list string) (k x : string) :
  In x (add_key seen k) <-> In x seen \/ x = k.
Proof.
  unfold add_key. destruct (existsb (fun k' => k' =? k) seen) eqn:E.
  - split; [now left|]. intros [H| ->]; [exact H|].
    apply existsb_exists in E. destruct E as (y & Hy & Hyk).
    apply String.eqb_eq in Hyk. now subst.
  - rewrite in_app_iff. simpl. intuition.
Qed.

Lemma fold_add_key_NoDup (ks : list string) :
  forall seen, NoDup seen -> NoDup (fold_left add_key ks seen).
Proof.
  induction ks as [|k ks IH]; intros seen H; [exact H|].
  simpl. now apply IH, add_key_NoDup.
Qed.

Lemma fold_add_key_In (ks : list string) :
  forall seen x, In x (fold_left add_key ks seen) <-> In x seen \/ In x ks.
Proof.
  induction ks as [|k ks IH]; intros seen x; simpl; [intuition|].
  rewrite IH, add_key_In. intuition.
Qed.

Lemma Map_get_In {V : Type} (m : Map V) (k : string) (v : V) :
  Map_get m k = Some v -> In v (Map_values m).
Proof.
  induction m as [|[k' v'] m IH]; simpl; [discriminate|].
  destruct (k' =? k); [intros [= ->]; now left|right; now apply IH].
Qed.

Lemma In_Map_get {V : Type} (m : Map V) (v : V) :
  NoDup (Map_keys m) -> In v (Map_values m) ->
  exists k, Map_get m k = Some v.
Proof.
  induction m as [|[k' v'] m IH]; simpl; [intros _ []|].
  intros Hnd [->|Hin].
  - exists k'. now rewrite String.eqb_refl.
  - inversion Hnd as [|? ? Hk' Hnd']; subst.
    destruct (IH Hnd' Hin) as (k & Hk). exists k.
    destruct (String.eqb_spec k' k) as [->|]; [|exact Hk].
    exfalso. apply Hk'. clear -Hk. unfold Map_keys.
    induction m as [|[k1 v1] m IH]; simpl in *; [discriminate|].
    destruct (String.eqb_spec k1 k) as [->|]; [now left|right; now apply IH].
Qed.

Lemma fold_add_day (us : list Usage) :
  forall d : Daily.t,
    fold_left add_day us d
    = Daily.mk (Daily.date d)
               (Nat.iter (length us) (fun x => (x + 1)%float) (Daily.calls d))
               (fold_left PrimFloat.add (map u_input us) (Daily.inputTokens d))
               (fold_left PrimFloat.add (map u_output us) (Daily.outputTokens d))
               (fold_left PrimFloat.add (map u_totalTokens us) (Daily.totalTokens d))
               (fold_left PrimFloat.add (map u_cost us) (Daily.cost d)).
Proof.
  induction us as [|u us IH]; intros d; [now destruct d|].
  cbn [fold_left]. rewrite IH. cbn [add_day map fold_left length Daily.date
    Daily.calls Daily.inputTokens Daily.outputTokens Daily.totalTokens Daily.cost].
  now rewrite count_succ_r.
Qed.

Lemma fold_add_model (us : list Usage) :
  forall a : Model.t,
    fold_left add_model us a
    = Model.mk (Model.model a) (Model.provider a)
               (Nat.iter (length us) (fun x => (x + 1)%float) (Model.calls a))
               (fold_left PrimFloat.add (map u_input us) (Model.inputTokens a))
               (fold_left PrimFloat.add (map u_output us) (Model.outputTokens a))
               (fold_left PrimFloat.add (map u_totalTokens us) (Model.totalTokens a))
               (fold_left PrimFloat.add (map u_cost us) (Model.cost a)).
Proof.
  induction us as [|u us IH]; intros a; [now destruct a|].
  cbn [fold_left]. rewrite IH. cbn [add_model map fold_left length Model.model
    Model.provider Model.calls Model.inputTokens Model.outputTokens
    Model.totalTokens Model.cost].
  now rewrite count_succ_r.
Qed.

Lemma rollup_day_keyed (es : list Entry) :
  forall m, keyed Daily.date m -> keyed Daily.date (rollup day0 add_day e_date es m).
Proof.
  induction es as [|e es IH]; intros m Hm; [exact Hm|].
  rewrite rollup_cons. apply IH.
  apply (update_day_keyed m (e_date e) (e_usage e) Hm).
Qed.

Lemma rollup_model_keyed (es : list Entry) :
  forall m, keyed Model.model m ->
            keyed Model.model
                  (rollup (fun m => model0 m (providerFromModel m)) add_model
                          e_model es m).
Proof.
  induction es as [|e es IH]; intros m Hm; [exact Hm|].
  rewrite rollup_cons. apply IH.
  apply (update_model_keyed m (e_model e) (providerFromModel (e_model e))
                            (e_usage e) Hm).
Qed.

Lemma filter_key_nil (key : Entry -> string) (es : list Entry) (k : string) :
  filter (fun e => key e =? k) es = [] <-> ~ In k (map key es).
Proof.
  induction es as [|e es IH]; simpl; [intuition|].
  destruct (String.eqb_spec (key e) k) as [->|Hne].
  - split; [discriminate|]. intros H. exfalso. apply H. now left.
  - rewrite IH. intuition.
Qed.

(** The rows of the per-day rollup. *)
Lemma byDay_rows (es : list Entry) (row : Daily.t) :
  In row (Map_values (rollup day0 add_day e_date es []))
  <-> exists d, In d (map e_date es) /\ row = day_row d (on_day d es).
Proof.
  assert (Hget : forall d,
            Map_get (rollup day0 add_day e_date es []) d
            = if in_dec string_dec d (map e_date es)
              then Some (day_row d (on_day d es)) else None).
  { intros d. rewrite rollup_get. cbn [Map_get].
    destruct (in_dec string_dec d (map e_date es)) as [Hin|Hout].
    - destruct (filter (fun e => e_date e =? d) es) as [|e l] eqn:E.
      + apply filter_key_nil in E. contradiction.
      + unfold on_day. rewrite E, fold_add_day. reflexivity.
    - apply (filter_key_nil e_date) in Hout. now rewrite Hout. }
  split.
  - intros Hin. apply In_Map_get in Hin.
    + destruct Hin as (d & Hd). rewrite Hget in Hd.
      destruct (in_dec string_dec d (map e_date es)); [|discriminate].
      injection Hd as <-. now exists d.
    + rewrite rollup_keys. apply fold_add_key_NoDup. constructor.
  - intros (d & Hd & ->). apply (Map_get_In _ d). rewrite Hget.
    now destruct (in_dec string_dec d (map e_date es)).
Qed.

Lemma byModel_rows (es : list Entry) (row : Model.t) :
  In row (Map_values (rollup (fun m => model0 m (providerFromModel m))
                             add_model e_model es []))
  <-> exists m, In m (map e_model es) /\ row = model_row m (of_model m es).
Proof.
  assert (Hget : forall m,
            Map_get (rollup (fun m => model0 m (providerFromModel m))
                            add_model e_model es []) m
            = if in_dec string_dec m (map e_model es)
              then Some (model_row m (of_model m es)) else None).
  { intros m. rewrite rollup_get. cbn [Map_get].
    destruct (in_dec string_dec m (map e_model es)) as [Hin|Hout].
    - destruct (filter (fun e => e_model e =? m) es) as [|e l] eqn:E.
      + apply filter_key_nil in E. contradiction.
      + unfold of_model. rewrite E, fold_add_model. reflexivity.
    - apply (filter_key_nil e_model) in Hout. now rewrite Hout. }
  split.
  - intros Hin. apply In_Map_get in Hin.
    + destruct Hin as (m & Hm). rewrite Hget in Hm.
      destruct (in_dec string_dec m (map e_model es)); [|discriminate].
      injection Hm as <-. now exists m.
    + rewrite rollup_keys. apply fold_add_key_NoDup. constructor.
  - intros (m & Hm & ->). apply (Map_get_In _ m). rewrite Hget.
    now destruct (in_dec string_dec m (map e_model es)).
Qed.


Lemma providerFromModel_label (m : string) :
  In (providerFromModel m) provider_labels.
Proof.
  unfold providerFromModel, provider_labels.
  repeat match goal with
         | |- context [if ?b then _ else _] => destruct b
         end; simpl; tauto.
Qed.

Lemma list_sum_zero {A : Type} (l : list A) : list_sum (map (fun _ => 0) l) = 0.
Proof. induction l; simpl; auto. Qed.

Lemma list_sum_indicator (k : string) (ks : list string) :
  NoDup ks -> In k ks ->
  list_sum (map (fun k' => if k =? k' then 1 else 0) ks) = 1.
Proof.
  induction 1 as [|k0 ks Hk0 Hnd IH]; [intros []|].
  simpl. intros [->|Hin].
  - rewrite String.eqb_refl.
    rewrite (map_ext_in _ (fun _ => 0)); [now rewrite list_sum_zero|].
    intros k' Hk'. destruct (String.eqb_spec k k'); [subst; contradiction|reflexivity].
  - destruct (String.eqb_spec k k0) as [->|]; [contradiction|]. now apply IH.
Qed.

Lemma list_sum_plus {A : Type} (f g : A -> nat) (l : list A) :
  list_sum (map (fun x => f x + g x) l) = list_sum (map f l) + list_sum (map g l).
Proof. induction l as [|x l IH]; simpl; [reflexivity|]. rewrite IH. lia. Qed.

(** Every entry is under exactly one of its keys. *)
Lemma partition_count (key : Entry -> string) (es : list Entry) (ks : list string) :
  NoDup ks -> (forall e, In e es -> In (key e) ks) ->
  list_sum (map (fun k => length (filter (fun e => key e =? k) es)) ks)
  = length es.
Proof.
  intros Hnd. induction es as [|e es IH]; intros Hin.
  - simpl. apply list_sum_zero.
  - erewrite map_ext.
    + rewrite (list_sum_plus (fun k => if key e =? k then 1 else 0)
                             (fun k => length (filter (fun e0 => key e0 =? k) es))).
      rewrite list_sum_indicator, IH; [reflexivity| |exact Hnd|].
      * intros e0 He0. apply Hin. now right.
      * apply Hin. now left.
    + intros k. simpl. destruct (key e =? k); reflexivity.
Qed.

Section Rows.

Context {js : Builtins}.

(** A run that writes: its entries and the state they leave. *)
Lemma run_entries (w : World) (p : Payload) :
  run w = Wrote p ->
  exists es n,
    entries (now w) 0 (events_of w) = Ok (es, n)
    /\ p = payload w (state_after state0 es n).
Proof.
  intros H. destruct (run_process_all _ _ H) as (st & Hst & ->).
  rewrite process_all_entries in Hst.
  destruct (entries (now w) (ticks state0) (events_of w)) as [[es n]|] eqn:E;
    [|discriminate].
  injection Hst as <-. now exists es, n.
Qed.

Lemma payload_rows (w : World) (p : Payload) :
  run w = Wrote p ->
  exists es n,
    entries (now w) 0 (events_of w) = Ok (es, n)
    /\ Permutation (daily p) (Map_values (rollup day0 add_day e_date es []))
    /\ Permutation (models p)
                   (Map_values (rollup (fun m => model0 m (providerFromModel m))
                                       add_model e_model es []))
    /\ p_totals p = fold_left add_totals (map e_usage es) totals0
    /\ generatedAt p = now w n.
Proof.
  intros H. destruct (run_entries _ _ H) as (es & n & He & ->).
  exists es, n. split; [exact He|].
  split; [apply sort_perm|]. split; [apply sort_perm|]. split; reflexivity.
Qed.

Lemma rollup_dates (es : list Entry) :
  map Daily.date (Map_values (rollup day0 add_day e_date es []))
  = first_seen (map e_date es).
Proof.
  transitivity (Map_keys (rollup day0 add_day e_date es [])).
  - apply keyed_values, rollup_day_keyed. constructor.
  - apply rollup_keys.
Qed.

Lemma rollup_models (es : list Entry) :
  map Model.model
      (Map_values (rollup (fun m => model0 m (providerFromModel m))
                          add_model e_model es []))
  = first_seen (map e_model es).
Proof.
  transitivity (Map_keys (rollup (fun m => model0 m (providerFromModel m))
                                 add_model e_model es [])).
  - apply keyed_values, rollup_model_keyed. constructor.
  - apply rollup_keys.
Qed.

(** X5.  The rows of [daily] in a payload are, for every day some
    aggregated event falls on, the row with that date, the count of the
    events of that day and the sums of their numbers in the order the events
    were met; no day has two rows, there is a row for each day of an entry
    and for nothing else, and no date is longer than ten code units. *)
Theorem daily_rows (w : World) (p : Payload) :
  run w = Wrote p ->
  exists es n,
    entries (now w) 0 (events_of w) = Ok (es, n)
    /\ (forall row, In row (daily p)
                    <-> exists d, In d (map e_date es)
                                  /\ row = day_row d (on_day d es))
    /\ Permutation (map Daily.date (daily p)) (first_seen (map e_date es))
    /\ NoDup (map Daily.date (daily p))
    /\ Forall (fun row => String.length (Daily.date row) <= 10) (daily p).
Proof.
  intros H. destruct (payload_rows _ _ H) as (es & n & He & Hperm & _).
  exists es, n. split; [exact He|].
  assert (Hrows : forall row,
            In row (daily p)
            <-> exists d, In d (map e_date es)
                          /\ row = day_row d (on_day d es)).
  { intros row. rewrite <- byDay_rows. split; apply Permutation_in;
      [exact Hperm|symmetry; exact Hperm]. }
  split; [exact Hrows|]. split; [|split].
  - rewrite <- rollup_dates. now apply Permutation_map.
  - eapply Permutation_NoDup; [apply Permutation_map; symmetry; exact Hperm|].
    rewrite rollup_dates. apply fold_add_key_NoDup. constructor.
  - apply Forall_forall. intros row Hrow. apply Hrows in Hrow.
    destruct Hrow as (d & Hd & ->). cbn [day_row Daily.date].
    eapply entries_dates; eassumption.
Qed.


(** X6.  The rows of [models] in a payload are, for every model of an
    aggregated event, the row with that model, the label [providerFromModel]
    gives it, the count of its events and the sums of their numbers in the
    order the events were met; no model has two rows, and every provider is
    one of the six labels. *)
Theorem model_rows (w : World) (p : Payload) :
  run w = Wrote p ->
  exists es n,
    entries (now w) 0 (events_of w) = Ok (es, n)
    /\ map e_model es = models_seen (events_of w)
    /\ (forall row, In row (models p)
                    <-> exists m, In m (map e_model es)
                                  /\ row = model_row m (of_model m es))
    /\ Permutation (map Model.model (models p)) (first_seen (map e_model es))
    /\ NoDup (map Model.model (models p))
    /\ Forall (fun row => Model.provider row = providerFromModel (Model.model row)
                          /\ In (Model.provider row) provider_labels)
              (models p).
Proof.
  intros H. destruct (payload_rows _ _ H) as (es & n & He & _ & Hperm & _).
  exists es, n. split; [exact He|]. split; [exact (entries_models _ _ _ _ _ He)|].
  assert (Hrows : forall row,
            In row (models p)
            <-> exists m, In m (map e_model es)
                          /\ row = model_row m (of_model m es)).
  { intros row. rewrite <- byModel_rows. split; apply Permutation_in;
      [exact Hperm|symmetry; exact Hperm]. }
  split; [exact Hrows|]. split; [|split].
  - rewrite <- rollup_models. now apply Permutation_map.
  - eapply Permutation_NoDup; [apply Permutation_map; symmetry; exact Hperm|].
    rewrite rollup_models. apply fold_add_key_NoDup. constructor.
  - apply Forall_forall. intros row Hrow. apply Hrows in Hrow.
    destruct Hrow as (m & _ & ->). split; [reflexivity|].
    apply providerFromModel_label.
Qed.

(** X7.  Every aggregated event is counted once in [totals], in one row of
    [daily] and in one row of [models]: the calls of the days are counts
    that add up to the number of aggregated events, and so are the calls of
    the models. *)
Theorem calls_partition (w : World) (p : Payload) :
  run w = Wrote p ->
  exists per_day per_model : list nat,
    map Daily.calls (daily p) = map count per_day
    /\ map Model.calls (models p) = map count per_model
    /\ Totals.calls (p_totals p) = count (length (filter included (events_of w)))
    /\ list_sum per_day = length (filter included (events_of w))
    /\ list_sum per_model = length (filter included (events_of w)).
Proof.
  intros H.
  destruct (payload_rows _ _ H) as (es & n & He & Hd & Hm & Ht & _).
  rewrite <- (entries_length _ _ _ _ _ He).
  exists (map (fun row => length (on_day (Daily.date row) es)) (daily p)),
         (map (fun row => length (of_model (Model.model row) es)) (models p)).
  split; [|split; [|split; [|split]]].
  - rewrite map_map. apply map_ext_in. intros row Hrow.
    apply (Permutation_in _ Hd), byDay_rows in Hrow.
    destruct Hrow as (d & _ & ->). reflexivity.
  - rewrite map_map. apply map_ext_in. intros row Hrow.
    apply (Permutation_in _ Hm), byModel_rows in Hrow.
    destruct Hrow as (m & _ & ->). reflexivity.
  - rewrite Ht.
    destruct (fold_add_totals (map e_usage es) totals0) as (H0 & _).
    cbn zeta in H0. rewrite H0, length_map. reflexivity.
  - rewrite <- (map_map Daily.date (fun d => length (on_day d es))).
    rewrite (Permutation_map _ (Permutation_map Daily.date Hd)).
    rewrite rollup_dates.
    unfold on_day. erewrite map_ext; [|intros d; apply length_map].
    apply partition_count.
    + apply fold_add_key_NoDup. constructor.
    + intros e He0. apply fold_add_key_In. right. now apply in_map.
  - rewrite <- (map_map Model.model (fun m => length (of_model m es))).
    rewrite (Permutation_map _ (Permutation_map Model.model Hm)).
    rewrite rollup_models.
    unfold of_model. erewrite map_ext; [|intros m; apply length_map].
    apply partition_count.
    + apply fold_add_key_NoDup. constructor.
    + intros e He0. apply fold_add_key_In. right. now apply in_map.
Qed.

(** X8.  The loop reads the clock once for every aggregated event that has
    no truthy timestamp of its own, and for nothing else; [generatedAt] is
    the reading after those. *)
Theorem clock_readings (w : World) (p : Payload) :
  run w = Wrote p ->
  clock_reads w = length (filter undated (events_of w))
  /\ generatedAt p = now w (clock_reads w).
Proof.
  unfold run, clock_reads. destruct (files w) as [|f fs] eqn:Hf; [discriminate|].
  destruct (aggregate w state0 (f :: fs)) as [st|] eqn:Ha; [|discriminate].
  intros [= <-]. split; [|reflexivity].
  apply aggregate_process_all in Ha. rewrite process_all_entries in Ha.
  unfold events_of. rewrite Hf.
  destruct (entries (now w) (ticks state0) _) as [[es n]|] eqn:E; [|discriminate].
  injection Ha as <-. cbn [state_after ticks fst snd].
  apply entries_ticks in E. exact E.
Qed.

End Rows.

(** ** What stops a run, and what does not *)

Section Stopping.

Context {js : Builtins}.

Lemma json_arrays_ind (P : json -> Prop) :
  P JNull -> (forall b, P (JBool b)) -> (forall x, P (JNum x)) ->
  (forall s, P (JStr s)) ->
  (forall items, Forall P items -> P (JArr items)) ->
  (forall members, P (JObj members)) ->
  forall v, P v.
Proof.
  intros HNull HBool HNum HStr HArr HObj. fix IH 1.
  intros [|b|x|s|items|members];
    [exact HNull|apply HBool|apply HNum|apply HStr| |apply HObj].
  apply HArr. induction items as [|x items IHitems]; constructor.
  - apply IH.
  - exact IHitems.
Qed.

Lemma ToString_throws (v : json) :
  forall e, ToString v = Throw e -> e = TypeError.
Proof.
  induction v as [|b|x|s|items IH|members] using json_arrays_ind;
    intros e; simpl; try discriminate.
  - destruct b; discriminate.
  - induction IH as [|x items Hx _ IHl]; [discriminate|].
    assert (Hpiece : forall e0,
              match x with JNull => Ok "" | _ => ToString x end = Throw e0
              -> e0 = TypeError)
      by (intros e0; destruct x; try discriminate; apply Hx).
    destruct items as [|y rest]; [apply Hpiece|].
    destruct (match x with JNull => Ok "" | _ => ToString x end) as [a|e1] eqn:E;
      cbn [bind].
    + intros H.
      match type of H with
      | (b <- ?j ;; _) = _ => destruct j as [b|e2] eqn:E2
      end; cbn [bind] in H; [discriminate H|].
      injection H as <-. now apply IHl.
    + intros [= <-]. now apply Hpiece.
  - destruct (has_key "toString" members); [now intros [= <-]|discriminate].
Qed.

Lemma ToNumber_throws (v : json) (e : exn) : ToNumber v = Throw e -> e = TypeError.
Proof.
  destruct v as [| [|] | x | s | items | members]; cbn [ToNumber]; try discriminate.
  - destruct (ToString (JArr items)) eqn:E; cbn [bind]; [discriminate|].
    intros [= <-]. exact (ToString_throws _ _ E).
  - destruct (has_key "toString" members); [now intros [= <-]|discriminate].
Qed.

Lemma prop_throws (o : value) (k : string) (e : exn) :
  prop o k = Throw e -> e = TypeError.
Proof. destruct o as [[]|]; simpl; try discriminate; now intros [= <-]. Qed.

Lemma coerce_throws (o : value) (k : string) (e : exn) :
  coerce o k = Throw e -> e = TypeError.
Proof.
  unfold coerce. destruct (prop o k) as [v|e'] eqn:E; cbn [bind].
  - unfold Number. destruct (or_else v (Some (JNum 0))); [apply ToNumber_throws|discriminate].
  - intros [= <-]. exact (prop_throws _ _ _ E).
Qed.

Ltac step_bind H lemma :=
  match type of H with
  | bind ?m _ = Throw _ =>
      let E := fresh "E" in
      destruct m eqn:E; cbn [bind] in H;
      [|injection H as <-; eapply lemma; exact E]
  end.

Lemma read_usage_throws (usage : value) (e : exn) :
  read_usage usage = Throw e -> e = TypeError.
Proof.
  unfold read_usage. intros H.
  do 5 step_bind H coerce_throws.
  step_bind H prop_throws. step_bind H coerce_throws. discriminate H.
Qed.

Lemma resolve_ts_throws (now : nat -> string) (n : nat) (event : json) (e : exn) :
  resolve_ts now n event = Throw e -> e = TypeError.
Proof.
  unfold resolve_ts. intros H. step_bind H prop_throws.
  destruct (truthy a); [discriminate|].
  step_bind H prop_throws.
  destruct (truthy a0); discriminate.
Qed.

Lemma resolve_model_throws (event : json) (e : exn) :
  resolve_model event = Throw e -> e = TypeError.
Proof.
  unfold resolve_model. intros H. step_bind H prop_throws.
  destruct (truthy a); [discriminate|].
  step_bind H prop_throws.
  destruct (truthy a0); discriminate.
Qed.



(** The loop raises nothing but a TypeError. *)
Lemma process_throws (now : nat -> string) (st : State) (event : json) (e : exn) :
  process now st event = Throw e -> e = TypeError /\ included event = true.
Proof.
  destruct (included event) eqn:Hin.
  - rewrite (process_included _ _ _ Hin). intros H. split; [|reflexivity].
    step_bind H resolve_ts_throws.
    match type of H with
    | bind ?m _ = Throw _ => destruct m as [s|e0] eqn:Es; cbn [bind] in H
    end.
    + step_bind H resolve_model_throws.
      destruct a0 as [[| | |m| |]|]; try (now injection H as <-).
      step_bind H read_usage_throws. discriminate H.
    + injection H as <-. destruct (fst a); [|discriminate Es].
      exact (ToString_throws _ _ Es).
  - now rewrite (process_excluded _ _ _ Hin).
Qed.

Lemma process_all_throws (now : nat -> string) (events : list json) :
  forall st e,
    process_all now st events = Throw e ->
    e = TypeError
    /\ exists event st1,
         In event events /\ included event = true
         /\ process now st1 event = Throw TypeError.
Proof.
  induction events as [|event rest IH]; intros st e; simpl; [discriminate|].
  destruct (process now st event) as [st1|e1] eqn:Hp; cbn [bind].
  - intros H. destruct (IH _ _ H) as (-> & ev & st2 & Hin & Hinc & Hev).
    split; [reflexivity|]. exists ev, st2. auto.
  - intros [= <-]. destruct (process_throws _ _ _ _ Hp) as [-> Hinc].
    split; [reflexivity|]. exists event, st. auto.
Qed.

(** X9.  A run is stopped by a log that cannot be read, with the exception
    of that reading, or by a TypeError that the processing of an aggregated
    event raises, and by nothing else: an event that fails the test of
    line 61 never stops a run. *)
Theorem run_raises (w : World) (e : exn) :
  run w = Raised e ->
  (exists p, In p (files w) /\ readFileSync w p = Throw e)
  \/ (e = TypeError
      /\ exists event st,
           In event (events_of w) /\ included event = true
           /\ process (now w) st event = Throw TypeError).
Proof.
  unfold run, events_of. destruct (files w) as [|f fs]; [discriminate|].
  destruct (aggregate w state0 (f :: fs)) as [st|e0] eqn:Ha; [discriminate|].
  intros [= <-]. revert Ha. generalize (f :: fs) as paths, state0 as st0.
  induction paths as [|q paths IH]; intros st0; simpl; [discriminate|].
  destruct (readFileSync w q) as [text|e1] eqn:Hq; cbn [bind].
  - destruct (process_all (now w) st0 (readJsonl text)) as [st1|e2] eqn:Hp; cbn [bind].
    + intros H. destruct (IH _ H) as [(p & Hin & Hp')|(-> & ev & st2 & Hin & Hev)].
      * left. exists p. auto.
      * right. split; [reflexivity|]. exists ev, st2.
        split; [apply in_or_app; now right|exact Hev].
    + intros [= <-]. right.
      destruct (process_all_throws _ _ _ _ Hp) as (-> & ev & st2 & Hin & Hev).
      split; [reflexivity|]. exists ev, st2. split; [apply in_or_app; now left|exact Hev].
  - intros [= <-]. left. exists q. auto.
Qed.


Lemma process_all_stops (now : nat -> string) (events : list json) (event : json) :
  In event events ->
  (forall st, exists e, process now st event = Throw e) ->
  forall st, exists e, process_all now st events = Throw e.
Proof.
  intros Hin Hev. induction events as [|x rest IH]; [destruct Hin|].
  intros st. cbn [process_all].
  destruct Hin as [->|Hin].
  - destruct (Hev st) as [e ->]. now exists e.
  - destruct (process now st x) as [st1|e]; cbn [bind]; [now apply IH|now exists e].
Qed.

Lemma aggregate_stops (w : World) (paths : list string) (event : json) :
  In event (flat_map (fun p => match readFileSync w p with
                               | Ok text => readJsonl text
                               | Throw _ => []
                               end) paths) ->
  (forall st, exists e, process (now w) st event = Throw e) ->
  forall st, exists e, aggregate w st paths = Throw e.
Proof.
  intros Hin Hev. induction paths as [|q paths IH]; [destruct Hin|].
  intros st. cbn [aggregate]. cbn [flat_map] in Hin.
  destruct (readFileSync w q) as [text|e]; cbn [bind]; [|now exists e].
  apply in_app_or in Hin.
  destruct (process_all (now w) st (readJsonl text)) as [st1|e] eqn:Hp;
    cbn [bind]; [|now exists e].
  destruct Hin as [Hin|Hin]; [|now apply IH].
  destruct (process_all_stops _ _ _ Hin Hev st) as [e He]. congruence.
Qed.

Lemma aggregate_unreadable (w : World) (paths : list string) (p : string) (e : exn) :
  In p paths -> readFileSync w p = Throw e ->
  forall st, exists e', aggregate w st paths = Throw e'.
Proof.
  intros Hin Hp. induction paths as [|q paths IH]; [destruct Hin|].
  intros st. cbn [aggregate].
  destruct Hin as [->|Hin]; [rewrite Hp; now exists e|].
  destruct (readFileSync w q) as [text|e1]; cbn [bind]; [|now exists e1].
  destruct (process_all (now w) st (readJsonl text)) as [st1|e1];
    cbn [bind]; [now apply IH|now exists e1].
Qed.

Lemma run_stopped (w : World) :
  files w <> [] ->
  (exists e, aggregate w state0 (files w) = Throw e) ->
  exists e, run w = Raised e /\ emitted (run w) = []
            /\ published_after w = published w.
Proof.
  intros Hf [e He]. unfold published_after, run.
  destruct (files w) as [|f fs]; [contradiction|]. rewrite He.
  exists e. auto.
Qed.

Lemma non_string_model_throws (now : nat -> string) (st : State) (event : json)
  (v : value) :
  included event = true ->
  resolve_model event = Ok v ->
  (forall s, v <> Some (JStr s)) ->
  exists e, process now st event = Throw e.
Proof.
  intros Hin Hm Hv. rewrite (process_included _ _ _ Hin), Hm.
  destruct (resolve_ts now (ticks st) event) as [r|e]; cbn [bind]; [|now exists e].
  destruct (String_ (fst r)) as [s|e]; cbn [bind]; [|now exists e].
  destruct v as [[| | |m| |]|]; try (now exists TypeError).
  now destruct (Hv m).
Qed.

(** X10.  One aggregated event whose model (or, without a truthy model,
    whose [modelId]) is truthy and no string stops the run, wherever in the
    logs it stands: nothing is written and the published document stays. *)
Theorem non_string_model_stops_the_run (w : World) (event : json) (v : value) :
  In event (events_of w) ->
  included event = true ->
  resolve_model event = Ok v ->
  (forall s, v <> Some (JStr s)) ->
  exists e, run w = Raised e /\ emitted (run w) = []
            /\ published_after w = published w.
Proof.
  intros Hin Hinc Hm Hv. apply run_stopped.
  - unfold events_of in Hin. destruct (files w); [destruct Hin|discriminate].
  - apply (aggregate_stops w (files w) event Hin).
    intros st. eapply non_string_model_throws; eassumption.
Qed.

(** X11.  One log that cannot be read stops the run, whatever the other
    logs hold: the exception of [readFileSync] is not caught, nothing is
    written and the published document stays. *)
Theorem unreadable_log_stops_the_run (w : World) (p : string) (e : exn) :
  In p (files w) ->
  readFileSync w p = Throw e ->
  exists e', run w = Raised e' /\ emitted (run w) = []
             /\ published_after w = published w.
Proof.
  intros Hin Hp. apply run_stopped.
  - destruct (files w); [destruct Hin|discriminate].
  - eapply aggregate_unreadable; eassumption.
Qed.

Lemma String_scalar (v : value) :
  scalar v = true -> exists s, String_ v = Ok s.
Proof.
  destruct v as [[|[|]|x|s|items|members]|]; simpl; try discriminate; eauto.
Qed.

Lemma Number_scalar (v : value) :
  scalar v = true -> exists x, Number v = Ok x.
Proof.
  destruct v as [[|[|]|x|s|items|members]|]; simpl; try discriminate; eauto.
Qed.

Lemma coerce_scalar (o : json) (k : string) :
  o <> JNull -> scalar (get o k) = true -> exists x, coerce (Some o) k = Ok x.
Proof.
  intros Ho Hs. unfold coerce.
  assert (Hp : prop (Some o) k = Ok (get o k))
    by (destruct o; try reflexivity; contradiction).
  rewrite Hp. cbn [bind]. apply Number_scalar. unfold or_else.
  destruct (truthy (get o k)); [exact Hs|reflexivity].
Qed.

Lemma plain_process (now : nat -> string) (st : State) (event : json) :
  included event = true -> plain event = true ->
  exists st', process now st event = Ok st'.
Proof.
  intros Hin Hplain. rewrite (process_included _ _ _ Hin).
  destruct (included_inv _ Hin) as (msg & usage & cost & Hm & Hu & Hc & Ht).
  destruct (included_message _ Hin) as (msg' & Hm' & Hnull).
  assert (msg' = msg) by congruence. subst msg'.
  rewrite (resolve_ts_eq now (ticks st) _ _ Hm Hnull).
  unfold plain in Hplain. repeat (apply andb_prop in Hplain; destruct Hplain as [Hplain ?]).
  destruct (get_Some_object _ _ _ Hm) as [em ->].
  destruct (get_Some_object _ _ _ Hu) as [mm ->].
  destruct (get_Some_object _ _ _ Hc) as [um ->].
  assert (Husage : usage_of (JObj em) = Some (JObj um)).
  { unfold usage_of. now rewrite optprop_object, Hm, optprop_object. }
  rewrite Husage in *. rewrite optprop_object, Hm in *.
  rewrite !optprop_object in *.
  assert (Hcost : cost <> JNull) by (intros ->; discriminate Ht).
  cbn [bind fst snd].
  assert (Hts : exists s,
            String_ (fst (if truthy (get (JObj em) "timestamp")
                          then (get (JObj em) "timestamp", ticks st)
                          else if truthy (get (JObj mm) "timestamp")
                               then (get (JObj mm) "timestamp", ticks st)
                               else (Some (JStr (now (ticks st))), S (ticks st))))
            = Ok s).
  { destruct (truthy (get (JObj em) "timestamp")); [now apply String_scalar|].
    destruct (truthy (get (JObj mm) "timestamp")); [now apply String_scalar|].
    now exists (now (ticks st)). }
  destruct Hts as [s ->]. cbn [bind].
  destruct (resolve_model (JObj em)) as [[[| | |m| |]|]|]; try discriminate.
  cbn [bind]. unfold read_usage.
  match goal with
  | H : forallb _ _ = true |- _ =>
      cbn [forallb] in H;
      repeat (apply andb_prop in H; let H' := fresh "Hk" in destruct H as [H' H])
  end.
  assert (Hobj : JObj um <> JNull) by discriminate.
  repeat match goal with
         | Hk : scalar (optprop (Some (JObj um)) ?k) = true |- _ =>
             let x := fresh "x" in
             destruct (coerce_scalar (JObj um) k Hobj Hk) as [x ->]; clear Hk
         end.
  cbn [bind]. rewrite prop_object, Hc. cbn [bind].
  assert (Htotal : scalar (get cost "total") = true).
  { rewrite Hc in *. destruct cost; try assumption; contradiction. }
  destruct (coerce_scalar cost "total" Hcost Htotal) as [total ->]. cbn [bind].
  eauto.
Qed.

Lemma plain_process_all (now : nat -> string) (events : list json) :
  Forall (fun e => included e = true -> plain e = true) events ->
  forall st, exists st', process_all now st events = Ok st'.
Proof.
  induction 1 as [|event rest Hev _ IH]; intros st; cbn [process_all]; [eauto|].
  destruct (included event) eqn:Hin.
  - destruct (plain_process now st event Hin (Hev eq_refl)) as [st1 ->].
    cbn [bind]. apply IH.
  - rewrite (process_excluded _ _ _ Hin). cbn [bind]. apply IH.
Qed.

(** X12.  A run over at least one log writes its payload when every log can
    be read and every aggregated event is plain: its model is a string, and
    its timestamps and the six numbers of its usage are missing, [null],
    booleans, numbers or strings. *)
Theorem plain_logs_are_written (w : World) :
  files w <> [] ->
  (forall p, In p (files w) -> exists text, readFileSync w p = Ok text) ->
  Forall (fun e => included e = true -> plain e = true) (events_of w) ->
  exists p, run w = Wrote p /\ published_after w = Some p.
Proof.
  intros Hf Hread Hplain.
  assert (Ha : forall st, exists st', aggregate w st (files w) = Ok st').
  { unfold events_of in Hplain. revert Hread Hplain.
    generalize (files w) as paths.
    induction paths as [|q paths IH]; intros Hread Hplain st; cbn [aggregate]; [eauto|].
    destruct (Hread q (or_introl eq_refl)) as [text Hq].
    cbn [flat_map] in Hplain. rewrite Hq in *. cbn [bind].
    apply Forall_app in Hplain. destruct Hplain as [H1 H2].
    destruct (plain_process_all (now w) _ H1 st) as [st1 ->]. cbn [bind].
    apply IH; [|exact H2]. intros p Hp. apply Hread. now right. }
  destruct (Ha state0) as [st Hst]. unfold published_after, run.
  destruct (files w) as [|f fs]; [contradiction|]. rewrite Hst. eauto.
Qed.

End Stopping.

(** ** The dashboard *)

Section Grouping.

Context {A : Type} (key : A -> string) (val : A -> float).

Lemma grouping_get (rows : list A) :
  forall (g : Map float) (k : string),
    Map_get (fold_left (fun grouped r =>
                          Map_set grouped (key r)
                                  (match Map_get grouped (key r) with
                                   | Some v => v
                                   | None => 0%float
                                   end + val r)%float) rows g) k
    = match filter (fun r => key r =? k) rows with
      | [] => Map_get g k
      | l => Some (fold_left PrimFloat.add (map val l)
                             (match Map_get g k with
                              | Some v => v
                              | None => 0%float
                              end))
      end.
Proof.
  induction rows as [|r rows IH]; intros g k; [reflexivity|].
  cbn [fold_left]. rewrite IH. cbn [filter].
  destruct (String.eqb_spec (key r) k) as [->|Hne].
  - rewrite Map_get_set_same. cbn [map fold_left].
    destruct (filter (fun r0 => key r0 =? k) rows); reflexivity.
  - now rewrite Map_get_set_other.
Qed.

Lemma grouping_keys (rows : list A) :
  forall g : Map float,
    Map_keys (fold_left (fun grouped r =>
                           Map_set grouped (key r)
                                   (match Map_get grouped (key r) with
                                    | Some v => v
                                    | None => 0%float
                                    end + val r)%float) rows g)
    = fold_left add_key (map key rows) (Map_keys g).
Proof.
  induction rows as [|r rows IH]; intros g; [reflexivity|].
  cbn [fold_left map]. now rewrite IH, Map_keys_set.
Qed.

Lemma grouping (rows : list A) :
  let mix := fold_left (fun grouped r =>
                          Map_set grouped (key r)
                                  (match Map_get grouped (key r) with
                                   | Some v => v
                                   | None => 0%float
                                   end + val r)%float) rows [] in
  map fst mix = first_seen (map key rows)
  /\ NoDup (map fst mix)
  /\ (forall name value, In (name, value) mix
                         <-> In name (map key rows)
                             /\ value = group_sum key val name rows).
Proof.
  intros mix.
  assert (Hkeys : map fst mix = first_seen (map key rows))
    by apply grouping_keys.
  assert (Hnd : NoDup (map fst mix))
    by (rewrite Hkeys; apply fold_add_key_NoDup; constructor).
  assert (Hget : forall k,
            Map_get mix k
            = if in_dec string_dec k (map key rows)
              then Some (group_sum key val k rows) else None).
  { intros k. unfold mix. rewrite grouping_get. cbn [Map_get].
    destruct (in_dec string_dec k (map key rows)) as [Hin|Hout].
    - destruct (filter (fun r => key r =? k) rows) as [|r l] eqn:E.
      + exfalso. apply in_map_iff in Hin. destruct Hin as (r & <- & Hr).
        assert (In r (filter (fun r0 => key r0 =? key r) rows))
          by (apply filter_In; split; [exact Hr|apply String.eqb_refl]).
        rewrite E in H. destruct H.
      + unfold group_sum, fsum. now rewrite E.
    - destruct (filter (fun r => key r =? k) rows) as [|r l] eqn:E; [reflexivity|].
      exfalso. apply Hout.
      assert (Hr : In r (filter (fun r0 => key r0 =? k) rows)) by (rewrite E; now left).
      apply filter_In in Hr. destruct Hr as [Hr Hk].
      apply String.eqb_eq in Hk. subst k. now apply in_map. }
  split; [exact Hkeys|]. split; [exact Hnd|].
  assert (Hpair : forall name value, In (name, value) mix <-> Map_get mix name = Some value).
  { clear Hget Hkeys. induction mix as [|[k v] m IH]; intros name value.
    - simpl. split; [intros []|discriminate].
    - inversion Hnd as [|? ? Hk Hnd']; subst. cbn [Map_get In].
      destruct (String.eqb_spec k name) as [->|Hne].
      + split.
        * intros [[= ->]|Hin]; [reflexivity|].
          exfalso. apply Hk. apply in_map_iff. now exists (name, value).
        * intros [= ->]. now left.
      + rewrite <- (IH Hnd'). split; [|now right].
        intros [[= -> _]|Hin]; [contradiction|exact Hin]. }
  intros name value. rewrite Hpair, Hget.
  destruct (in_dec string_dec name (map key rows)); split.
  - intros [= <-]. auto.
  - intros [_ ->]. reflexivity.
  - discriminate.
  - intros [? _]. contradiction.
Qed.

End Grouping.

(** X13.  [providerMix], on both pages, has one entry for every provider
    among its rows, in the order the providers first appear, and the value
    of an entry is the sum, from [0] and in the order of the rows, of the
    costs of the rows of that provider; without data the mix is empty. *)
Theorem providerMix_groups :
  (forall data : option Payload,
     let rows := match data with Some d => models d | None => [] end in
     map fst (Dashboard.providerMix data) = first_seen (map Model.provider rows)
     /\ NoDup (map fst (Dashboard.providerMix data))
     /\ (forall name value,
           In (name, value) (Dashboard.providerMix data)
           <-> In name (map Model.provider rows)
               /\ value = group_sum Model.provider Model.cost name rows))
  /\ Dashboard.providerMix None = []
  /\ (forall metrics : list Tracker.Metric.t,
        map fst (Tracker.providerMix metrics)
        = first_seen (map Tracker.Metric.provider metrics)
        /\ NoDup (map fst (Tracker.providerMix metrics))
        /\ (forall name value,
              In (name, value) (Tracker.providerMix metrics)
              <-> In name (map Tracker.Metric.provider metrics)
                  /\ value = group_sum Tracker.Metric.provider
                                       Tracker.Metric.cost name metrics)).
Proof.
  split; [|split; [reflexivity|]].
  - intros data rows. apply (grouping Model.provider Model.cost rows).
  - intros metrics.
    apply (grouping Tracker.Metric.provider Tracker.Metric.cost metrics).
Qed.

Lemma StronglySorted_app_inv {A : Type} (R : A -> A -> Prop) (l1 l2 : list A) :
  StronglySorted R (l1 ++ l2) ->
  forall a b, In a l1 -> In b l2 -> R a b.
Proof.
  induction l1 as [|x l1 IH]; intros Hs a b Ha Hb; [destruct Ha|].
  simpl in Hs. inversion Hs as [|? ? Hs' Hall]; subst.
  destruct Ha as [->|Ha].
  - rewrite Forall_forall in Hall. apply Hall, in_or_app. now right.
  - now apply IH.
Qed.

Section Pages.

Context {js : Builtins}.

Lemma run_providers (w : World) (p : Payload) :
  run w = Wrote p ->
  Forall (fun row => In (Model.provider row) provider_labels) (models p).
Proof.
  intros H. destruct (payload_rows _ _ H) as (es & n & _ & _ & Hperm & _).
  apply Forall_forall. intros row Hrow.
  apply (Permutation_in _ Hperm), byModel_rows in Hrow.
  destruct Hrow as (m & _ & ->). apply providerFromModel_label.
Qed.

(** X14.  For a payload the script wrote the pie has at most six slices,
    one for each provider label that occurs, and with seven colours every
    slice has a fill and no two slices have the same. *)
Theorem pie_colours (w : World) (p : Payload) :
  run w = Wrote p ->
  let mix := Dashboard.providerMix (Some p) in
  length mix <= 6
  /\ (forall name, In name (map fst mix) -> In name provider_labels)
  /\ (forall i, i < length mix ->
                exists c, Dashboard.fill i = Some c)
  /\ (forall i j, i < length mix -> j < length mix -> i <> j ->
                  Dashboard.fill i <> Dashboard.fill j).
Proof.
  intros H mix.
  destruct (grouping Model.provider Model.cost (models p)) as (Hkeys & Hnd & _).
  fold (Dashboard.providerMix (Some p)) in Hkeys, Hnd. fold mix in Hkeys, Hnd.
  assert (Hincl : incl (map fst mix) provider_labels).
  { intros name Hname. rewrite Hkeys in Hname.
    apply fold_add_key_In in Hname. destruct Hname as [[]|Hname].
    apply in_map_iff in Hname. destruct Hname as (row & <- & Hrow).
    pose proof (run_providers _ _ H) as Hall.
    rewrite Forall_forall in Hall. now apply Hall. }
  assert (Hlen : length mix <= 6).
  { rewrite <- (length_map fst mix).
    exact (NoDup_incl_length Hnd Hincl). }
  assert (Hfill : forall i, i < 7 -> Dashboard.fill i = nth_error Dashboard.colors i).
  { intros i Hi. unfold Dashboard.fill.
    change (length Dashboard.colors) with 7. now rewrite Nat.mod_small. }
  assert (Hcolors : NoDup Dashboard.colors).
  { unfold Dashboard.colors. repeat constructor; simpl; intuition discriminate. }
  split; [exact Hlen|]. split; [exact Hincl|]. split.
  - intros i Hi. rewrite Hfill by lia.
    destruct (nth_error Dashboard.colors i) as [c|] eqn:E; [now exists c|].
    apply nth_error_None in E. change (length Dashboard.colors) with 7 in E. lia.
  - intros i j Hi Hj Hij Heq. rewrite !Hfill in Heq by lia.
    apply Hij. apply (proj1 (NoDup_nth_error Dashboard.colors) Hcolors); [|exact Heq].
    change (length Dashboard.colors) with 7. lia.
Qed.

Lemma finite_numbers_costs (p : Payload) :
  finite_numbers p = true ->
  Forall (fun m => is_nan (Model.cost m) = false) (models p).
Proof.
  unfold finite_numbers. intros H. apply andb_prop in H. destruct H as [_ H].
  rewrite forallb_forall in H. apply Forall_forall. intros m Hm.
  specialize (H m Hm). cbn [forallb] in H.
  do 4 (apply andb_prop in H; destruct H as [_ H]).
  apply andb_prop in H. destruct H as [H _].
  unfold is_finite in H. now destruct (is_nan (Model.cost m)).
Qed.

(** X15.  The table shows the first twenty models of the payload.  For a
    payload the script wrote whose numbers are all finite, so that the
    document carries every number as a number and not as [null], every
    model the table shows cost at least as much as every model it leaves
    out. *)
Theorem table_shows_the_costliest (w : World) (p : Payload) :
  run w = Wrote p ->
  finite_numbers p = true ->
  Dashboard.table_rows p ++ skipn 20 (models p) = models p
  /\ length (Dashboard.table_rows p) = Nat.min 20 (length (models p))
  /\ (forall shown hidden,
        In shown (Dashboard.table_rows p) ->
        In hidden (skipn 20 (models p)) ->
        cost_ge shown hidden).
Proof.
  intros H Hfinite. pose proof (finite_numbers_costs p Hfinite) as Hnan.
  destruct (run_process_all _ _ H) as (st & _ & ->).
  split; [apply firstn_skipn|]. split; [apply length_firstn|].
  apply StronglySorted_app_inv. unfold Dashboard.table_rows.
  rewrite firstn_skipn. cbn [models payload] in *.
  apply models_sorted.
  apply Forall_forall. intros m Hm. rewrite Forall_forall in Hnan.
  apply Hnan. eapply Permutation_in; [symmetry; apply sort_perm|exact Hm].
Qed.

(** X16.  Whatever is typed into a number field of the form, the form
    keeps a number that is neither NaN nor the negative zero: the number the
    text converts to when that is neither NaN nor a zero, and [0] when it is
    NaN or a zero. *)
Theorem number_field_is_a_number (v : string) :
  is_nan (Tracker.number_field v) = false
  /\ Prim2SF (Tracker.number_field v) <> S754_zero true
  /\ (is_nan (StringToNumber v) = false ->
      is_zero (StringToNumber v) = false ->
      Tracker.number_field v = StringToNumber v)
  /\ (is_nan (StringToNumber v) = true -> Tracker.number_field v = 0%float)
  /\ (is_zero (StringToNumber v) = true -> Tracker.number_field v = 0%float).
Proof.
  unfold Tracker.number_field. cbn [truthy].
  destruct (is_zero (StringToNumber v)) eqn:Ez; cbn [orb negb].
  - repeat split; try reflexivity; discriminate.
  - destruct (is_nan (StringToNumber v)) eqn:En; cbn [negb].
    + repeat split; try reflexivity; discriminate.
    + split; [exact En|]. split; [|repeat split; try reflexivity; discriminate].
      intros Hneg. unfold is_zero in Ez.
      rewrite FloatAxioms.eqb_spec, Hneg in Ez. discriminate Ez.
Qed.

End Pages.

Lemma tracker_totals_app (metrics : list Tracker.Metric.t) (row : Tracker.Metric.t) :
  Tracker.totals (metrics ++ [row])
  = Tracker.Sums.mk
      (Tracker.Sums.calls (Tracker.totals metrics) + Tracker.Metric.calls row)
      (Tracker.Sums.inputTokens (Tracker.totals metrics) + Tracker.Metric.inputTokens row)
      (Tracker.Sums.outputTokens (Tracker.totals metrics) + Tracker.Metric.outputTokens row)
      (Tracker.Sums.cost (Tracker.totals metrics) + Tracker.Metric.cost row).
Proof. unfold Tracker.totals. now rewrite fold_left_app. Qed.

(** X17.  With an id that no row has yet, [addRow] puts one row after the
    others, which has that id and every field of the form as the form has
    it; the totals grow by the numbers of the form, and [removeRow] of that
    id gives back the rows as they were.  [removeRow] of an id no row has
    changes nothing. *)
Theorem add_then_remove (uuid : string) (form : Tracker.Form.t)
  (prev : list Tracker.Metric.t) :
  ~ In uuid (map Tracker.Metric.id prev) ->
  Tracker.removeRow uuid (Tracker.addRow uuid form prev) = prev
  /\ Tracker.removeRow uuid prev = prev
  /\ Tracker.totals (Tracker.addRow uuid form prev)
     = Tracker.Sums.mk
         (Tracker.Sums.calls (Tracker.totals prev) + Tracker.Form.calls form)
         (Tracker.Sums.inputTokens (Tracker.totals prev) + Tracker.Form.inputTokens form)
         (Tracker.Sums.outputTokens (Tracker.totals prev) + Tracker.Form.outputTokens form)
         (Tracker.Sums.cost (Tracker.totals prev) + Tracker.Form.cost form)
  /\ map Tracker.Metric.id (Tracker.addRow uuid form prev)
     = map Tracker.Metric.id prev ++ [uuid]
  /\ Tracker.addRow uuid form prev
     = prev ++ [Tracker.Metric.mk uuid
                  (Tracker.Form.date form) (Tracker.Form.provider form)
                  (Tracker.Form.endpoint form) (Tracker.Form.calls form)
                  (Tracker.Form.inputTokens form) (Tracker.Form.outputTokens form)
                  (Tracker.Form.cost form)].
Proof.
  intros Hfresh.
  assert (Hkeep : Tracker.removeRow uuid prev = prev).
  { unfold Tracker.removeRow. induction prev as [|m prev IH]; [reflexivity|].
    cbn [filter map] in *.
    destruct (String.eqb_spec (Tracker.Metric.id m) uuid) as [Heq|Hne].
    - exfalso. apply Hfresh. now left.
    - cbn [negb]. f_equal. apply IH. intros Hin. apply Hfresh. now right. }
  split; [|split; [exact Hkeep|split; [|split; [|reflexivity]]]].
  - unfold Tracker.addRow, Tracker.removeRow in *.
    rewrite filter_app, Hkeep. cbn [filter Tracker.row_of Tracker.Metric.id].
    rewrite String.eqb_refl. cbn [negb]. apply app_nil_r.
  - unfold Tracker.addRow. now rewrite tracker_totals_app.
  - unfold Tracker.addRow. now rewrite map_app.
Qed.

(** ** The further properties on the sample logs *)

(** X1 on the sample directory, which holds a file that is no log, and on
    a directory of two logs. *)
Lemma files_listed_sample :
  In (Sample.path "a.jsonl")
     (files (Sample.world [Sample.line_claude] Sample.clock_feb21 None))
  /\ @run Sample.builtins
       (mkWorld (Some ["a.jsonl"])
                (readFileSync (Sample.world [Sample.line_claude] Sample.clock_feb21 None))
                Sample.clock_feb21 None)
     = @run Sample.builtins (Sample.world [Sample.line_claude] Sample.clock_feb21 None)
  /\ files (Cases.two_logs [Sample.line_claude] [Sample.line_gpt] Sample.clock_feb21)
     = [Sample.path "a.jsonl"; Sample.path "b.jsonl"].
Proof.
  destruct (@files_listed Sample.builtins
              (Sample.world [Sample.line_claude] Sample.clock_feb21 None)
              ["notes.txt"; "a.jsonl"] eq_refl) as (Hin & _ & _ & Hrun & _).
  destruct (@files_listed Sample.builtins
              (Cases.two_logs [Sample.line_claude] [Sample.line_gpt] Sample.clock_feb21)
              ["a.jsonl"; "b.jsonl"] eq_refl) as (_ & _ & _ & _ & Hfiles & _).
  split; [|split].
  - apply Hin. exists "a". split; [right; now left|reflexivity].
  - exact (Hrun "notes.txt" eq_refl).
  - rewrite Hfiles. reflexivity.
Defined.

(** X4 on two logs, the second with a torn line. *)
Lemma logs_as_one_log_sample :
  @aggregate Sample.builtins
    (Cases.two_logs [Sample.line_claude] [Sample.line_gpt; Sample.line_torn]
                    Sample.clock_feb21)
    state0 [Sample.path "a.jsonl"; Sample.path "b.jsonl"]
  = @process_all Sample.builtins Sample.clock_feb21 state0
      [Sample.event_claude; Sample.event_gpt].
Proof.
  rewrite (@logs_as_one_log Sample.builtins _ _
             [unlines [Sample.line_claude];
              unlines [Sample.line_gpt; Sample.line_torn]]).
  - reflexivity.
  - constructor; [reflexivity|]. constructor; [reflexivity|constructor].
Defined.

(** X5 on the three sample calls: two on 2026-02-20, one dated by the
    clock. *)
Lemma daily_rows_sample :
  exists p,
    @run Sample.builtins
      (Sample.world [Sample.line_claude; Sample.line_gpt; Sample.line_bare]
                    Sample.clock_feb21 None) = Wrote p
    /\ NoDup (map Daily.date (daily p))
    /\ In (day_row "2026-02-20" [mkUsage 100 20 0 0 120 1.5;
                                 mkUsage 300 50 0 0 350 2.25])
          (daily p)
    /\ In (Daily.mk "2026-02-21" 1 7 1 8 0.25) (daily p).
Proof.
  eexists. split; [reflexivity|].
  destruct (@daily_rows Sample.builtins
              (Sample.world [Sample.line_claude; Sample.line_gpt; Sample.line_bare]
                            Sample.clock_feb21 None) _ eq_refl)
    as (es & n & He & Hrows & _ & Hnd & _).
  vm_compute in He. injection He as <- <-.
  split; [exact Hnd|]. split; apply Hrows.
  - exists "2026-02-20". split; [now left|reflexivity].
  - exists "2026-02-21". split; [right; right; now left|reflexivity].
Defined.

(** X6 on the same calls. *)
Lemma model_rows_sample :
  exists p,
    @run Sample.builtins
      (Sample.world [Sample.line_claude; Sample.line_gpt; Sample.line_bare]
                    Sample.clock_feb21 None) = Wrote p
    /\ NoDup (map Model.model (models p))
    /\ In (Model.mk "google/gemini" "Google" 1 7 1 8 0.25) (models p).
Proof.
  eexists. split; [reflexivity|].
  destruct (@model_rows Sample.builtins
              (Sample.world [Sample.line_claude; Sample.line_gpt; Sample.line_bare]
                            Sample.clock_feb21 None) _ eq_refl)
    as (es & n & He & _ & Hrows & _ & Hnd & _).
  vm_compute in He. injection He as <- <-.
  split; [exact Hnd|]. apply Hrows.
  exists "google/gemini". split; [right; right; now left|reflexivity].
Defined.

(** X7 on the same calls: three calls, in two days and in three models. *)
Lemma calls_partition_sample :
  exists p per_day per_model,
    @run Sample.builtins
      (Sample.world [Sample.line_claude; Sample.line_gpt; Sample.line_bare]
                    Sample.clock_feb21 None) = Wrote p
    /\ map Daily.calls (daily p) = map count per_day
    /\ map Model.calls (models p) = map count per_model
    /\ list_sum per_day = 3
    /\ list_sum per_model = 3.
Proof.
  eexists.
  destruct (@calls_partition Sample.builtins
              (Sample.world [Sample.line_claude; Sample.line_gpt; Sample.line_bare]
                            Sample.clock_feb21 None) _ eq_refl)
    as (per_day & per_model & Hd & Hm & _ & Hsd & Hsm).
  exists per_day, per_model.
  split; [reflexivity|]. split; [exact Hd|]. split; [exact Hm|].
  split; [rewrite Hsd|rewrite Hsm]; reflexivity.
Defined.

(** X8 on a log with two calls that have no timestamp. *)
Lemma clock_readings_sample :
  exists p,
    @run Sample.builtins
      (Sample.world [Sample.line_bare; Sample.line_claude; Sample.line_bare]
                    Sample.clock_feb21 None) = Wrote p
    /\ @clock_reads Sample.builtins
         (Sample.world [Sample.line_bare; Sample.line_claude; Sample.line_bare]
                       Sample.clock_feb21 None) = 2
    /\ generatedAt p = Sample.clock_feb21 2.
Proof.
  eexists. split; [reflexivity|].
  destruct (@clock_readings Sample.builtins
              (Sample.world [Sample.line_bare; Sample.line_claude; Sample.line_bare]
                            Sample.clock_feb21 None) _ eq_refl) as [Hc Hg].
  split; [rewrite Hc; reflexivity|]. rewrite Hg, Hc. reflexivity.
Defined.

(** X12 on the two sample calls of 2026-02-20. *)
Lemma plain_logs_are_written_sample :
  exists p,
    @run Sample.builtins
      (Sample.world [Sample.line_claude; Sample.line_torn; Sample.line_gpt]
                    Sample.clock_feb21 None) = Wrote p.
Proof.
  destruct (@plain_logs_are_written Sample.builtins
              (Sample.world [Sample.line_claude; Sample.line_torn; Sample.line_gpt]
                            Sample.clock_feb21 None)) as (p & Hp & _).
  - discriminate.
  - intros p Hp. vm_compute in Hp. destruct Hp as [<-|[]].
    eexists. reflexivity.
  - change (Forall (fun e => included e = true -> plain e = true)
                   [Sample.event_claude; Sample.event_gpt]).
    repeat (constructor; [intros _; reflexivity|]). constructor.
  - exists p. exact Hp.
Defined.

(** X9 on a log whose second call gives a number for its model. *)
Lemma run_raises_sample :
  @run Cases.builtins
    (Sample.world [Sample.line_claude; Cases.line_numeric_model]
                  Sample.clock_feb21 None) = Raised TypeError
  /\ exists event,
       In event (@events_of Cases.builtins
                   (Sample.world [Sample.line_claude; Cases.line_numeric_model]
                                 Sample.clock_feb21 None))
       /\ included event = true.
Proof.
  split; [reflexivity|].
  destruct (@run_raises Cases.builtins
              (Sample.world [Sample.line_claude; Cases.line_numeric_model]
                            Sample.clock_feb21 None) TypeError eq_refl)
    as [(p & Hin & Hp)|(_ & event & st & Hin & Hinc & _)].
  - exfalso. vm_compute in Hin. destruct Hin as [<-|[]]. discriminate Hp.
  - exists event. split; assumption.
Defined.

(** X10 on the same log. *)
Lemma non_string_model_stops_the_run_sample :
  exists e,
    @run Cases.builtins
      (Sample.world [Sample.line_claude; Cases.line_numeric_model]
                    Sample.clock_feb21 None) = Raised e.
Proof.
  destruct (@non_string_model_stops_the_run Cases.builtins
              (Sample.world [Sample.line_claude; Cases.line_numeric_model]
                            Sample.clock_feb21 None)
              Cases.event_numeric_model (Some (JNum 5)))
    as (e & He & _).
  - right. left. reflexivity.
  - reflexivity.
  - reflexivity.
  - discriminate.
  - exists e. exact He.
Defined.

(** X11 on a directory whose second log cannot be read. *)
Lemma unreadable_log_stops_the_run_sample :
  exists e,
    @run Sample.builtins (Cases.second_log_unreadable [Sample.line_claude] None)
    = Raised e
    /\ @published_after Sample.builtins
         (Cases.second_log_unreadable [Sample.line_claude] None) = None.
Proof.
  destruct (@unreadable_log_stops_the_run Sample.builtins
              (Cases.second_log_unreadable [Sample.line_claude] None)
              (Sample.path "b.jsonl") IOError) as (e & He & _ & Hp).
  - right. left. reflexivity.
  - reflexivity.
  - exists e. split; [exact He|exact Hp].
Defined.

(** X14 on the three sample calls: three slices, three fills. *)
Lemma pie_colours_sample :
  exists p,
    @run Sample.builtins
      (Sample.world [Sample.line_claude; Sample.line_gpt; Sample.line_bare]
                    Sample.clock_feb21 None) = Wrote p
    /\ length (Dashboard.providerMix (Some p)) <= 6
    /\ Dashboard.fill 0 <> Dashboard.fill 2.
Proof.
  eexists. split; [reflexivity|].
  destruct (@pie_colours Sample.builtins
              (Sample.world [Sample.line_claude; Sample.line_gpt; Sample.line_bare]
                            Sample.clock_feb21 None) _ eq_refl)
    as (Hlen & _ & _ & Hdistinct).
  split; [exact Hlen|].
  apply Hdistinct; [vm_compute; lia|vm_compute; lia|discriminate].
Defined.

(** X15 on a log of twenty-one models: the table leaves out the cheapest. *)
Lemma table_shows_the_costliest_sample :
  exists p hidden,
    @run Cases.pricing Cases.priced_log = Wrote p
    /\ length (models p) = 21
    /\ length (Dashboard.table_rows p) = 20
    /\ skipn 20 (models p) = [hidden]
    /\ Model.model hidden = "m/01"
    /\ forall shown, In shown (Dashboard.table_rows p) -> cost_ge shown hidden.
Proof.
  pose (p := match @run Cases.pricing Cases.priced_log with
             | Wrote p => p
             | _ => mkPayload "" "" totals0 [] []
             end).
  vm_compute in p.
  exists p, (Model.mk "m/01" "Other" 1 0 0 0 1).
  assert (Hrun : @run Cases.pricing Cases.priced_log = Wrote p)
    by (vm_compute; reflexivity).
  destruct (@table_shows_the_costliest Cases.pricing Cases.priced_log p Hrun)
    as (_ & Hlen & Hcost).
  - vm_compute. reflexivity.
  - split; [exact Hrun|]. split; [vm_compute; reflexivity|].
    split; [vm_compute; reflexivity|].
    split; [vm_compute; reflexivity|]. split; [reflexivity|].
    intros shown Hshown. apply (Hcost shown _ Hshown).
    vm_compute. now left.
Defined.

(** X16 on the texts [5], [abc] and [-0]. *)
Lemma number_field_is_a_number_sample :
  @Tracker.number_field Cases.pricing "5" = 5%float
  /\ @Tracker.number_field Cases.pricing "abc" = 0%float
  /\ @Tracker.number_field Cases.pricing "-0" = 0%float.
Proof.
  destruct (@number_field_is_a_number Cases.pricing "5") as (_ & _ & Hkeep & _).
  destruct (@number_field_is_a_number Cases.pricing "abc") as (_ & _ & _ & Hnan & _).
  destruct (@number_field_is_a_number Cases.pricing "-0") as (_ & _ & _ & _ & Hzero).
  split; [|split].
  - rewrite Hkeep; reflexivity.
  - apply Hnan. reflexivity.
  - apply Hzero. reflexivity.
Defined.

(** X17 on two rows and a new id. *)
Lemma add_then_remove_sample :
  Tracker.removeRow "id-3"
    (Tracker.addRow "id-3" Cases.form [Cases.row_openai; Cases.row_anthropic])
  = [Cases.row_openai; Cases.row_anthropic]
  /\ Tracker.addRow "id-3" Cases.form [Cases.row_openai; Cases.row_anthropic]
     = [Cases.row_openai; Cases.row_anthropic;
        Tracker.Metric.mk "id-3" "2026-02-22" "OpenAI" "/v1/chat/completions"
                          1 10 5 0.5].
Proof.
  destruct (add_then_remove "id-3" Cases.form [Cases.row_openai; Cases.row_anthropic])
    as (Hback & _ & _ & _ & Hrow).
  - simpl. intros [H|[H|[]]]; discriminate H.
  - split; [exact Hback|]. rewrite Hrow. reflexivity.
Defined.
